(** * Hybrid storage of the blog: relational rows plus an on-disk article tree

    A shallow embedding of [database.js] (slug derivation, post lifecycle,
    asset storage, rebuild of the [posts] table from the article folders)
    and of the two asset routes of the HTTP server, followed by the
    properties of the storage design that hold of that code. *)

From Stdlib Require Import List NArith ZArith Bool Lia String Ascii.
From Stdlib Require Import DecimalString.
From Stdlib Require DecimalZ DecimalPos.
Import ListNotations.

Set Implicit Arguments.
Set Warnings "-register-all".

(** ** JavaScript strings

    A JavaScript string is a sequence of UTF-16 code units; [length],
    [substring] and a regular expression without the [u] flag all work on
    code units. *)

Definition char16 := N.
Definition jsstring := list char16.

Definition str (s : string) : jsstring :=
  map N_of_ascii (list_ascii_of_string s).

Definition jsstring_eq_dec : forall a b : jsstring, {a = b} + {a <> b} :=
  list_eq_dec N.eq_dec.

Definition jsstring_eqb (a b : jsstring) : bool :=
  if jsstring_eq_dec a b then true else false.

(** ** The clock *)

Module Clock.

Record datetime := {
  year : N; month : N; day : N;
  hour : N; minute : N; second : N; millis : N
}.

Definition decimal (n : N) : jsstring :=
  str (NilZero.string_of_uint (N.to_uint n)).

Definition pad (width : nat) (n : N) : jsstring :=
  let d := decimal n in
  repeat 48%N (width - List.length d) ++ d.

(* SQLite's CURRENT_TIMESTAMP while the year has four digits:
   YYYY-MM-DD HH:MM:SS *)
Definition sqlite_timestamp (t : datetime) : jsstring :=
  pad 4 (year t) ++ str "-" ++ pad 2 (month t) ++ str "-" ++ pad 2 (day t)
  ++ str " " ++ pad 2 (hour t) ++ str ":" ++ pad 2 (minute t)
  ++ str ":" ++ pad 2 (second t).

(* Date.prototype.toISOString: YYYY-MM-DDTHH:mm:ss.sssZ, with an expanded
   year beyond 9999 *)
Definition toISOString (t : datetime) : jsstring :=
  (if (year t <=? 9999)%N then pad 4 (year t) else str "+" ++ pad 6 (year t))
  ++ str "-" ++ pad 2 (month t) ++ str "-" ++ pad 2 (day t)
  ++ str "T" ++ pad 2 (hour t) ++ str ":" ++ pad 2 (minute t)
  ++ str ":" ++ pad 2 (second t) ++ str "." ++ pad 3 (millis t) ++ str "Z".

End Clock.

(** ** The platform

    Functions of the JavaScript runtime, of Node and of SQLite that the
    repository calls and does not define. They are deterministic functions
    of their arguments; nothing else is assumed of them. The numbers of a
    JSON document are the integers, the values of a column are NULL,
    integers and texts: fractional numbers play no part in what follows.
    [JNum n] and [SInt n] stand for the number whose value is [n]. *)

Inductive json :=
| JNull
| JBool (b : bool)
| JNum (n : Z)
| JStr (s : jsstring)
| JArr (l : list json)
| JObj (fields : list (jsstring * json)).

Inductive sqlval :=
| SNull
| SInt (n : Z)
| SText (s : jsstring).

Definition bytes := list N.

Class Runtime := {
  (* String.prototype.toLowerCase *)
  toLowerCase : jsstring -> jsstring;
  (* JSON.parse; [None] when it throws a SyntaxError *)
  JSON_parse : jsstring -> option json;
  (* JSON.stringify(v, null, 2) *)
  JSON_stringify : json -> jsstring;
  (* Buffer <-> string conversion of fs.readFileSync / writeFileSync with 'utf8' *)
  utf8_encode : jsstring -> bytes;
  utf8_decode : bytes -> jsstring;
  (* path.extname *)
  path_extname : jsstring -> jsstring;
  (* SQLite: a number stored in a TEXT column *)
  text_of_number : Z -> jsstring;
  (* SQLite: a text stored in a column of NUMERIC affinity (DATETIME) *)
  numeric_of_text : jsstring -> sqlval;
  (* SQLite: a text given for the INTEGER PRIMARY KEY; [None] is a datatype mismatch *)
  rowid_of_text : jsstring -> option Z;
  (* SQLite: CURRENT_TIMESTAMP when the clock is past the year 9999, which
     its date functions do not cover *)
  late_timestamp : Clock.datetime -> jsstring;
  (* __dirname of database.js, an absolute normalized path *)
  dirname : list jsstring
}.

(** ** Slug derivation: [createSlug] *)

Module Slug.

Definition dash : char16 := 45%N.

Definition in_range (lo hi c : N) : bool := (lo <=? c)%N && (c <=? hi)%N.

(* \w without the i and u flags: [A-Za-z0-9_] *)
Definition word_char (c : char16) : bool :=
  in_range 65 90 c || in_range 97 122 c || in_range 48 57 c || (c =? 95)%N.

(* the class [\w\u0400-\u04FF] *)
Definition permitted (c : char16) : bool :=
  word_char c || in_range 1024 1279 c.

Definition is_dash (c : char16) : bool := (c =? dash)%N.

(* Length of the longest prefix of [s] made of characters of the class [p]:
   what the greedy [p+] consumes at the current position. *)
Fixpoint run_length (p : char16 -> bool) (s : jsstring) : nat :=
  match s with
  | c :: r => if p c then S (run_length p r) else 0
  | [] => 0
  end.

(* String.prototype.replace(re, rep) for a global regular expression whose
   matches are never empty. [m at_start s] is the length of the match of
   the expression at the current position, [s] being the rest of the
   subject from there, and 0 when it does not match there. [skip] counts the
   characters of the current match still to be consumed. *)
Fixpoint replace_from (m : bool -> jsstring -> nat) (rep : jsstring)
         (at_start : bool) (skip : nat) (s : jsstring) : jsstring :=
  match s with
  | [] => []
  | c :: r =>
      match skip with
      | S k => replace_from m rep false k r
      | O =>
          match m at_start s with
          | O => c :: replace_from m rep false 0 r
          | S k => rep ++ replace_from m rep false k r
          end
      end
  end.

Definition replace_global m rep (s : jsstring) : jsstring :=
  replace_from m rep true 0 s.

(* /[^\w\u0400-\u04FF]+/g *)
Definition re_outside (_ : bool) (s : jsstring) : nat :=
  run_length (fun c => negb (permitted c)) s.

(* /^-+|-+$/g : a run of dashes at position 0, or a run of dashes that
   reaches the end of the subject *)
Definition re_edge_dashes (at_start : bool) (s : jsstring) : nat :=
  let n := run_length is_dash s in
  if at_start then n
  else if Nat.eqb n (List.length s) then n else 0.

Definition substring (from to : nat) (s : jsstring) : jsstring :=
  firstn (to - from) (skipn from s).

Section WithRuntime.
Context {R : Runtime}.

Definition createSlug (title : jsstring) : jsstring :=
  substring 0 100
    (replace_global re_edge_dashes []
       (replace_global re_outside [dash]
          (toLowerCase title))).

End WithRuntime.

(** The derivation as the specification words it. *)

Fixpoint collapse_runs (in_run : bool) (s : jsstring) : jsstring :=
  match s with
  | [] => []
  | c :: r =>
      if permitted c then c :: collapse_runs false r
      else if in_run then collapse_runs true r
      else dash :: collapse_runs true r
  end.

Fixpoint drop_dashes (s : jsstring) : jsstring :=
  match s with
  | c :: r => if is_dash c then drop_dashes r else s
  | [] => []
  end.

Definition drop_trailing (s : jsstring) : jsstring :=
  rev (drop_dashes (rev s)).

Definition trim_dashes (s : jsstring) : jsstring :=
  drop_trailing (drop_dashes s).

Definition slug_spec (lower : jsstring -> jsstring) (title : jsstring) : jsstring :=
  firstn 100 (trim_dashes (collapse_runs false (lower title))).

Definition slug_char (c : char16) : bool := permitted c || is_dash c.

End Slug.

(** ** Exceptions *)

Inductive error :=
| SyntaxError          (* JSON.parse *)
| TypeError            (* property of null, value that cannot be bound *)
| SqliteConstraint     (* UNIQUE or NOT NULL violated *)
| SqliteMismatch       (* datatype mismatch on the integer primary key *)
| SqliteFull           (* no rowid left *)
| RangeError           (* too few or too many values for a statement *)
| FsError.             (* ENOENT, ENOTDIR, EISDIR, EEXIST *)

Inductive result (A : Type) :=
| Ok (a : A)
| Throw (e : error).
Arguments Ok {A} a.
Arguments Throw {A} e.

Definition bind {A B} (r : result A) (k : A -> result B) : result B :=
  match r with
  | Ok a => k a
  | Throw e => Throw e
  end.

Notation "'let*' x ':=' c 'in' k" := (bind c (fun x => k))
  (at level 10, x pattern, c at level 100, k at level 200).

(** ** Paths: [path.join] on POSIX

    A path is the list of its segments from the root. *)

Module Path.

Definition path := list jsstring.

Definition slash : char16 := 47%N.
Definition dot : char16 := 46%N.

(* the segments of [s] between slashes, empty ones included *)
Fixpoint split_slash (s : jsstring) : list jsstring :=
  match s with
  | [] => [[]]
  | c :: r =>
      if (c =? slash)%N then [] :: split_slash r
      else match split_slash r with
           | seg :: segs => (c :: seg) :: segs
           | [] => [[c]]
           end
  end.

(* path.normalize on an absolute path: [acc] is the stack of the segments
   kept so far, innermost first; empty segments and "." are dropped, ".."
   removes the segment before it and stays at the root when there is none *)
Fixpoint normalize_onto (acc : list jsstring) (segs : list jsstring) : path :=
  match segs with
  | [] => rev acc
  | seg :: rest =>
      if jsstring_eqb seg [] then normalize_onto acc rest
      else if jsstring_eqb seg [dot] then normalize_onto acc rest
      else if jsstring_eqb seg [dot; dot] then normalize_onto (tl acc) rest
      else normalize_onto (seg :: acc) rest
  end.

(* path.join(base, part1, ..., partn) for an absolute [base] *)
Definition join (base : path) (parts : list jsstring) : path :=
  normalize_onto (rev base) (flat_map split_slash parts).

(* a joined path that ends in a slash names a directory only *)
Definition ends_with_slash (s : jsstring) : bool :=
  match rev s with
  | c :: _ => (c =? slash)%N
  | [] => false
  end.

(* a segment that [join] appends as it is: not empty, not "." or "..",
   without a slash *)
Definition plain (s : jsstring) : bool :=
  negb (jsstring_eqb s []) && negb (jsstring_eqb s [dot]) &&
  negb (jsstring_eqb s [dot; dot]) &&
  forallb (fun c => negb (c =? slash)%N) s.

(* the characters of a decimal numeral *)
Definition digit_or_minus (c : char16) : bool :=
  Slug.in_range 48 57 c || (c =? 45)%N.

Fixpoint is_prefix (p q : path) : bool :=
  match p, q with
  | [], _ => true
  | a :: p', b :: q' => jsstring_eqb a b && is_prefix p' q'
  | _ :: _, [] => false
  end.

End Path.

(** ** The file system: the calls of Node's [fs] that the code makes *)

Module FS.
Import Path.

Inductive node :=
| File (data : bytes)
| Dir (entries : list (jsstring * node)).

Fixpoint assoc {A} (k : jsstring) (l : list (jsstring * A)) : option A :=
  match l with
  | [] => None
  | (k', v) :: r => if jsstring_eqb k k' then Some v else assoc k r
  end.

Fixpoint set_entry {A} (k : jsstring) (v : A) (l : list (jsstring * A))
  : list (jsstring * A) :=
  match l with
  | [] => [(k, v)]
  | (k', v') :: r =>
      if jsstring_eqb k k' then (k, v) :: r else (k', v') :: set_entry k v r
  end.

Fixpoint remove_entry {A} (k : jsstring) (l : list (jsstring * A))
  : list (jsstring * A) :=
  match l with
  | [] => []
  | (k', v') :: r =>
      if jsstring_eqb k k' then remove_entry k r else (k', v') :: remove_entry k r
  end.

Fixpoint lookup (p : path) (n : node) : option node :=
  match p with
  | [] => Some n
  | s :: p' =>
      match n with
      | Dir es => match assoc s es with
                  | Some c => lookup p' c
                  | None => None
                  end
      | File _ => None
      end
  end.

(* fs.existsSync *)
Definition existsSync (p : path) (fs : node) : bool :=
  match lookup p fs with Some _ => true | None => false end.

(* fs.mkdirSync(p, { recursive: true }) *)
Fixpoint mkdirSync (p : path) (n : node) : result node :=
  match n with
  | File _ => Throw FsError
  | Dir es =>
      match p with
      | [] => Ok n
      | s :: p' =>
          let child := match assoc s es with Some c => c | None => Dir [] end in
          let* c' := mkdirSync p' child in
          Ok (Dir (set_entry s c' es))
      end
  end.

(* fs.writeFileSync(p, data) *)
Fixpoint writeFileSync (p : path) (data : bytes) (n : node) : result node :=
  match n with
  | File _ => Throw FsError
  | Dir es =>
      match p with
      | [] => Throw FsError
      | [s] =>
          match assoc s es with
          | Some (Dir _) => Throw FsError
          | _ => Ok (Dir (set_entry s (File data) es))
          end
      | s :: p' =>
          match assoc s es with
          | Some c => let* c' := writeFileSync p' data c in
                      Ok (Dir (set_entry s c' es))
          | None => Throw FsError
          end
      end
  end.

(* fs.readFileSync(p) *)
Definition readFileSync (p : path) (fs : node) : result bytes :=
  match lookup p fs with
  | Some (File data) => Ok data
  | _ => Throw FsError
  end.

(* the node at [p] taken out of the tree, with all that is below it *)
Fixpoint remove_at (p : path) (n : node) : node :=
  match n with
  | File _ => n
  | Dir es =>
      match p with
      | [] => n
      | [s] => Dir (remove_entry s es)
      | s :: p' =>
          match assoc s es with
          | Some c => Dir (set_entry s (remove_at p' c) es)
          | None => n
          end
      end
  end.

(* fs.rmSync(p, { recursive: true, force: true }) *)
Definition rmSync (p : path) (fs : node) : node := remove_at p fs.

(* fs.unlinkSync(p) *)
Definition unlinkSync (p : path) (fs : node) : result node :=
  match lookup p fs with
  | Some (File _) => Ok (remove_at p fs)
  | _ => Throw FsError
  end.

Definition is_dir (n : node) : bool :=
  match n with Dir _ => true | File _ => false end.

(* fs.readdirSync(p, { withFileTypes: true }): name and isDirectory() *)
Definition readdirSync (p : path) (fs : node) : result (list (jsstring * bool)) :=
  match lookup p fs with
  | Some (Dir es) => Ok (map (fun e => (fst e, is_dir (snd e))) es)
  | _ => Throw FsError
  end.

End FS.

(** ** JSON values as the code uses them *)

Module Json.

(* the value of a property read: [undefined] or a JSON value *)
Inductive jsval :=
| Undefined
| Value (v : json).

(* [v.k] for one of the keys the code reads (none of them is a property of
   a string, a number, a boolean or an array) *)
Definition get_prop (v : json) (k : jsstring) : result jsval :=
  match v with
  | JNull => Throw TypeError
  | JObj fields => Ok (match FS.assoc k fields with
                       | Some x => Value x
                       | None => Undefined
                       end)
  | _ => Ok Undefined
  end.

(* [v.k = x] in sloppy mode, as far as JSON.stringify can see it afterwards:
   an object gets the property, a primitive ignores the assignment, an array
   keeps it as a property that is not an index *)
Definition set_prop (v : json) (k : jsstring) (x : json) : result json :=
  match v with
  | JNull => Throw TypeError
  | JObj fields => Ok (JObj (FS.set_entry k x fields))
  | _ => Ok v
  end.

End Json.

(** ** Integers as JavaScript numbers

    A JavaScript number is a double: every integer below 2^53 in absolute
    value is a number, a larger integer only when its low bits are zero. *)

Module Num.

Definition safe : Z := 2 ^ 53.

(* the number nearest to an integer, ties to even: what the conversion of
   a 64-bit integer to a double gives *)
Definition to_number (n : Z) : Z :=
  let a := Z.abs n in
  if (a <? safe)%Z then n
  else
    let e := (Z.log2 a - 52)%Z in
    let q := (a / 2 ^ e)%Z in
    let r := (a mod 2 ^ e)%Z in
    let half := (2 ^ (e - 1))%Z in
    let q' := if (half <? r)%Z || ((r =? half)%Z && Z.odd q)
              then (q + 1)%Z else q in
    (Z.sgn n * (q' * 2 ^ e))%Z.

(* an Int32: better-sqlite3 binds it as an integer, any other number as a
   double *)
Definition is_int32 (n : Z) : bool :=
  ((- 2 ^ 31 <=? n) && (n <? 2 ^ 31))%Z.

(* 10^(k-1), ..., 10, 1 *)
Fixpoint powers_of_ten (k : nat) : list Z :=
  match k with
  | O => []
  | S k' => (10 ^ Z.of_nat k')%Z :: powers_of_ten k'
  end.

(* the multiple of [p] that reads back as the number [a], when there is
   one: the nearer of the two around [a], the even one on a tie *)
Definition candidate (a p : Z) : option Z :=
  let lo := (a / p * p)%Z in
  let hi := (lo + p)%Z in
  let reads_lo := (to_number lo =? a)%Z in
  let reads_hi := (to_number hi =? a)%Z in
  if reads_lo && reads_hi then
    if (a - lo <? hi - a)%Z then Some lo
    else if (hi - a <? a - lo)%Z then Some hi
    else if Z.even (a / p) then Some lo else Some hi
  else if reads_lo then Some lo
  else if reads_hi then Some hi
  else None.

Fixpoint first_candidate (a : Z) (ps : list Z) : option Z :=
  match ps with
  | [] => None
  | p :: ps' =>
      if (a <? p)%Z then first_candidate a ps'
      else match candidate a p with
           | Some v => Some v
           | None => first_candidate a ps'
           end
  end.

(* the integer whose digits Number.prototype.toString prints for a number
   that holds an integer below 10^21: the number itself below 2^53, and
   beyond it the fewest significant digits that read back as the number,
   followed by zeros *)
Definition shortest (d : Z) : Z :=
  let a := Z.abs d in
  if (a <? safe)%Z then d
  else match first_candidate a (powers_of_ten 21) with
       | Some v => (Z.sgn d * v)%Z
       | None => d
       end.

End Num.

(** ** The [posts] table

    [id INTEGER PRIMARY KEY AUTOINCREMENT, title TEXT NOT NULL,
     slug TEXT UNIQUE, created_at DATETIME, updated_at DATETIME] *)

Module Db.

Record row := {
  id : Z;
  title : sqlval;
  slug : sqlval;
  created_at : sqlval;
  updated_at : sqlval
}.

(* [seq] is the row of sqlite_sequence that AUTOINCREMENT keeps: the largest
   rowid the table has ever held *)
Record database := {
  posts : list row;
  seq : Z
}.

Definition sqlval_eqb (a b : sqlval) : bool :=
  match a, b with
  | SNull, SNull => true
  | SInt x, SInt y => Z.eqb x y
  | SText x, SText y => jsstring_eqb x y
  | _, _ => false
  end.

(* two values collide under UNIQUE when they are equal and not NULL *)
Definition unique_clash (a b : sqlval) : bool :=
  match a with
  | SNull => false
  | _ => sqlval_eqb a b
  end.

Definition max_rowid : Z := 9223372036854775807.
Definition min_rowid : Z := -9223372036854775808.

(* the rowid AUTOINCREMENT gives next: one more than the largest ever used *)
Definition next_rowid (d : database) : result Z :=
  let m := fold_right (fun r acc => Z.max (id r) acc) (seq d) (posts d) in
  if (m >=? max_rowid)%Z then Throw SqliteFull else Ok (m + 1)%Z.

Definition high_surrogate (c : char16) : bool := Slug.in_range 55296 56319 c.
Definition low_surrogate (c : char16) : bool := Slug.in_range 56320 57343 c.

Definition below_surrogates (c : char16) : bool := (c <? 55296)%N.

(* U+FFFD *)
Definition replacement : char16 := 65533%N.

(* The text that SQLite holds for a JavaScript string, read back as a
   JavaScript string. better-sqlite3 hands the string over in UTF-8, where
   a surrogate without its partner becomes U+FFFD; every other string
   comes back as it went in. *)
Fixpoint stored_text (s : jsstring) : jsstring :=
  match s with
  | [] => []
  | c :: r =>
      if high_surrogate c then
        match r with
        | d :: r' => if low_surrogate d then c :: d :: stored_text r'
                     else replacement :: stored_text r
        | [] => [replacement]
        end
      else if low_surrogate c then replacement :: stored_text r
      else c :: stored_text r
  end.

(* String.prototype.isWellFormed: no surrogate is without its partner *)
Fixpoint well_formed (s : jsstring) : bool :=
  match s with
  | [] => true
  | c :: r =>
      if high_surrogate c then
        match r with
        | d :: r' => low_surrogate d && well_formed r'
        | [] => false
        end
      else negb (low_surrogate c) && well_formed r
  end.

Section WithRuntime.
Context {R : Runtime}.

(* CURRENT_TIMESTAMP *)
Definition current_timestamp (now : Clock.datetime) : jsstring :=
  if (Clock.year now <=? 9999)%N then Clock.sqlite_timestamp now
  else late_timestamp now.

(* storage of a value in a TEXT column *)
Definition text_affinity (v : sqlval) : sqlval :=
  match v with
  | SInt n => SText (text_of_number n)
  | _ => v
  end.

(* storage of a value in a DATETIME (NUMERIC affinity) column *)
Definition numeric_affinity (v : sqlval) : sqlval :=
  match v with
  | SText s => numeric_of_text s
  | _ => v
  end.

(* the rowid named by the value given for [id]; [None] asks for a new one.
   A number arrives as an Int32 or as a double, and SQLite takes a double
   for a rowid when it lies strictly between -2^63 and 2^63 - 1. *)
Definition rowid_of (v : sqlval) : result (option Z) :=
  match v with
  | SNull => Ok None
  | SInt n =>
      if ((min_rowid <? n) && (n <? max_rowid))%Z then Ok (Some n)
      else Throw SqliteMismatch
  | SText s =>
      match rowid_of_text s with
      | Some n => Ok (Some n)
      | None => Throw SqliteMismatch
      end
  end.

(* INSERT INTO posts (title, slug, created_at, updated_at)
   VALUES (?, ?, CURRENT_TIMESTAMP, CURRENT_TIMESTAMP); gives lastInsertRowid.
   The rowid is chosen first, so an exhausted rowid is reported before a
   slug that is taken. *)
Definition insert_post (t s : jsstring) (now : Clock.datetime) (d : database)
  : result (Z * database) :=
  let* n := next_rowid d in
  if existsb (fun r => unique_clash (SText (stored_text s)) (slug r)) (posts d)
  then Throw SqliteConstraint
  else
    let ts := SText (current_timestamp now) in
    Ok (n, {| posts := posts d ++
                [{| id := n; title := SText (stored_text t);
                    slug := SText (stored_text s);
                    created_at := ts; updated_at := ts |}];
              seq := n |}).

(* UPDATE posts SET title = ?, slug = ?, updated_at = CURRENT_TIMESTAMP
   WHERE id = ? *)
Definition update_post (t s : jsstring) (n : Z) (now : Clock.datetime)
           (d : database) : result database :=
  if existsb (fun r => (id r =? n)%Z) (posts d) &&
     existsb (fun r => negb (id r =? n)%Z &&
                       unique_clash (SText (stored_text s)) (slug r))
             (posts d)
  then Throw SqliteConstraint
  else
    Ok {| posts :=
            map (fun r =>
                   if (id r =? n)%Z
                   then {| id := id r; title := SText (stored_text t);
                           slug := SText (stored_text s);
                           created_at := created_at r;
                           updated_at := SText (current_timestamp now) |}
                   else r) (posts d);
          seq := seq d |}.

(* DELETE FROM posts WHERE id = ? *)
Definition delete_post (n : Z) (d : database) : database :=
  {| posts := filter (fun r => negb (id r =? n)%Z) (posts d); seq := seq d |}.

(* DELETE FROM posts *)
Definition delete_all (d : database) : database :=
  {| posts := []; seq := seq d |}.

(* SELECT * FROM posts WHERE id = ? *)
Definition select_by_id (n : Z) (d : database) : option row :=
  find (fun r => (id r =? n)%Z) (posts d).

(* SELECT * FROM posts WHERE slug = ? *)
Definition select_by_slug (s : jsstring) (d : database) : option row :=
  find (fun r => sqlval_eqb (SText (stored_text s)) (slug r)) (posts d).

(* INSERT OR REPLACE INTO posts (id, title, slug, created_at, updated_at)
   VALUES (?, ?, ?, ?, ?), for the five values as they were bound: the
   rowid is taken from the id or chosen anew, NOT NULL on title aborts, the
   rows that hold the same id or the same slug are deleted, then the row is
   inserted *)
Definition insert_or_replace (vid vt vs vc vu : sqlval) (d : database)
  : result database :=
  let* given := rowid_of vid in
  let* n := match given with
            | Some n => Ok n
            | None => next_rowid d
            end in
  let t := text_affinity vt in
  let s := text_affinity vs in
  match t with
  | SNull => Throw SqliteConstraint
  | _ =>
      let kept := filter (fun r => negb ((id r =? n)%Z || unique_clash s (slug r)))
                         (posts d) in
      Ok {| posts := kept ++
                [{| id := n; title := t; slug := s;
                    created_at := numeric_affinity vc;
                    updated_at := numeric_affinity vu |}];
            seq := Z.max (seq d) n |}
  end.

End WithRuntime.
End Db.

(** ** database.js

    The module's state is the SQLite database and the file system; a
    function either returns or throws, and what it has written before it
    throws stays written. A post id is a JavaScript integer, as createPost
    returns it; the asset functions take the id in the string form in which
    the routes hand it over. *)

Module Blog.
Import Path.

Record world := {
  db : Db.database;
  fs : FS.node
}.

Definition M (A : Type) := world -> result A * world.

Definition ret {A} (a : A) : M A := fun w => (Ok a, w).

Definition throw {A} (e : error) : M A := fun w => (Throw e, w).

Definition mbind {A B} (m : M A) (k : A -> M B) : M B :=
  fun w => match m w with
           | (Ok a, w') => k a w'
           | (Throw e, w') => (Throw e, w')
           end.

Notation "x <- c ;; k" := (mbind c (fun x => k))
  (at level 61, c at next level, right associativity).
Notation "c ;;; k" := (mbind c (fun _ => k))
  (at level 61, right associativity).

(* a pure computation that may throw *)
Definition lift {A} (r : result A) : M A := fun w => (r, w).

(* a statement run on the database *)
Definition sql {A} (f : Db.database -> result (A * Db.database)) : M A :=
  fun w => match f (db w) with
           | Ok (a, d) => (Ok a, {| db := d; fs := fs w |})
           | Throw e => (Throw e, w)
           end.

Definition sql_ (f : Db.database -> result Db.database) : M unit :=
  sql (fun d => let* d' := f d in Ok (tt, d')).

Definition query {A} (f : Db.database -> A) : M A :=
  fun w => (Ok (f (db w)), w).

(* a call that changes the file system *)
Definition fs_ (f : FS.node -> result FS.node) : M unit :=
  fun w => match f (fs w) with
           | Ok n => (Ok tt, {| db := db w; fs := n |})
           | Throw e => (Throw e, w)
           end.

(* a call that reads the file system *)
Definition fs_read {A} (f : FS.node -> A) : M A :=
  fun w => (Ok (f (fs w)), w).

(* db.transaction(fn)(): the database is rolled back when [fn] throws; the
   file system is not part of the transaction *)
Definition transaction {A} (m : M A) : M A :=
  fun w => match m w with
           | (Ok a, w') => (Ok a, w')
           | (Throw e, w') => (Throw e, {| db := db w; fs := fs w' |})
           end.

(* try { body } catch (error) { handler } *)
Definition try_catch {A} (body : M A) (handler : M A) : M A :=
  fun w => match body w with
           | (Ok a, w') => (Ok a, w')
           | (Throw _, w') => handler w'
           end.

Definition when (b : bool) (m : M unit) : M unit :=
  if b then m else ret tt.

Fixpoint for_each {A} (l : list A) (body : A -> M unit) : M unit :=
  match l with
  | [] => ret tt
  | a :: r => body a ;;; for_each r body
  end.

(* Number.prototype.toString of an integer that is printed digit by digit,
   as every integer below 2^53 is *)
Definition toString (n : Z) : jsstring :=
  str (NilZero.string_of_int (Z.to_int n)).

(* Number.prototype.toString of any number that holds an integer *)
Definition number_toString (n : Z) : jsstring :=
  toString (Num.shortest n).

Record post_ref := {
  ref_id : Z;
  ref_slug : jsstring;
  ref_path : path
}.

(* what getPostById and getPostBySlug return: the row, the content and,
   from getPostById, the parsed info.json when there is one *)
Record post := {
  post_row : Db.row;
  post_content : jsstring;
  post_info : option json
}.

Section WithRuntime.
Context {R : Runtime}.

Definition ARTICLES_DIR : path := join dirname [str "articles"].

(* The value that better-sqlite3 binds to one parameter: null and
   undefined as NULL, a number, a string in its stored form; a boolean, and
   an array or an object met where one value is expected, is a TypeError. *)
Definition bind_param (v : Json.jsval) : result sqlval :=
  match v with
  | Json.Undefined => Ok SNull
  | Json.Value JNull => Ok SNull
  | Json.Value (JNum n) => Ok (SInt n)
  | Json.Value (JStr s) => Ok (SText (Db.stored_text s))
  | _ => Throw TypeError
  end.

(* one value at the anonymous parameter that follows the [i] bound so far,
   in a statement with [count] parameters: a value that can be bound and
   finds no parameter left is a RangeError *)
Definition bind_value (count i : nat) (v : Json.jsval) : result sqlval :=
  let* p := bind_param v in
  if Nat.ltb i count then Ok p else Throw RangeError.

Fixpoint bind_elements (count i : nat) (l : list json)
  : result (list sqlval) :=
  match l with
  | [] => Ok []
  | v :: r =>
      let* p := bind_value count i (Json.Value v) in
      let* ps := bind_elements count (S i) r in
      Ok (p :: ps)
  end.

(* The values that the arguments of run() or get() bind to the anonymous
   parameters of a statement, from left to right: an array binds its
   elements, a plain object binds the named parameters, of which the
   statements of the repository have none, and a second object is refused;
   anything else binds one value. [i] values are bound so far, and [named]
   tells whether an object has been met. *)
Fixpoint bind_from (count i : nat) (named : bool) (args : list Json.jsval)
  : result (list sqlval) :=
  match args with
  | [] => Ok []
  | Json.Value (JArr l) :: r =>
      let* ps := bind_elements count i l in
      let* qs := bind_from count (i + List.length ps) named r in
      Ok (ps ++ qs)
  | Json.Value (JObj _) :: r =>
      if named then Throw TypeError else bind_from count i true r
  | v :: r =>
      let* p := bind_value count i v in
      let* qs := bind_from count (S i) named r in
      Ok (p :: qs)
  end.

(* the binding of the arguments to a statement with [count] parameters, of
   which none may stay unbound *)
Definition bind_args (count : nat) (args : list Json.jsval)
  : result (list sqlval) :=
  let* ps := bind_from count 0 false args in
  if Nat.eqb (List.length ps) count then Ok ps else Throw RangeError.

(* a column of the row that info.json would restore: the field as
   better-sqlite3 binds it when it stands for one value *)
Definition snapshot_field (info : json) (k : string) : result sqlval :=
  let* v := Json.get_prop info (str k) in bind_param v.

(* info.json mirrors a row: field by field the same values *)
Definition snapshot_mirrors_row (info : json) (r : Db.row) : Prop :=
  snapshot_field info "id" = Ok (SInt (Db.id r)) /\
  snapshot_field info "title" = Ok (Db.title r) /\
  snapshot_field info "slug" = Ok (Db.slug r) /\
  snapshot_field info "created_at" = Ok (Db.created_at r) /\
  snapshot_field info "updated_at" = Ok (Db.updated_at r).

Definition createArticleFolder (postId : Z) : M path :=
  let articlePath := join ARTICLES_DIR [number_toString postId] in
  present <- fs_read (FS.existsSync articlePath) ;;
  when (negb present)
    (fs_ (FS.mkdirSync articlePath) ;;;
     fs_ (FS.mkdirSync (join articlePath [str "assets"]))) ;;;
  ret articlePath.

(* the [info] object of createPost *)
Definition createPost_info (postId : Z) (title slug : jsstring)
           (now1 now2 : Clock.datetime) : json :=
  JObj [ (str "id", JNum postId);
         (str "title", JStr title);
         (str "slug", JStr slug);
         (str "created_at", JStr (Clock.toISOString now1));
         (str "updated_at", JStr (Clock.toISOString now2)) ].

(* [sql_now] is the clock read by CURRENT_TIMESTAMP, [now1] and [now2] the
   two [new Date()] of the info record; result.lastInsertRowid is the
   rowid as a number *)
Definition createPost (title content : jsstring)
           (sql_now now1 now2 : Clock.datetime) : M post_ref :=
  transaction (
    let slug := Slug.createSlug title in
    rowid <- sql (Db.insert_post title slug sql_now) ;;
    let postId := Num.to_number rowid in
    articlePath <- createArticleFolder postId ;;
    let contentPath := join articlePath [str "content.html"] in
    fs_ (FS.writeFileSync contentPath (utf8_encode content)) ;;;
    let info := createPost_info postId title slug now1 now2 in
    let infoPath := join articlePath [str "info.json"] in
    fs_ (FS.writeFileSync infoPath (utf8_encode (JSON_stringify info))) ;;;
    ret {| ref_id := postId; ref_slug := slug; ref_path := articlePath |}).

(* readFileSync(p, 'utf8') *)
Definition read_text (p : path) : M jsstring :=
  fun w => match FS.readFileSync p (fs w) with
           | Ok b => (Ok (utf8_decode b), w)
           | Throw e => (Throw e, w)
           end.

Definition parse (text : jsstring) : M json :=
  lift (match JSON_parse text with
        | Some v => Ok v
        | None => Throw SyntaxError
        end).

Definition updatePost (id : Z) (title content : jsstring)
           (sql_now now : Clock.datetime) : M (Z * jsstring) :=
  let slug := Slug.createSlug title in
  sql_ (Db.update_post title slug id sql_now) ;;;
  let articlePath := join ARTICLES_DIR [toString id] in
  let contentPath := join articlePath [str "content.html"] in
  fs_ (FS.writeFileSync contentPath (utf8_encode content)) ;;;
  let infoPath := join articlePath [str "info.json"] in
  present <- fs_read (FS.existsSync infoPath) ;;
  info <- (if present then text <- read_text infoPath ;; parse text
           else ret (JObj [])) ;;
  info <- lift (Json.set_prop info (str "title") (JStr title)) ;;
  info <- lift (Json.set_prop info (str "slug") (JStr slug)) ;;
  info <- lift (Json.set_prop info (str "updated_at")
                              (JStr (Clock.toISOString now))) ;;
  fs_ (FS.writeFileSync infoPath (utf8_encode (JSON_stringify info))) ;;;
  ret (id, slug).



Definition deletePost (id : Z) : M unit :=
  sql_ (fun d => Ok (Db.delete_post id d)) ;;;
  let articlePath := join ARTICLES_DIR [toString id] in
  present <- fs_read (FS.existsSync articlePath) ;;
  when present (fs_ (fun n => Ok (FS.rmSync articlePath n))).

(* [None] is the [null] of a post that does not exist *)
Definition getPostById (id : Z) : M (option post) :=
  found <- query (Db.select_by_id id) ;;
  match found with
  | None => ret None
  | Some r =>
      let contentPath := join ARTICLES_DIR [toString id; str "content.html"] in
      has_content <- fs_read (FS.existsSync contentPath) ;;
      content <- (if has_content then read_text contentPath else ret []) ;;
      let infoPath := join ARTICLES_DIR [toString id; str "info.json"] in
      has_info <- fs_read (FS.existsSync infoPath) ;;
      info <- (if has_info
               then text <- read_text infoPath ;; v <- parse text ;; ret (Some v)
               else ret None) ;;
      ret (Some {| post_row := r; post_content := content; post_info := info |})
  end.

Definition getPostBySlug (slug : jsstring) : M (option post) :=
  found <- query (Db.select_by_slug slug) ;;
  match found with
  | None => ret None
  | Some r =>
      let contentPath :=
        join ARTICLES_DIR [toString (Db.id r); str "content.html"] in
      has_content <- fs_read (FS.existsSync contentPath) ;;
      content <- (if has_content then read_text contentPath else ret []) ;;
      ret (Some {| post_row := r; post_content := content; post_info := None |})
  end.

(* [postId] is the identifier in its string form; [now_ms] is Date.now() and
   [rand] is Math.random().toString(36).substr(2, 9) *)
Definition uploadImageToPost (postId : jsstring) (imageBuffer : bytes)
           (filename : jsstring) (now_ms : Z) (rand : jsstring) : M jsstring :=
  let assetsPath := join ARTICLES_DIR [postId; str "assets"] in
  present <- fs_read (FS.existsSync assetsPath) ;;
  when (negb present) (fs_ (FS.mkdirSync assetsPath)) ;;;
  let ext := path_extname filename in
  let uniqueName := toString now_ms ++ str "-" ++ rand ++ ext in
  let filePath := join assetsPath [uniqueName] in
  fs_ (FS.writeFileSync filePath imageBuffer) ;;;
  ret (str "/api/article-asset/" ++ postId ++ str "/" ++ uniqueName).

(* the file that a joined path names: a path that ends in a slash names a
   directory only *)
Definition resolve (p : path) (dir_only : bool) (n : FS.node) : option FS.node :=
  match FS.lookup p n with
  | Some (FS.File _) => if dir_only then None else FS.lookup p n
  | other => other
  end.

(* [None] is the [null] of an asset that does not exist *)
Definition getArticleAsset (postId filename : jsstring) : M (option bytes) :=
  let filePath := join ARTICLES_DIR [postId; str "assets"; filename] in
  target <- fs_read (resolve filePath (ends_with_slash filename)) ;;
  match target with
  | Some (FS.File data) => ret (Some data)
  | Some (FS.Dir _) => throw FsError
  | None => ret None
  end.

(* /^\d+$/.test(name) *)
Definition all_digits (name : jsstring) : bool :=
  negb (Nat.eqb (List.length name) 0) &&
  forallb (fun c => Slug.in_range 48 57 c) name.

(* the five values that run(info.id, info.title, info.slug,
   info.created_at, info.updated_at) binds *)
Definition restore_params (info : json) : result (list sqlval) :=
  let* vid := Json.get_prop info (str "id") in
  let* vt := Json.get_prop info (str "title") in
  let* vs := Json.get_prop info (str "slug") in
  let* vc := Json.get_prop info (str "created_at") in
  let* vu := Json.get_prop info (str "updated_at") in
  bind_args 5 [vid; vt; vs; vc; vu].

(* the statement on the values bound *)
Definition restore_statement (params : list sqlval) (d : Db.database)
  : result Db.database :=
  match params with
  | [pid; pt; ps; pc; pu] => Db.insert_or_replace pid pt ps pc pu d
  | _ => Throw RangeError
  end.

(* what the statement makes of the table for a snapshot, or the exception
   that the binding or the statement throws *)
Definition restore (info : json) (d : Db.database) : result Db.database :=
  let* params := restore_params info in restore_statement params d.

(* the body of the try block, for what JSON.parse has returned *)
Definition restore_row (info : json) : M unit :=
  params <- lift (restore_params info) ;;
  sql_ (restore_statement params).

Definition restore_folder (folder : jsstring) : M unit :=
  let infoPath := join ARTICLES_DIR [folder; str "info.json"] in
  present <- fs_read (FS.existsSync infoPath) ;;
  when present
    (try_catch
       (text <- read_text infoPath ;;
        info <- parse text ;;
        restore_row info)
       (ret tt)).

Definition rebuildDatabaseFromFiles : M unit :=
  sql_ (fun d => Ok (Db.delete_all d)) ;;;
  entries <- (fun w => match FS.readdirSync ARTICLES_DIR (fs w) with
                       | Ok l => (Ok l, w)
                       | Throw e => (Throw e, w)
                       end) ;;
  let articleFolders :=
    map fst (filter (fun e => snd e && all_digits (fst e)) entries) in
  for_each articleFolders restore_folder.

(** What the rebuild reads from the articles folder. *)

(* the folders that the rebuild visits, in the order of readdirSync *)
Definition article_folders (n : FS.node) : list jsstring :=
  match FS.readdirSync ARTICLES_DIR n with
  | Ok entries => map fst (filter (fun e => snd e && all_digits (fst e)) entries)
  | Throw _ => []
  end.

(* the parsed info.json of a folder, when it is there and parses *)
Definition snapshot_of (n : FS.node) (folder : jsstring) : option json :=
  let infoPath := join ARTICLES_DIR [folder; str "info.json"] in
  if FS.existsSync infoPath n then
    match FS.readFileSync infoPath n with
    | Ok b => JSON_parse (utf8_decode b)
    | Throw _ => None
    end
  else None.

(* the snapshots of the visited folders that parse: N is their number *)
Definition snapshots (n : FS.node) : list json :=
  flat_map (fun folder => match snapshot_of n folder with
                          | Some info => [info]
                          | None => []
                          end) (article_folders n).

(* the table after the INSERT OR REPLACE of one snapshot, which leaves the
   table as it is when a field cannot be read or bound or when the
   statement fails *)
Definition after_restore (info : json) (d : Db.database) : Db.database :=
  match restore info d with
  | Ok d' => d'
  | Throw _ => d
  end.

(* the row of a snapshot whose id is an integer that SQLite takes for a
   rowid and whose other fields are strings *)
Definition typed_row (info : json) : option Db.row :=
  match snapshot_field info "id", snapshot_field info "title",
        snapshot_field info "slug", snapshot_field info "created_at",
        snapshot_field info "updated_at" with
  | Ok (SInt n), Ok (SText t), Ok (SText s), Ok (SText c), Ok (SText u) =>
      if ((Db.min_rowid <? n) && (n <? Db.max_rowid))%Z
      then Some {| Db.id := n; Db.title := SText t; Db.slug := SText s;
                   Db.created_at := SText c; Db.updated_at := SText u |}
      else None
  | _, _, _, _, _ => None
  end.

(* the DATETIME columns keep the timestamps of the row as they are *)
Definition restorable (r : Db.row) : Prop :=
  Db.numeric_affinity (Db.created_at r) = Db.created_at r /\
  Db.numeric_affinity (Db.updated_at r) = Db.updated_at r.

End WithRuntime.
End Blog.

(** ** The asset routes of the server

    The handlers of [POST /api/upload-image/:postId] and of
    [GET /api/article-asset/:postId/:filename], from the point where the
    session check and multer have run: [req.file], when there is one,
    names the temporary copy that multer has staged. *)

Module Server.
Import Path Blog.

Record upload_file := {
  file_path : path;           (* req.file.path, resolved *)
  file_size : Z;              (* req.file.size *)
  originalname : jsstring     (* req.file.originalname *)
}.

Inductive message :=
| NoFileUploaded
| FileTooLarge
| UploadFailed
| FileNotFound
| AssetFailed.

Inductive payload :=
| ErrorBody (m : message)
| UrlBody (url : jsstring)
| FileBody (content_type : jsstring) (data : bytes).

Record response := {
  status : Z;
  body : payload
}.

Definition MAX_UPLOAD : Z := 10 * 1024 * 1024.

Section WithRuntime.
Context {R : Runtime}.

Definition read_buffer (p : path) : M bytes :=
  fun w => (FS.readFileSync p (fs w), w).

Definition upload_image (postId : jsstring) (file : option upload_file)
           (now_ms : Z) (rand : jsstring) : M response :=
  try_catch
    (match file with
     | None => ret {| status := 400; body := ErrorBody NoFileUploaded |}
     | Some f =>
         if (file_size f >? MAX_UPLOAD)%Z then
           fs_ (FS.unlinkSync (file_path f)) ;;;
           ret {| status := 400; body := ErrorBody FileTooLarge |}
         else
           imageBuffer <- read_buffer (file_path f) ;;
           imageUrl <- uploadImageToPost postId imageBuffer (originalname f)
                                         now_ms rand ;;
           fs_ (FS.unlinkSync (file_path f)) ;;;
           ret {| status := 200; body := UrlBody imageUrl |}
     end)
    (match file with
     | Some f =>
         present <- fs_read (FS.existsSync (file_path f)) ;;
         when present (fs_ (FS.unlinkSync (file_path f)))
     | None => ret tt
     end ;;;
     ret {| status := 500; body := ErrorBody UploadFailed |}).

Definition mimeTypes : list (jsstring * jsstring) :=
  [ (str ".jpg", str "image/jpeg");
    (str ".jpeg", str "image/jpeg");
    (str ".png", str "image/png");
    (str ".gif", str "image/gif");
    (str ".webp", str "image/webp");
    (str ".svg", str "image/svg+xml");
    (str ".bmp", str "image/bmp") ].

Definition article_asset (postId filename : jsstring) : M response :=
  try_catch
    (imageBuffer <- getArticleAsset postId filename ;;
     match imageBuffer with
     | None => ret {| status := 404; body := ErrorBody FileNotFound |}
     | Some data =>
         let ext := toLowerCase (path_extname filename) in
         let ctype := match FS.assoc ext mimeTypes with
                      | Some t => t
                      | None => str "application/octet-stream"
                      end in
         ret {| status := 200; body := FileBody ctype data |}
     end)
    (ret {| status := 500; body := ErrorBody AssetFailed |}).

End WithRuntime.
End Server.

(** ** A concrete platform for the examples

    An executable instance of [Runtime] that agrees with the real functions
    on the inputs of the examples: ASCII text, JSON documents made of
    objects, arrays, strings, integers, booleans and null, file names
    without directory part. *)

Module Demo.

(* the lower case of the Basic Latin and of the Cyrillic capitals *)
Definition lower_char (c : char16) : char16 :=
  if Slug.in_range 65 90 c then (c + 32)%N
  else if Slug.in_range 1040 1071 c then (c + 32)%N
  else if Slug.in_range 1024 1039 c then (c + 80)%N
  else c.

Definition quote : char16 := 34%N.
Definition backslash : char16 := 92%N.

(* a JSON text written with apostrophes in place of the double quotes *)
Definition json_text (s : string) : jsstring :=
  map (fun c => if (c =? 39)%N then quote else c) (str s).

Definition is_ws (c : char16) : bool :=
  (c =? 32)%N || (c =? 10)%N || (c =? 13)%N || (c =? 9)%N.

Fixpoint skip_ws (s : jsstring) : jsstring :=
  match s with
  | c :: r => if is_ws c then skip_ws r else s
  | [] => []
  end.

Definition is_digit (c : char16) : bool := Slug.in_range 48 57 c.

Fixpoint take_digits (s : jsstring) : jsstring * jsstring :=
  match s with
  | c :: r => if is_digit c
              then let (d, rest) := take_digits r in (c :: d, rest)
              else ([], s)
  | [] => ([], [])
  end.

Definition digits_value (d : jsstring) : Z :=
  fold_left (fun acc c => (acc * 10 + Z.of_N (c - 48))%Z) d 0%Z.

(* an integer literal, an optional minus and digits without a leading
   zero, that no fraction and no exponent follows *)
Definition parse_int (s : jsstring) : option (Z * jsstring) :=
  let (neg, s1) := match s with
                   | c :: r => if (c =? 45)%N then (true, r) else (false, s)
                   | [] => (false, s)
                   end in
  let (d, rest) := take_digits s1 in
  match d with
  | [] => None
  | c :: d' =>
      if (c =? 48)%N && negb (Nat.eqb (List.length d') 0) then None
      else match rest with
           | x :: _ => if (x =? 46)%N || (x =? 101)%N || (x =? 69)%N then None
                       else Some (if neg then (- digits_value d)%Z
                                  else digits_value d, rest)
           | [] => Some (if neg then (- digits_value d)%Z
                         else digits_value d, rest)
           end
  end.

(* the characters of a string literal after its opening quote *)
Fixpoint parse_chars (s : jsstring) : option (jsstring * jsstring) :=
  match s with
  | [] => None
  | c :: r =>
      if (c =? quote)%N then Some ([], r)
      else if (c <? 32)%N then None
      else if (c =? backslash)%N then
        match r with
        | e :: r' =>
            let plain (x : char16) :=
              match parse_chars r' with
              | Some (t, rest) => Some (x :: t, rest)
              | None => None
              end in
            if (e =? quote)%N then plain quote
            else if (e =? backslash)%N then plain backslash
            else if (e =? 47)%N then plain 47%N
            else if (e =? 110)%N then plain 10%N
            else if (e =? 116)%N then plain 9%N
            else if (e =? 114)%N then plain 13%N
            else None
        | [] => None
        end
      else match parse_chars r with
           | Some (t, rest) => Some (c :: t, rest)
           | None => None
           end
  end.

Definition expect (lit : string) (v : json) (s : jsstring)
  : option (json * jsstring) :=
  let l := str lit in
  if jsstring_eqb (firstn (List.length l) s) l
  then Some (v, skipn (List.length l) s) else None.

Fixpoint parse_value (fuel : nat) (s : jsstring) : option (json * jsstring) :=
  match fuel with
  | O => None
  | S fuel' =>
      match skip_ws s with
      | [] => None
      | c :: r =>
          if (c =? quote)%N then
            match parse_chars r with
            | Some (t, rest) => Some (JStr t, rest)
            | None => None
            end
          else if (c =? 91)%N then            (* [ *)
            match skip_ws r with
            | x :: r' => if (x =? 93)%N then Some (JArr [], r')
                         else parse_elems fuel' r []
            | [] => None
            end
          else if (c =? 123)%N then           (* { *)
            match skip_ws r with
            | x :: r' => if (x =? 125)%N then Some (JObj [], r')
                         else parse_members fuel' r []
            | [] => None
            end
          else if (c =? 110)%N then expect "null" JNull (c :: r)
          else if (c =? 116)%N then expect "true" (JBool true) (c :: r)
          else if (c =? 102)%N then expect "false" (JBool false) (c :: r)
          else match parse_int (c :: r) with
               | Some (n, rest) => Some (JNum (Num.to_number n), rest)
               | None => None
               end
      end
  end
with parse_elems (fuel : nat) (s : jsstring) (acc : list json)
  : option (json * jsstring) :=
  match fuel with
  | O => None
  | S fuel' =>
      match parse_value fuel' s with
      | Some (v, rest) =>
          match skip_ws rest with
          | x :: r' =>
              if (x =? 44)%N then parse_elems fuel' r' (acc ++ [v])
              else if (x =? 93)%N then Some (JArr (acc ++ [v]), r')
              else None
          | [] => None
          end
      | None => None
      end
  end
with parse_members (fuel : nat) (s : jsstring) (acc : list (jsstring * json))
  : option (json * jsstring) :=
  match fuel with
  | O => None
  | S fuel' =>
      match skip_ws s with
      | q :: r =>
          if (q =? quote)%N then
            match parse_chars r with
            | Some (k, rest) =>
                match skip_ws rest with
                | colon :: r1 =>
                    if (colon =? 58)%N then
                      match parse_value fuel' r1 with
                      | Some (v, rest') =>
                          match skip_ws rest' with
                          | x :: r' =>
                              if (x =? 44)%N
                              then parse_members fuel' r' (FS.set_entry k v acc)
                              else if (x =? 125)%N
                              then Some (JObj (FS.set_entry k v acc), r')
                              else None
                          | [] => None
                          end
                      | None => None
                      end
                    else None
                | [] => None
                end
            | None => None
            end
          else None
      | [] => None
      end
  end.

Definition parse_json (s : jsstring) : option json :=
  match parse_value (2 * List.length s + 2) s with
  | Some (v, rest) => match skip_ws rest with
                      | [] => Some v
                      | _ :: _ => None
                      end
  | None => None
  end.

Definition escape_char (c : char16) : jsstring :=
  if (c =? quote)%N then [backslash; quote]
  else if (c =? backslash)%N then [backslash; backslash]
  else if (c =? 10)%N then [backslash; 110%N]
  else if (c =? 9)%N then [backslash; 116%N]
  else if (c =? 13)%N then [backslash; 114%N]
  else [c].

Definition quoted (s : jsstring) : jsstring :=
  [quote] ++ flat_map escape_char s ++ [quote].

Definition newline (indent : nat) : jsstring := 10%N :: repeat 32%N indent.

(* JSON.stringify(v, null, 2), [indent] being the current indentation *)
Fixpoint print_value (indent : nat) (v : json) : jsstring :=
  match v with
  | JNull => str "null"
  | JBool true => str "true"
  | JBool false => str "false"
  | JNum n => Blog.number_toString n
  | JStr s => quoted s
  | JArr [] => str "[]"
  | JArr (x :: l) =>
      str "[" ++ newline (indent + 2) ++ print_value (indent + 2) x
      ++ (fix items (l : list json) : jsstring :=
            match l with
            | [] => []
            | y :: l' => str "," ++ newline (indent + 2)
                         ++ print_value (indent + 2) y ++ items l'
            end) l
      ++ newline indent ++ str "]"
  | JObj [] => str "{}"
  | JObj ((k, x) :: l) =>
      str "{" ++ newline (indent + 2) ++ quoted k ++ str ": "
      ++ print_value (indent + 2) x
      ++ (fix members (l : list (jsstring * json)) : jsstring :=
            match l with
            | [] => []
            | (k', y) :: l' => str "," ++ newline (indent + 2)
                               ++ quoted k' ++ str ": "
                               ++ print_value (indent + 2) y ++ members l'
            end) l
      ++ newline indent ++ str "}"
  end.

(* path.extname of a name without directory part *)
Fixpoint last_dot (s : jsstring) : option jsstring :=
  match s with
  | [] => None
  | c :: r =>
      match last_dot r with
      | Some e => Some e
      | None => if (c =? Path.dot)%N then Some s else None
      end
  end.

Definition extname (name : jsstring) : jsstring :=
  match name with
  | [] => []
  | c :: r => if jsstring_eqb name [Path.dot; Path.dot] then []
              else match last_dot r with
                   | Some e => e
                   | None => []
                   end
  end.

Definition integer_text (s : jsstring) : option Z :=
  match parse_int s with
  | Some (n, []) => if ((Db.min_rowid <=? n) && (n <=? Db.max_rowid))%Z
                    then Some n else None
  | _ => None
  end.

#[export] Instance runtime : Runtime := {|
  toLowerCase := map lower_char;
  JSON_parse := parse_json;
  JSON_stringify := print_value 0;
  utf8_encode := fun s => s;
  utf8_decode := fun b => b;
  path_extname := extname;
  text_of_number := fun n => if Num.is_int32 n then Blog.toString n
                             else Blog.number_toString n ++ str ".0";
  numeric_of_text := fun s => match integer_text s with
                              | Some n => SInt n
                              | None => SText s
                              end;
  rowid_of_text := integer_text;
  late_timestamp := fun _ => str "0000-00-00 00:00:00";
  dirname := [str "srv"; str "blog"]
|}.

(** *** Example states *)

Import Blog.

Definition t0 : Clock.datetime :=
  {| Clock.year := 2024; Clock.month := 1; Clock.day := 2;
     Clock.hour := 3; Clock.minute := 4; Clock.second := 5;
     Clock.millis := 6 |}.

(* /srv/blog with an articles folder that holds [articles] *)
Definition disk (articles : list (jsstring * FS.node)) : FS.node :=
  FS.Dir [ (str "srv",
            FS.Dir [ (str "blog",
                      FS.Dir [ (str "articles", FS.Dir articles);
                               (str "uploads", FS.Dir []) ]) ]) ].

Definition empty_db : Db.database := {| Db.posts := []; Db.seq := 0 |}.

Definition empty_world : world := {| db := empty_db; fs := disk [] |}.

(* the blog after createPost("Hello World", "<p>hi</p>") *)
Definition hello_ref : post_ref :=
  {| ref_id := 1; ref_slug := str "hello-world";
     ref_path := [str "srv"; str "blog"; str "articles"; str "1"] |}.

Definition hello_world : world :=
  snd (createPost (str "Hello World") (str "<p>hi</p>") t0 t0 t0 empty_world).



Definition hello_row : Db.row :=
  {| Db.id := 1; Db.title := SText (str "Hello World");
     Db.slug := SText (str "hello-world");
     Db.created_at := SText (str "2024-01-02 03:04:05");
     Db.updated_at := SText (str "2024-01-02 03:04:05") |}.

Definition hello_fields : list (jsstring * json) :=
  [ (str "id", JNum 1);
    (str "title", JStr (str "Hello World"));
    (str "slug", JStr (str "hello-world"));
    (str "created_at", JStr (str "2024-01-02T03:04:05.006Z"));
    (str "updated_at", JStr (str "2024-01-02T03:04:05.006Z")) ].

(* the blog of [hello_world] with an upload staged by multer *)
Definition staged_path : Path.path :=
  [str "srv"; str "blog"; str "uploads"; str "3f2a9c"].

Definition staged_world : world :=
  {| db := db hello_world;
     fs := FS.Dir [ (str "srv",
              FS.Dir [ (str "blog",
                FS.Dir [ (str "articles",
                          FS.Dir [ (str "1", FS.Dir [ (str "assets", FS.Dir []) ]) ]);
                         (str "uploads",
                          FS.Dir [ (str "3f2a9c", FS.File [137; 80; 78; 71]%N) ]) ]) ]) ] |}.

Definition big_upload : Server.upload_file :=
  {| Server.file_path := staged_path;
     Server.file_size := 10485761;
     Server.originalname := str "big.png" |}.

Definition hello_snapshot : bytes :=
  json_text "{'id': 1, 'title': 'Hello World', 'slug': 'hello-world', 'created_at': '2024-01-02T03:04:05.006Z', 'updated_at': '2024-01-02T03:04:05.006Z'}".

Definition other_snapshot : bytes :=
  json_text "{'id': 2, 'title': 'Other', 'slug': 'other', 'created_at': '2024-01-03T10:00:00.000Z', 'updated_at': '2024-01-04T11:30:00.000Z'}".

Definition draft_snapshot : bytes :=
  json_text "{'id': null, 'title': 'Draft', 'slug': 'draft', 'created_at': '2024-01-05T08:00:00.000Z', 'updated_at': '2024-01-05T08:00:00.000Z'}".

Definition post_folder (snapshot : bytes) : FS.node :=
  FS.Dir [ (str "assets", FS.Dir []);
           (str "content.html", FS.File (str "<p>hi</p>"));
           (str "info.json", FS.File snapshot) ].

(* a table out of step with the folders: folders 1 and 2 with their
   snapshots, folder 3 without info.json, folder 4 with a damaged one, a
   folder whose name is not a number and a file whose name is one *)
Definition mixed_world : world :=
  {| db := db hello_world;
     fs := disk [ (str "1", post_folder hello_snapshot);
                  (str "2", post_folder other_snapshot);
                  (str "3", FS.Dir [ (str "assets", FS.Dir []) ]);
                  (str "4", post_folder (str "{oops"));
                  (str "notes", post_folder draft_snapshot);
                  (str "5", FS.File (str "stray")) ] |}.

Definition mixed_rows : list Db.row :=
  [ {| Db.id := 1; Db.title := SText (str "Hello World");
       Db.slug := SText (str "hello-world");
       Db.created_at := SText (str "2024-01-02T03:04:05.006Z");
       Db.updated_at := SText (str "2024-01-02T03:04:05.006Z") |};
    {| Db.id := 2; Db.title := SText (str "Other");
       Db.slug := SText (str "other");
       Db.created_at := SText (str "2024-01-03T10:00:00.000Z");
       Db.updated_at := SText (str "2024-01-04T11:30:00.000Z") |} ].

(* folder 2 is a copy of folder 1, info.json included *)
Definition copied_world : world :=
  {| db := empty_db;
     fs := disk [ (str "1", post_folder hello_snapshot);
                  (str "2", post_folder hello_snapshot) ] |}.

(* a snapshot whose id is null *)
Definition draft_world : world :=
  {| db := empty_db;
     fs := disk [ (str "7", post_folder draft_snapshot) ] |}.

End Demo.

(** ** Sequences of calls

    The calls of database.js that write posts, and the state after a
    sequence of them, whether they return or throw. *)

Module Calls.
Import Blog.

(* the slugs that the UNIQUE constraint compares: NULL is left out *)
Definition slugs (rows : list Db.row) : list sqlval :=
  flat_map (fun r => match Db.slug r with
                     | SNull => []
                     | v => [v]
                     end) rows.

(* what the schema promises of the posts table: the primary key and the
   slug are unique, and AUTOINCREMENT has seen every id *)
Definition consistent (d : Db.database) : Prop :=
  NoDup (map Db.id (Db.posts d)) /\
  NoDup (slugs (Db.posts d)) /\
  Forall (fun r => (Db.id r <= Db.seq d)%Z) (Db.posts d).

Inductive call :=
| Create (title content : jsstring) (sql_now now1 now2 : Clock.datetime)
| Update (id : Z) (title content : jsstring) (sql_now now : Clock.datetime)
| Delete (id : Z)
| Rebuild.

Section WithRuntime.
Context {R : Runtime}.

Definition perform (w : world) (c : call) : world :=
  match c with
  | Create title content sql_now now1 now2 =>
      snd (createPost title content sql_now now1 now2 w)
  | Update id title content sql_now now =>
      snd (updatePost id title content sql_now now w)
  | Delete id => snd (deletePost id w)
  | Rebuild => snd (rebuildDatabaseFromFiles w)
  end.

Definition perform_all (calls : list call) (w : world) : world :=
  fold_left perform calls w.

End WithRuntime.
End Calls.

(* a name without a slash *)
Definition no_slash (s : jsstring) : bool :=
  forallb (fun c => negb (c =? Path.slash)%N) s.

(** ** Subtrees *)

Module Tree.
Import Path FS.

(* the tree [n] with the node at [p], when there is one, replaced by [c] *)
Fixpoint graft (p : path) (c : node) (n : node) : node :=
  match p with
  | [] => c
  | s :: p' =>
      match n with
      | Dir es =>
          match assoc s es with
          | Some x => Dir (set_entry s (graft p' c x) es)
          | None => n
          end
      | File _ => n
      end
  end.

End Tree.

(** ** The folder of a new post *)

Module Life.
Import Blog.

Section WithRuntime.
Context {R : Runtime}.

(* what createPost puts into a folder that was not there *)
Definition created_folder (content : jsstring) (info : json) : FS.node :=
  FS.Dir [ (str "assets", FS.Dir []);
           (str "content.html", FS.File (utf8_encode content));
           (str "info.json", FS.File (utf8_encode (JSON_stringify info))) ].

(* the row that createPost inserts *)
Definition created_row (n : Z) (title : jsstring) (sql_now : Clock.datetime)
  : Db.row :=
  {| Db.id := n; Db.title := SText (Db.stored_text title);
     Db.slug := SText (Slug.createSlug title);
     Db.created_at := SText (Db.current_timestamp sql_now);
     Db.updated_at := SText (Db.current_timestamp sql_now) |}.

End WithRuntime.
End Life.

(** ** Users and sessions

    The [users] table
    [id INTEGER PRIMARY KEY AUTOINCREMENT, username TEXT UNIQUE NOT NULL,
     password_hash TEXT NOT NULL, salt TEXT NOT NULL],
    the user functions of database.js and the routes of the server that
    create the administrator and open and close a session. The fields of a
    request body are JSON values or missing, as express.json() leaves
    them. *)

(* crypto.scryptSync(password, salt, 64) on two strings *)
Class Crypto := {
  scrypt : jsstring -> jsstring -> bytes
}.

Module Auth.
Import Json.

Record user := {
  uid : Z;
  username : jsstring;
  password_hash : jsstring;
  salt : jsstring
}.

Record users_db := {
  users : list user;
  users_seq : Z
}.

(* req.session.userId *)
Definition session := option Z.

Inductive message :=
| AdminAlreadyExists
| FillAllFields
| CreationFailed
| WrongCredentials
| AuthorizationRequired.

Inductive payload :=
| Success
| Failure (m : message)
| AdminExists (b : bool)
| CurrentUser (u : option (Z * jsstring))   (* { user }, with user found or undefined *)
| NoUser.                                   (* { user: null } *)

Record response := {
  status : Z;
  body : payload
}.

(* ToBoolean *)
Definition truthy (v : jsval) : bool :=
  match v with
  | Undefined => false
  | Value JNull => false
  | Value (JBool b) => b
  | Value (JNum n) => negb (n =? 0)%Z
  | Value (JStr s) => negb (Nat.eqb (List.length s) 0)
  | Value (JArr _) => true
  | Value (JObj _) => true
  end.

(* Buffer.prototype.toString('hex') *)
Definition hex_digit (d : N) : char16 :=
  if (d <? 10)%N then (48 + d)%N else (87 + d)%N.

Definition hex (b : bytes) : jsstring :=
  flat_map (fun x => [hex_digit ((x / 16) mod 16); hex_digit (x mod 16)]) b.

(* generateSalt; [random] is what crypto.randomBytes(16) returns *)
Definition generateSalt (random : bytes) : jsstring := hex random.

Section WithRuntime.
Context {R : Runtime} {C : Crypto}.

Definition scrypt_hex (password salt : jsstring) : jsstring :=
  hex (scrypt password salt).

(* scryptSync takes a string (or a buffer, which no JSON value is) *)
Definition hashPassword (password : jsval) (salt : jsstring) : result jsstring :=
  match password with
  | Value (JStr p) => Ok (scrypt_hex p salt)
  | _ => Throw TypeError
  end.

(* the one parameter of a statement, as it is stored in, or compared with,
   a TEXT column *)
Definition text_param (v : jsval) : result sqlval :=
  let* ps := Blog.bind_args 1 [v] in
  match ps with
  | [p] => Ok (Db.text_affinity p)
  | _ => Throw RangeError
  end.

(* SELECT COUNT( * ) as count FROM users *)
Definition getUserCount (u : users_db) : Z := Z.of_nat (List.length (users u)).

(* SELECT * FROM users WHERE username = ? *)
Definition getUserByUsername (name : jsval) (u : users_db)
  : result (option user) :=
  let* p := text_param name in
  Ok (match p with
      | SText s => find (fun r => jsstring_eqb (username r) s) (users u)
      | _ => None
      end).

(* SELECT id, username FROM users WHERE id = ? *)
Definition getUserById (id : Z) (u : users_db) : option (Z * jsstring) :=
  match find (fun r => (uid r =? id)%Z) (users u) with
  | Some r => Some (uid r, username r)
  | None => None
  end.

Definition next_uid (u : users_db) : result Z :=
  let m := fold_right (fun r acc => Z.max (uid r) acc) (users_seq u) (users u) in
  if (m >=? Db.max_rowid)%Z then Throw SqliteFull else Ok (m + 1)%Z.

(* INSERT INTO users (username, password_hash, salt) VALUES (?, ?, ?):
   the rowid is taken first, then NOT NULL and UNIQUE are checked *)
Definition createUser (name : jsval) (passwordHash salt_ : jsstring)
           (u : users_db) : result (Z * users_db) :=
  let* ps := Blog.bind_args 3 [name; Value (JStr passwordHash);
                               Value (JStr salt_)] in
  match map Db.text_affinity ps with
  | [pn; ph; pt] =>
      let* n := next_uid u in
      match pn, ph, pt with
      | SText s, SText h, SText t =>
          if existsb (fun r => jsstring_eqb (username r) s) (users u)
          then Throw SqliteConstraint
          else
            Ok (n, {| users := users u ++
                         [{| uid := n; username := s;
                             password_hash := h; salt := t |}];
                      users_seq := n |})
      | _, _, _ => Throw SqliteConstraint
      end
  | _ => Throw RangeError
  end.

(* function requireAuth: does the request go on to the handler? *)
Definition authenticated (s : session) : bool :=
  match s with
  | Some id => negb (id =? 0)%Z
  | None => false
  end.

Definition requireAuth {A} (s : session) (unauthorized : A) (next : A) : A :=
  if authenticated s then next else unauthorized.

Definition unauthorized_response : response :=
  {| status := 401; body := Failure AuthorizationRequired |}.

(* GET /api/admin-exists *)
Definition admin_exists (u : users_db) : response :=
  {| status := 200; body := AdminExists (getUserCount u >? 0)%Z |}.

(* POST /api/setup-admin; [random] is what crypto.randomBytes(16) returns
   to generateSalt *)
Definition setup_admin (body_username body_password : jsval)
           (random : bytes) (u : users_db) : result response * users_db :=
  if (getUserCount u >? 0)%Z then
    (Ok {| status := 403; body := Failure AdminAlreadyExists |}, u)
  else if negb (truthy body_username) || negb (truthy body_password) then
    (Ok {| status := 400; body := Failure FillAllFields |}, u)
  else
    let new_salt := generateSalt random in
    match hashPassword body_password new_salt with
    | Throw e => (Throw e, u)
    | Ok passwordHash =>
        match createUser body_username passwordHash new_salt u with
        | Ok (_, u') => (Ok {| status := 200; body := Success |}, u')
        | Throw _ => (Ok {| status := 400; body := Failure CreationFailed |}, u)
        end
    end.

(* POST /api/login *)
Definition login (body_username body_password : jsval) (s : session)
           (u : users_db) : result response * session :=
  match getUserByUsername body_username u with
  | Throw e => (Throw e, s)
  | Ok None => (Ok {| status := 401; body := Failure WrongCredentials |}, s)
  | Ok (Some usr) =>
      match hashPassword body_password (salt usr) with
      | Throw e => (Throw e, s)
      | Ok hash =>
          if jsstring_eqb hash (password_hash usr)
          then (Ok {| status := 200; body := Success |}, Some (uid usr))
          else (Ok {| status := 401; body := Failure WrongCredentials |}, s)
      end
  end.

(* POST /api/logout *)
Definition logout (s : session) : response * session :=
  ({| status := 200; body := Success |}, None).

(* GET /api/me *)
Definition me (s : session) (u : users_db) : response :=
  match s with
  | Some id =>
      if negb (id =? 0)%Z
      then {| status := 200; body := CurrentUser (getUserById id u) |}
      else {| status := 200; body := NoUser |}
  | None => {| status := 200; body := NoUser |}
  end.

(* the table after a series of requests to /api/setup-admin *)
Definition setup_all (attempts : list (jsval * jsval * bytes))
           (u : users_db) : users_db :=
  fold_left (fun u a => snd (setup_admin (fst (fst a)) (snd (fst a)) (snd a) u))
            attempts u.

End WithRuntime.
End Auth.

(** ** The rebuild route *)

Module Admin.
Import Blog Auth.

Inductive payload :=
| Rebuilt             (* { success: true, message: ... } *)
| RebuildFailed       (* { error: ... } of the catch block *)
| Unauthorized.       (* { error: ... } of requireAuth *)

Record response := {
  status : Z;
  body : payload
}.

Section WithRuntime.
Context {R : Runtime}.

(* POST /api/rebuild-database *)
Definition rebuild_database (s : session) : M response :=
  requireAuth s
    (ret {| status := 401; body := Unauthorized |})
    (try_catch
       (rebuildDatabaseFromFiles ;;;
        ret {| status := 200; body := Rebuilt |})
       (ret {| status := 500; body := RebuildFailed |})).

End WithRuntime.
End Admin.

(** ** More example states *)

Module Cases.
Import Blog Demo Auth.

(* a stand-in for scrypt: what is proved holds for every digest function *)
#[export] Instance crypto : Crypto := {|
  scrypt := fun password salt_ =>
              map (fun c => (c mod 256)%N) (password ++ str ":" ++ salt_)
|}.

(* the blog of [hello_world] after deletePost(1) *)
Definition deleted_world : world :=
  Calls.perform_all [Calls.Delete 1] hello_world.

(* a stray file where the folder of the first post would go *)
Definition blocked_world : world :=
  {| db := empty_db; fs := disk [ (str "1", FS.File (str "stray")) ] |}.

Definition no_users : users_db := {| users := []; users_seq := 0 |}.

Definition admin : user :=
  {| uid := 1; username := str "admin";
     password_hash := scrypt_hex (str "secret") (str "ab12");
     salt := generateSalt [171; 18]%N |}.

Definition one_admin : users_db := {| users := [admin]; users_seq := 1 |}.

Definition small_upload : Server.upload_file :=
  {| Server.file_path := staged_path;
     Server.file_size := 4;
     Server.originalname := str "dot.PNG" |}.

Definition asset_name : jsstring := str "1700000000000-k3j9x0q1z.PNG".

Definition asset_url : jsstring :=
  str "/api/article-asset/1/1700000000000-k3j9x0q1z.PNG".

(* the blog of [staged_world] after uploadImageToPost has stored the bytes *)
Definition stored_world : world :=
  snd (uploadImageToPost (str "1") [137; 80; 78; 71]%N (str "dot.PNG")
         1700000000000 (str "k3j9x0q1z") staged_world).

(* the post created after post 1 has been deleted *)
Definition again_ref : post_ref :=
  {| ref_id := 2; ref_slug := str "again";
     ref_path := [str "srv"; str "blog"; str "articles"; str "2"] |}.

Definition again_world : world :=
  snd (createPost (str "Again") (str "<p>x</p>") t0 t0 t0 deleted_world).


(* the blog of [hello_world] with the articles folder gone *)
Definition lost_world : world :=
  {| db := db hello_world; fs := FS.Dir [] |}.

Definition attempts : list (Json.jsval * Json.jsval * bytes) :=
  [ (Json.Value (JStr (str "admin")), Json.Value (JStr (str "secret")),
     [171; 18]%N);
    (Json.Value (JStr (str "eve")), Json.Value (JStr (str "x")),
     [205; 52]%N) ].

End Cases.

(** * Properties *)

Lemma jsstring_eqb_eq a b : jsstring_eqb a b = true <-> a = b.
Proof.
  unfold jsstring_eqb. destruct (jsstring_eq_dec a b); split; congruence.
Qed.

Lemma jsstring_eqb_refl a : jsstring_eqb a a = true.
Proof. now apply jsstring_eqb_eq. Qed.

Lemma jsstring_eqb_neq a b : jsstring_eqb a b = false <-> a <> b.
Proof.
  unfold jsstring_eqb. destruct (jsstring_eq_dec a b); split; congruence.
Qed.


(** ** Slug derivation *)

Section SlugFacts.
Import Slug.

Lemma replace_outside_collapse s :
  (forall b, replace_from re_outside [dash] b 0 s = collapse_runs false s) /\
  replace_from re_outside [dash] false
    (run_length (fun c => negb (permitted c)) s) s = collapse_runs true s.
Proof.
  induction s as [|c r [IH0 IHrun]]; [now split|].
  assert (Hm : forall b, re_outside b (c :: r) =
            if permitted c then 0
            else S (run_length (fun c => negb (permitted c)) r)).
  { intro b. unfold re_outside. cbn [run_length]. now destruct (permitted c). }
  split; [intro b|].
  - cbn [replace_from collapse_runs]. rewrite Hm.
    destruct (permitted c); [now rewrite IH0 | cbn [app]; now rewrite IHrun].
  - specialize (Hm false). unfold re_outside in Hm. rewrite Hm.
    cbn [collapse_runs]. destruct (permitted c) eqn:Hc.
    + cbn [replace_from]. unfold re_outside at 1. cbn [run_length].
      rewrite Hc. cbn [negb]. now rewrite IH0.
    + cbn [replace_from]. exact IHrun.
Qed.

Lemma run_length_full p s :
  run_length p s = List.length s <-> forallb p s = true.
Proof.
  induction s as [|c r IH]; simpl; [tauto|].
  destruct (p c); simpl; [|split; [lia|discriminate]].
  rewrite <- IH. lia.
Qed.

Lemma replace_from_skip_all m rep k s :
  List.length s <= k -> replace_from m rep false k s = [].
Proof.
  revert k. induction s as [|c r IH]; intros k Hk; [reflexivity|].
  simpl in *. destruct k as [|k]; [lia|]. apply IH. lia.
Qed.

Lemma drop_dashes_app a b :
  drop_dashes (a ++ b) =
  if forallb is_dash a then drop_dashes b else drop_dashes a ++ b.
Proof.
  induction a as [|c r IH]; simpl; [reflexivity|].
  destruct (is_dash c); simpl; [exact IH | reflexivity].
Qed.

Lemma drop_dashes_all s : forallb is_dash s = true -> drop_dashes s = [].
Proof.
  induction s as [|c r IH]; simpl; [reflexivity|].
  destruct (is_dash c); simpl; [exact IH | discriminate].
Qed.

Lemma forallb_rev (p : char16 -> bool) s : forallb p (rev s) = forallb p s.
Proof.
  induction s as [|c r IH]; simpl; [reflexivity|].
  rewrite forallb_app, IH. simpl. rewrite andb_true_r. apply andb_comm.
Qed.

Lemma drop_trailing_all s : forallb is_dash s = true -> drop_trailing s = [].
Proof.
  intro H. unfold drop_trailing. rewrite drop_dashes_all; [reflexivity|].
  now rewrite forallb_rev.
Qed.

Lemma drop_trailing_cons c r :
  forallb is_dash (c :: r) = false ->
  drop_trailing (c :: r) = c :: drop_trailing r.
Proof.
  intro H. unfold drop_trailing. simpl rev.
  rewrite drop_dashes_app, forallb_rev.
  destruct (forallb is_dash r) eqn:Hr.
  - simpl in H. rewrite Hr, andb_true_r in H. simpl. rewrite H. simpl.
    rewrite drop_dashes_all; [reflexivity | now rewrite forallb_rev].
  - rewrite rev_app_distr. reflexivity.
Qed.

Lemma replace_edge_interior s :
  replace_from re_edge_dashes [] false 0 s = drop_trailing s.
Proof.
  induction s as [|c r IH]; [reflexivity|].
  cbn [replace_from]. unfold re_edge_dashes at 1.
  destruct (Nat.eqb (run_length is_dash (c :: r)) (List.length (c :: r))) eqn:E.
  - apply Nat.eqb_eq in E. rewrite E. cbn [List.length app].
    rewrite replace_from_skip_all by apply Nat.le_refl.
    symmetry. apply drop_trailing_all. now apply run_length_full.
  - rewrite IH. symmetry. apply drop_trailing_cons.
    apply Nat.eqb_neq in E.
    destruct (forallb is_dash (c :: r)) eqn:F; [|reflexivity].
    exfalso. apply E. now apply run_length_full.
Qed.

Lemma replace_edge_skip_run s :
  replace_from re_edge_dashes [] false (run_length is_dash s) s =
  replace_from re_edge_dashes [] false 0 (drop_dashes s).
Proof.
  induction s as [|c r IH]; [reflexivity|].
  cbn [run_length drop_dashes]. destruct (is_dash c); [exact IH | reflexivity].
Qed.

Lemma replace_edge_trim s :
  replace_global re_edge_dashes [] s = trim_dashes s.
Proof.
  unfold replace_global, trim_dashes.
  rewrite <- replace_edge_interior.
  destruct s as [|c r]; [reflexivity|].
  cbn [replace_from]. unfold re_edge_dashes at 1.
  simpl run_length. simpl drop_dashes.
  destruct (is_dash c) eqn:Hc.
  - simpl app. apply replace_edge_skip_run.
  - cbn [replace_from]. unfold re_edge_dashes at 2. simpl run_length.
    rewrite Hc. reflexivity.
Qed.

Lemma collapse_runs_chars b s : forallb slug_char (collapse_runs b s) = true.
Proof.
  revert b. induction s as [|c r IH]; intro b; simpl; [reflexivity|].
  destruct (permitted c) eqn:Hc; simpl.
  - unfold slug_char at 1. rewrite Hc. simpl. apply IH.
  - destruct b; simpl; apply IH.
Qed.

Lemma drop_dashes_chars p s :
  forallb p s = true -> forallb p (drop_dashes s) = true.
Proof.
  induction s as [|c r IH]; simpl; [reflexivity|].
  intro H. destruct (is_dash c); [|exact H].
  apply IH. apply andb_true_iff in H. tauto.
Qed.

Lemma firstn_chars (p : char16 -> bool) n s :
  forallb p s = true -> forallb p (firstn n s) = true.
Proof.
  revert n. induction s as [|c r IH]; intros [|n] H; simpl; try reflexivity.
  simpl in H. apply andb_true_iff in H. destruct H as [-> H]. now apply IH.
Qed.

Context {R : Runtime}.

(** C5. [createSlug] is a function of the title alone (and of the runtime's
    lower-casing): it is the lower-cased title in which every maximal run of
    characters outside [\w] and U+0400..U+04FF is replaced by one dash, with
    the leading and trailing dashes removed, cut to its first 100 code
    units; the slug has no character outside the permitted alphabet and the
    dash, and has at most 100 code units. *)
Theorem createSlug_spec (title : jsstring) :
  createSlug title = slug_spec toLowerCase title /\
  forallb slug_char (createSlug title) = true /\
  List.length (createSlug title) <= 100.
Proof.
  assert (E : createSlug title = slug_spec toLowerCase title).
  { unfold createSlug, slug_spec, substring, replace_global at 2.
    rewrite (proj1 (replace_outside_collapse _)), replace_edge_trim.
    reflexivity. }
  split; [exact E|]. rewrite E. unfold slug_spec, trim_dashes, drop_trailing. split.
  - apply firstn_chars. rewrite forallb_rev. apply drop_dashes_chars.
    rewrite forallb_rev. apply drop_dashes_chars. apply collapse_runs_chars.
  - apply firstn_le_length.
Qed.

End SlugFacts.

(** ** Text as SQLite holds it *)

Section TextFacts.
Import Slug.

Lemma not_surrogate c :
  Db.below_surrogates c = true ->
  Db.high_surrogate c = false /\ Db.low_surrogate c = false.
Proof.
  unfold Db.below_surrogates, Db.high_surrogate, Db.low_surrogate, in_range.
  intro H. apply N.ltb_lt in H.
  split; apply andb_false_iff; left; apply N.leb_gt; lia.
Qed.

(* a string without surrogates is stored as it is *)
Lemma stored_text_plain s :
  forallb Db.below_surrogates s = true -> Db.stored_text s = s.
Proof.
  induction s as [|c r IH]; [reflexivity|].
  intro H. cbn [forallb] in H. apply andb_true_iff in H. destruct H as [Hc Hr].
  destruct (not_surrogate c Hc) as [Hh Hl].
  cbn [Db.stored_text]. rewrite Hh, Hl. now rewrite IH.
Qed.

(* exactly the well-formed strings are stored as they are *)
Lemma stored_text_well_formed s :
  Db.stored_text s = s <-> Db.well_formed s = true.
Proof.
  remember (List.length s) as n eqn:Hn. revert s Hn.
  induction n as [n IH] using lt_wf_ind. intros s Hn.
  destruct s as [|c r]; [now split|].
  cbn [Db.stored_text Db.well_formed].
  destruct (Db.high_surrogate c) eqn:Hh.
  - destruct r as [|d r'].
    + split; [|discriminate]. intros [= E]. subst c.
      vm_compute in Hh. discriminate.
    + destruct (Db.low_surrogate d) eqn:Hl; cbn [andb].
      * rewrite <- (IH (List.length r')); [|subst n; simpl; lia|reflexivity].
        split; [now intros [= E] | now intros ->].
      * split; [|discriminate]. intros [= E _]. subst c.
        vm_compute in Hh. discriminate.
  - destruct (Db.low_surrogate c) eqn:Hl; cbn [negb andb].
    + split; [|discriminate]. intros [= E _]. subst c.
      vm_compute in Hl. discriminate.
    + rewrite <- (IH (List.length r)); [|subst n; simpl; lia|reflexivity].
      split; [now intros [= E] | now intros ->].
Qed.

Lemma forallb_impl (p q : char16 -> bool) s :
  (forall c, p c = true -> q c = true) ->
  forallb p s = true -> forallb q s = true.
Proof.
  intro Hpq. induction s as [|c r IH]; [reflexivity|]. simpl.
  intro H. apply andb_true_iff in H. destruct H as [Hc Hr].
  now rewrite (Hpq c Hc), IH.
Qed.

Lemma slug_char_below c : slug_char c = true -> Db.below_surrogates c = true.
Proof.
  unfold slug_char, permitted, word_char, is_dash, dash, in_range,
    Db.below_surrogates.
  intro H. apply N.ltb_lt.
  repeat match type of H with
         | (_ || _) = true => apply orb_true_iff in H; destruct H as [H|H]
         end;
    try (apply andb_true_iff in H; destruct H as [_ H]; apply N.leb_le in H;
         lia);
    apply N.eqb_eq in H; lia.
Qed.

Context {R : Runtime}.

Lemma createSlug_chars title : forallb slug_char (createSlug title) = true.
Proof.
  unfold createSlug, substring, replace_global at 2.
  rewrite (proj1 (replace_outside_collapse _)), replace_edge_trim.
  unfold trim_dashes, drop_trailing. rewrite Nat.sub_0_r. cbn [skipn].
  apply firstn_chars. rewrite forallb_rev. apply drop_dashes_chars.
  rewrite forallb_rev. apply drop_dashes_chars. apply collapse_runs_chars.
Qed.

(* a slug is stored as it is *)
Lemma stored_text_slug title :
  Db.stored_text (createSlug title) = createSlug title.
Proof.
  apply stored_text_plain.
  apply (forallb_impl slug_char); [exact slug_char_below|].
  apply createSlug_chars.
Qed.

End TextFacts.

(** ** The file system *)

Section FsFacts.
Import Path FS.

Lemma is_prefix_sibling p a b :
  a <> b -> is_prefix (p ++ [a]) (p ++ [b]) = false.
Proof.
  intro H. induction p as [|c p IH]; simpl.
  - apply jsstring_eqb_neq in H. now rewrite H.
  - now rewrite jsstring_eqb_refl.
Qed.

Lemma assoc_set_same {A} k (v : A) l : assoc k (set_entry k v l) = Some v.
Proof.
  induction l as [|[k' v'] l IH]; simpl.
  - now rewrite jsstring_eqb_refl.
  - destruct (jsstring_eqb k k') eqn:E; simpl.
    + now rewrite jsstring_eqb_refl.
    + now rewrite E.
Qed.

Lemma assoc_set_other {A} k k' (v : A) l :
  k <> k' -> assoc k' (set_entry k v l) = assoc k' l.
Proof.
  intro H. induction l as [|[k2 v2] l IH]; simpl.
  - assert (E : jsstring_eqb k' k = false) by (apply jsstring_eqb_neq; congruence).
    now rewrite E.
  - destruct (jsstring_eqb k k2) eqn:E; simpl.
    + apply jsstring_eqb_eq in E. subst k2.
      assert (E : jsstring_eqb k' k = false) by (apply jsstring_eqb_neq; congruence).
      now rewrite E.
    + destruct (jsstring_eqb k' k2); [reflexivity | exact IH].
Qed.

Lemma assoc_remove_same {A} k (l : list (jsstring * A)) :
  assoc k (remove_entry k l) = None.
Proof.
  induction l as [|[k' v'] l IH]; simpl; [reflexivity|].
  destruct (jsstring_eqb k k') eqn:E; simpl; [exact IH | now rewrite E].
Qed.

Lemma assoc_remove_other {A} k k' (l : list (jsstring * A)) :
  k <> k' -> assoc k' (remove_entry k l) = assoc k' l.
Proof.
  intro H. induction l as [|[k2 v2] l IH]; simpl; [reflexivity|].
  destruct (jsstring_eqb k k2) eqn:E; simpl.
  - apply jsstring_eqb_eq in E. subst k2.
    assert (E : jsstring_eqb k' k = false) by (apply jsstring_eqb_neq; congruence).
    now rewrite E.
  - destruct (jsstring_eqb k' k2); [reflexivity | exact IH].
Qed.

Lemma lookup_app p q n :
  lookup (p ++ q) n =
  match lookup p n with Some c => lookup q c | None => None end.
Proof.
  revert n. induction p as [|s p IH]; intro n; simpl; [reflexivity|].
  destruct n as [d|es]; [reflexivity|].
  destruct (assoc s es); [apply IH | reflexivity].
Qed.

Lemma writeFileSync_deep s s' p data es :
  writeFileSync (s :: s' :: p) data (Dir es) =
  match assoc s es with
  | Some c => let* c' := writeFileSync (s' :: p) data c in
              Ok (Dir (set_entry s c' es))
  | None => Throw FsError
  end.
Proof. reflexivity. Qed.

Lemma remove_at_deep s s' p es :
  remove_at (s :: s' :: p) (Dir es) =
  match assoc s es with
  | Some c => Dir (set_entry s (remove_at (s' :: p) c) es)
  | None => Dir es
  end.
Proof. reflexivity. Qed.

(* what [rmSync] leaves at the path and below it *)
Lemma lookup_remove_at p q n :
  p <> [] -> lookup (p ++ q) (remove_at p n) = None.
Proof.
  revert n. induction p as [|s p IH]; intros n Hp; [congruence|].
  destruct n as [d|es]; [reflexivity|].
  destruct p as [|s' p'].
  - simpl. now rewrite assoc_remove_same.
  - rewrite remove_at_deep. destruct (assoc s es) as [c|] eqn:E.
    + cbn [app lookup]. rewrite assoc_set_same.
      apply (IH c). discriminate.
    + cbn [app lookup]. now rewrite E.
Qed.

(* a removal adds no file *)
Lemma lookup_remove_at_file p q n d :
  lookup q (remove_at p n) = Some (File d) -> lookup q n = Some (File d).
Proof.
  revert q n. induction p as [|s p IH]; intros q n H.
  - destruct n; exact H.
  - destruct n as [d0|es]; [exact H|].
    destruct q as [|t q].
    { destruct p; [discriminate|]. rewrite remove_at_deep in H.
      destruct (assoc s es); discriminate. }
    destruct p as [|s' p'].
    + simpl in H |- *. destruct (jsstring_eq_dec s t) as [->|Hne].
      * now rewrite assoc_remove_same in H.
      * now rewrite assoc_remove_other in H.
    + rewrite remove_at_deep in H. destruct (assoc s es) as [c|] eqn:E; [|exact H].
      cbn [lookup] in H |- *. destruct (jsstring_eq_dec s t) as [->|Hne].
      * rewrite assoc_set_same in H. rewrite E. now apply IH.
      * now rewrite assoc_set_other in H.
Qed.

Lemma lookup_write_same p data n n' :
  writeFileSync p data n = Ok n' -> lookup p n' = Some (File data).
Proof.
  revert n n'. induction p as [|s p IH]; intros n n' H.
  - destruct n; discriminate.
  - destruct n as [d|es]; [discriminate|].
    destruct p as [|s' p'].
    + simpl in H. destruct (assoc s es) as [[d|es']|]; try discriminate;
        injection H as <-; simpl; now rewrite assoc_set_same.
    + rewrite writeFileSync_deep in H. destruct (assoc s es) as [c|]; [|discriminate].
      destruct (writeFileSync (s' :: p') data c) as [c'|e] eqn:E;
        cbn [bind] in H; [|discriminate].
      injection H as <-. cbn [lookup]. rewrite assoc_set_same. now apply (IH c).
Qed.

Lemma lookup_write_other p data n n' q :
  writeFileSync p data n = Ok n' -> is_prefix q p = false ->
  lookup q n' = lookup q n.
Proof.
  revert n n' q. induction p as [|s p IH]; intros n n' q H Hq.
  - destruct n; discriminate.
  - destruct n as [d|es]; [discriminate|].
    destruct q as [|t q]; [discriminate|]. simpl in Hq.
    destruct p as [|s' p'].
    + simpl in H.
      assert (Hn : n' = Dir (set_entry s (File data) es) /\
                   (forall es', assoc s es <> Some (Dir es'))).
      { destruct (assoc s es) as [[d|es']|]; try discriminate;
          injection H as <-; split; congruence. }
      destruct Hn as [-> Hnd]. cbn [lookup].
      destruct (jsstring_eq_dec s t) as [->|Hne].
      * rewrite jsstring_eqb_refl in Hq. simpl in Hq.
        rewrite assoc_set_same.
        destruct q as [|u q]; [discriminate|].
        destruct (assoc t es) as [[d|es']|]; try reflexivity.
        exfalso. now apply (Hnd es').
      * now rewrite assoc_set_other.
    + rewrite writeFileSync_deep in H. destruct (assoc s es) as [c|] eqn:E; [|discriminate].
      destruct (writeFileSync (s' :: p') data c) as [c'|e] eqn:E';
        cbn [bind] in H; [|discriminate].
      injection H as <-. cbn [lookup].
      destruct (jsstring_eq_dec s t) as [->|Hne].
      * rewrite assoc_set_same, E. apply (IH _ _ _ E').
        rewrite jsstring_eqb_refl in Hq. exact Hq.
      * now rewrite assoc_set_other.
Qed.

(* a write keeps every file a file *)
Lemma lookup_write_file p data n n' q d :
  writeFileSync p data n = Ok n' -> lookup q n = Some (File d) ->
  exists d', lookup q n' = Some (File d').
Proof.
  revert n n' q. induction p as [|s p IH]; intros n n' q H Hq.
  - destruct n; discriminate.
  - destruct n as [d0|es]; [discriminate|].
    destruct q as [|t q]; [discriminate|]. cbn [lookup] in Hq.
    destruct p as [|s' p'].
    + simpl in H.
      assert (Hn : n' = Dir (set_entry s (File data) es) /\
                   (forall es', assoc s es <> Some (Dir es'))).
      { destruct (assoc s es) as [[d1|es']|]; try discriminate;
          injection H as <-; split; congruence. }
      destruct Hn as [-> Hnd]. cbn [lookup].
      destruct (jsstring_eq_dec s t) as [->|Hne].
      * rewrite assoc_set_same.
        destruct (assoc t es) as [[d1|es']|]; try discriminate.
        destruct q; [now exists data | discriminate].
      * rewrite assoc_set_other by assumption. now exists d.
    + rewrite writeFileSync_deep in H. destruct (assoc s es) as [c|] eqn:E; [|discriminate].
      destruct (writeFileSync (s' :: p') data c) as [c'|e] eqn:E';
        cbn [bind] in H; [|discriminate].
      injection H as <-. cbn [lookup].
      destruct (jsstring_eq_dec s t) as [->|Hne].
      * rewrite assoc_set_same. rewrite E in Hq. now apply (IH _ _ _ E').
      * rewrite assoc_set_other by assumption. now exists d.
Qed.


End FsFacts.

(** ** Paths *)

Section PathFacts.
Import Path.

Lemma split_slash_plain s :
  forallb (fun c => negb (c =? slash)%N) s = true -> split_slash s = [s].
Proof.
  induction s as [|c r IH]; simpl; [reflexivity|].
  intro H. apply andb_true_iff in H. destruct H as [Hc Hr].
  apply negb_true_iff in Hc. rewrite Hc, (IH Hr). reflexivity.
Qed.

Lemma plain_split s : plain s = true -> split_slash s = [s].
Proof.
  unfold plain. intro H. apply andb_true_iff in H.
  now apply split_slash_plain.
Qed.

Lemma normalize_onto_plain acc s rest :
  plain s = true ->
  normalize_onto acc (s :: rest) = normalize_onto (s :: acc) rest.
Proof.
  unfold plain. intro H.
  repeat (apply andb_true_iff in H; destruct H as [H ?]).
  apply negb_true_iff in H, H1, H2.
  cbn [normalize_onto]. now rewrite H, H1, H2.
Qed.

Lemma normalize_onto_all_plain acc parts :
  forallb plain parts = true ->
  normalize_onto acc parts = rev acc ++ parts.
Proof.
  revert acc. induction parts as [|s parts IH]; intros acc H.
  - simpl. now rewrite app_nil_r.
  - simpl in H. apply andb_true_iff in H. destruct H as [Hs Hp].
    rewrite normalize_onto_plain, IH by assumption.
    simpl. now rewrite <- app_assoc.
Qed.

Lemma flat_map_split_plain parts :
  forallb plain parts = true -> flat_map split_slash parts = parts.
Proof.
  induction parts as [|s parts IH]; simpl; [reflexivity|].
  intro H. apply andb_true_iff in H. destruct H as [Hs Hp].
  now rewrite (plain_split _ Hs), (IH Hp).
Qed.

Lemma join_plain base parts :
  forallb plain parts = true -> join base parts = base ++ parts.
Proof.
  intro H. unfold join.
  rewrite (flat_map_split_plain _ H), normalize_onto_all_plain by assumption.
  now rewrite rev_involutive.
Qed.

Lemma digit_or_minus_plain s :
  s <> [] -> forallb digit_or_minus s = true -> plain s = true.
Proof.
  intros Hne H. unfold plain.
  assert (Hd : forall c, digit_or_minus c = true ->
                         (c =? slash)%N = false /\ (c =? dot)%N = false).
  { intros c Hc. unfold digit_or_minus, Slug.in_range, slash, dot in *.
    apply orb_true_iff in Hc. split; apply N.eqb_neq; intros ->;
      destruct Hc as [Hc|Hc]; vm_compute in Hc; discriminate. }
  destruct s as [|c r]; [congruence|]. simpl in H.
  apply andb_true_iff in H. destruct H as [Hc Hr].
  destruct (Hd c Hc) as [Hs Hdot].
  assert (E1 : jsstring_eqb (c :: r) [dot] = false).
  { apply jsstring_eqb_neq. intros [= -> _]. vm_compute in Hdot. discriminate. }
  assert (E2 : jsstring_eqb (c :: r) [dot; dot] = false).
  { apply jsstring_eqb_neq. intros [= -> _]. vm_compute in Hdot. discriminate. }
  rewrite E1, E2. cbn [jsstring_eqb negb andb].
  assert (E0 : jsstring_eqb (c :: r) [] = false) by now apply jsstring_eqb_neq.
  rewrite E0. simpl. rewrite Hs. simpl.
  clear -Hr Hd. induction r as [|x r IH]; simpl; [reflexivity|].
  simpl in Hr. apply andb_true_iff in Hr. destruct Hr as [Hx Hr].
  destruct (Hd x Hx) as [-> _]. simpl. now apply IH.
Qed.

Lemma uint_chars d :
  forallb digit_or_minus (str (NilEmpty.string_of_uint d)) = true.
Proof. induction d; simpl; try reflexivity; exact IHd. Qed.

Lemma toString_plain n : plain (Blog.toString n) = true.
Proof.
  unfold Blog.toString. apply digit_or_minus_plain.
  - destruct (Z.to_int n) as [d|d]; simpl; [|discriminate].
    destruct d; discriminate.
  - destruct (Z.to_int n) as [d|d]; simpl.
    + destruct d; try reflexivity; apply (uint_chars (_ d)).
    + destruct d; try reflexivity; apply (uint_chars (_ d)).
Qed.

End PathFacts.

(** ** Post lifecycle *)

(** ** Numbers *)

Section NumberFacts.

Lemma to_number_safe n : (Z.abs n < Num.safe)%Z -> Num.to_number n = n.
Proof.
  intro H. unfold Num.to_number. apply Z.ltb_lt in H. now rewrite H.
Qed.

Lemma shortest_safe n : (Z.abs n < Num.safe)%Z -> Num.shortest n = n.
Proof.
  intro H. unfold Num.shortest. apply Z.ltb_lt in H. now rewrite H.
Qed.

Lemma to_number_opp n : Num.to_number (- n) = (- Num.to_number n)%Z.
Proof.
  unfold Num.to_number. rewrite Z.abs_opp, Z.sgn_opp.
  destruct (Z.abs n <? Num.safe)%Z; [reflexivity|]. cbv zeta.
  now rewrite Z.mul_opp_l.
Qed.

(* rounding does not take a rowid beyond 2^53 back below it *)
Lemma to_number_ge_safe n : (Num.safe <= n)%Z -> (Num.safe <= Num.to_number n)%Z.
Proof.
  intro H. unfold Num.to_number.
  assert (Hpos : (0 < n)%Z) by (unfold Num.safe in H; lia).
  rewrite (Z.abs_eq n) by lia.
  destruct (n <? Num.safe)%Z eqn:E; [apply Z.ltb_lt in E; lia|].
  cbv zeta. rewrite (Z.sgn_pos n Hpos), Z.mul_1_l.
  set (L := Z.log2 n).
  assert (HL : (53 <= L)%Z).
  { unfold L. change 53%Z with (Z.log2 Num.safe). now apply Z.log2_le_mono. }
  destruct (Z.log2_spec n Hpos) as [Hlo _]. fold L in Hlo.
  set (e := (L - 52)%Z).
  assert (He : (0 < 2 ^ e)%Z) by (apply Z.pow_pos_nonneg; unfold e; lia).
  assert (Hsplit : (2 ^ L = 2 ^ e * 2 ^ 52)%Z).
  { rewrite <- Z.pow_add_r by (unfold e; lia). f_equal. unfold e. lia. }
  assert (Hq : (2 ^ 52 <= n / 2 ^ e)%Z).
  { apply Z.div_le_lower_bound; [exact He | lia]. }
  assert (HLs : (Num.safe <= 2 ^ L)%Z).
  { unfold Num.safe. apply Z.pow_le_mono_r; lia. }
  set (q := (n / 2 ^ e)%Z) in *.
  match goal with
  | |- (_ <= (if ?c then _ else _) * _)%Z => destruct c
  end; nia.
Qed.

(* a number below 2^53 is the rowid it was made from *)
Lemma to_number_small n :
  (Z.abs (Num.to_number n) < Num.safe)%Z -> Num.to_number n = n.
Proof.
  intro H. apply to_number_safe.
  destruct (Z.lt_ge_cases (Z.abs n) Num.safe) as [Hlt|Hge]; [exact Hlt|].
  exfalso. destruct (Z.le_ge_cases 0 n) as [Hn|Hn].
  - rewrite Z.abs_eq in Hge by lia.
    pose proof (to_number_ge_safe Hge). lia.
  - rewrite Z.abs_neq in Hge by lia.
    pose proof (to_number_ge_safe Hge) as Hb. rewrite to_number_opp in Hb. lia.
Qed.

End NumberFacts.

(** ** The two renderings of the clock *)

Section ClockFacts.
Import Clock.

Lemma last_app_nonempty {A} (l1 l2 : list A) d :
  l2 <> [] -> last (l1 ++ l2) d = last l2 d.
Proof.
  intro H. induction l1 as [|a l1 IH]; [reflexivity|].
  cbn [app]. destruct (l1 ++ l2) eqn:E.
  - apply app_eq_nil in E. destruct E. contradiction.
  - rewrite <- IH. reflexivity.
Qed.

Lemma last_forallb (p : char16 -> bool) l d :
  l <> [] -> forallb p l = true -> p (last l d) = true.
Proof.
  induction l as [|a l IH]; intros Hne H; [congruence|].
  simpl in H. apply andb_true_iff in H. destruct H as [Ha Hl].
  destruct l as [|b l]; [exact Ha|]. apply IH; [discriminate | exact Hl].
Qed.

Lemma decimal_digits n :
  decimal n <> [] /\ forallb Path.digit_or_minus (decimal n) = true.
Proof.
  unfold decimal, NilZero.string_of_uint.
  destruct (N.to_uint n) as [|d|d|d|d|d|d|d|d|d|d]; (split; [discriminate|]);
    try reflexivity; apply (uint_chars (_ d)).
Qed.

Lemma pad_last width n d : Path.digit_or_minus (last (pad width n) d) = true.
Proof.
  unfold pad. destruct (decimal_digits n) as [Hne Hd].
  rewrite last_app_nonempty by assumption. now apply last_forallb.
Qed.

(* an ISO rendering ends in Z, a CURRENT_TIMESTAMP in a digit *)
Lemma timestamp_formats_differ t t' : toISOString t <> sqlite_timestamp t'.
Proof.
  intro E. apply (f_equal (fun s => last s 0%N)) in E.
  unfold toISOString, sqlite_timestamp in E.
  rewrite !app_assoc in E.
  rewrite (last_app_nonempty _ (l2 := str "Z")) in E by discriminate.
  rewrite (last_app_nonempty _ (l2 := pad 2 (second t'))) in E.
  - pose proof (pad_last 2 (second t') 0%N) as H. rewrite <- E in H.
    discriminate.
  - unfold pad. destruct (decimal_digits (second t')) as [Hne _].
    intro H. apply app_eq_nil in H. destruct H. contradiction.
Qed.




End ClockFacts.

(* case analysis on the calls of a run, one after the other *)
Ltac run_steps E :=
  repeat match type of E with
         | context [match ?x with _ => _ end] =>
             match x with
             | context [match _ with _ => _ end] => fail 1
             | _ => destruct x eqn:?; try discriminate
             end
         end.

Section BlogFacts.
Import Path Blog.
Context {R : Runtime}.

Lemma articles_dir : ARTICLES_DIR = dirname ++ [str "articles"].
Proof. unfold ARTICLES_DIR. now rewrite join_plain. Qed.

Lemma article_path n :
  join ARTICLES_DIR [toString n] = ARTICLES_DIR ++ [toString n].
Proof.
  apply join_plain. simpl. now rewrite toString_plain.
Qed.

Lemma world_eta w : {| db := db w; fs := fs w |} = w.
Proof. now destruct w. Qed.


(** C2. When the INSERT of [createPost] fails, and in particular when the
    slug derived from the title is already the slug of a row, [createPost]
    throws and leaves the database and the file system as they were: no
    row, no folder, no content file and no info.json are created. What is
    thrown for a slug that is taken is the constraint error, or the error of
    the exhausted rowid when no rowid is left. *)
Theorem createPost_insert_failure
        (title content : jsstring) (sql_now now1 now2 : Clock.datetime)
        (w : world) :
  (forall e,
      Db.insert_post title (Slug.createSlug title) sql_now (db w) = Throw e ->
      createPost title content sql_now now1 now2 w = (Throw e, w)) /\
  ((exists r, In r (Db.posts (db w)) /\
              Db.slug r = SText (Slug.createSlug title)) ->
   createPost title content sql_now now1 now2 w =
   (Throw match Db.next_rowid (db w) with
          | Ok _ => SqliteConstraint
          | Throw e => e
          end, w)).
Proof.
  assert (G : forall e,
      Db.insert_post title (Slug.createSlug title) sql_now (db w) = Throw e ->
      createPost title content sql_now now1 now2 w = (Throw e, w)).
  { intros e H. unfold createPost, transaction, mbind, sql.
    rewrite H. now rewrite world_eta. }
  split; [exact G|].
  intros [r [Hin Hslug]]. apply G. unfold Db.insert_post.
  destruct (Db.next_rowid (db w)) as [n|e]; [|reflexivity].
  cbn [bind]. rewrite stored_text_slug.
  assert (E : existsb (fun r0 => Db.unique_clash (SText (Slug.createSlug title))
                                                 (Db.slug r0))
                      (Db.posts (db w)) = true).
  { apply existsb_exists. exists r. split; [exact Hin|].
    rewrite Hslug. simpl. apply jsstring_eqb_refl. }
  now rewrite E.
Qed.


Lemma fold_max_ge (rows : list Db.row) (s : Z) :
  (s <= fold_right (fun r acc => Z.max (Db.id r) acc) s rows)%Z /\
  forall r, In r rows ->
            (Db.id r <= fold_right (fun r acc => Z.max (Db.id r) acc) s rows)%Z.
Proof.
  induction rows as [|a rows [IHs IHr]]; simpl.
  - split; [lia | tauto].
  - split; [lia|]. intros r [->|Hin]; [lia|].
    specialize (IHr r Hin). lia.
Qed.

Lemma next_rowid_fresh d n :
  Db.next_rowid d = Ok n ->
  (Db.seq d < n)%Z /\ forall r, In r (Db.posts d) -> (Db.id r < n)%Z.
Proof.
  unfold Db.next_rowid. intro H.
  destruct (fold_max_ge (Db.posts d) (Db.seq d)) as [Hs Hr].
  destruct (_ >=? Db.max_rowid)%Z; [discriminate|]. injection H as <-.
  split; [lia|]. intros r Hin. specialize (Hr r Hin). lia.
Qed.

Lemma find_app_fresh {A} (f : A -> bool) l a :
  (forall x, In x l -> f x = false) -> f a = true ->
  find f (l ++ [a]) = Some a.
Proof.
  intros Hl Ha. induction l as [|x l IH]; simpl.
  - now rewrite Ha.
  - rewrite (Hl x (or_introl eq_refl)). apply IH.
    intros y Hy. apply Hl. now right.
Qed.

Lemma insert_post_row t s now d n d' :
  Db.insert_post t s now d = Ok (n, d') ->
  let r := {| Db.id := n; Db.title := SText (Db.stored_text t);
              Db.slug := SText (Db.stored_text s);
              Db.created_at := SText (Db.current_timestamp now);
              Db.updated_at := SText (Db.current_timestamp now) |} in
  Db.posts d' = Db.posts d ++ [r] /\ Db.select_by_id n d' = Some r.
Proof.
  unfold Db.insert_post. intro H.
  destruct (Db.next_rowid d) as [m|e] eqn:E; cbn [bind] in H; [|discriminate].
  destruct (existsb _ _); [discriminate|].
  injection H as <- <-. cbn zeta. split; [reflexivity|].
  unfold Db.select_by_id. cbn [Db.posts].
  apply find_app_fresh.
  - intros x Hx. apply Z.eqb_neq.
    destruct (next_rowid_fresh _ E) as [_ Hr]. specialize (Hr x Hx). lia.
  - cbn. apply Z.eqb_refl.
Qed.

(* the record that [createPost] serialises into info.json *)
Lemma createPost_inv title content sql_now now1 now2 w ref w' :
  createPost title content sql_now now1 now2 w = (Ok ref, w') ->
  exists n d1,
    Db.insert_post title (Slug.createSlug title) sql_now (db w)
      = Ok (n, d1) /\
    db w' = d1 /\
    ref_id ref = Num.to_number n /\
    ref_slug ref = Slug.createSlug title /\
    ref_path ref = join ARTICLES_DIR [number_toString (ref_id ref)] /\
    exists n1,
      FS.writeFileSync (join (ref_path ref) [str "info.json"])
        (utf8_encode (JSON_stringify (createPost_info (ref_id ref) title
                                        (Slug.createSlug title) now1 now2)))
        n1 = Ok (fs w').
Proof.
  unfold createPost, transaction. intro H.
  match type of H with (match ?m w with _ => _ end) = _ =>
    destruct (m w) as [[a|e] w1] eqn:E; [|discriminate] end.
  injection H as -> ->.
  unfold mbind, sql in E.
  destruct (Db.insert_post title (Slug.createSlug title) sql_now (db w))
    as [[n d1]|e] eqn:Hins; [|discriminate].
  exists n, d1.
  unfold createArticleFolder, mbind, fs_read, when, fs_, ret in E.
  cbn [fs db] in E.
  run_steps E; injection E as <- <-; cbn;
    (split; [reflexivity|]); (split; [reflexivity|]); (split; [reflexivity|]);
    (split; [reflexivity|]); (split; [reflexivity|]); eexists; eassumption.
Qed.

(** C3, as the code has it. After a successful [createPost] the table holds
    the new row, and info.json holds the serialised record. The slug of the
    record is the slug of the row. Its title is the title passed, of which
    the row holds the stored form, the same string unless the title has a
    surrogate without its partner. Its id is the rowid as a JavaScript
    number, the same integer while the rowid is below 2^53. Its created_at
    and updated_at are the ISO renderings of the JavaScript clock read
    while the record is built, where the row holds SQLite's
    CURRENT_TIMESTAMP text, which is never the same string while the year
    has four digits. *)
Theorem createPost_snapshot
        (title content : jsstring) (sql_now now1 now2 : Clock.datetime)
        (w w' : world) (ref : post_ref) :
  createPost title content sql_now now1 now2 w = (Ok ref, w') ->
  exists r,
    Db.select_by_id (Db.id r) (db w') = Some r /\
    ref_id ref = Num.to_number (Db.id r) /\
    ((Z.abs (Db.id r) < Num.safe)%Z -> ref_id ref = Db.id r) /\
    Db.title r = SText (Db.stored_text title) /\
    (Db.title r = SText title <-> Db.well_formed title = true) /\
    Db.slug r = SText (ref_slug ref) /\
    Db.created_at r = SText (Db.current_timestamp sql_now) /\
    Db.updated_at r = SText (Db.current_timestamp sql_now) /\
    FS.readFileSync (join (ref_path ref) [str "info.json"]) (fs w') =
    Ok (utf8_encode (JSON_stringify (JObj
          [ (str "id", JNum (ref_id ref));
            (str "title", JStr title);
            (str "slug", JStr (ref_slug ref));
            (str "created_at", JStr (Clock.toISOString now1));
            (str "updated_at", JStr (Clock.toISOString now2)) ]))) /\
    ((Clock.year sql_now <= 9999)%N ->
     Db.created_at r <> SText (Clock.toISOString now1) /\
     Db.updated_at r <> SText (Clock.toISOString now2)).
Proof.
  intro H. apply createPost_inv in H.
  destruct H as [n [d1 [Hins [Hdb [Hid [Hslug [Hpath [n1 Hw]]]]]]]].
  apply insert_post_row in Hins. cbn zeta in Hins. destruct Hins as [_ Hsel].
  match type of Hsel with _ = Some ?r => exists r end. rewrite Hdb.
  cbn [Db.id Db.title Db.slug Db.created_at Db.updated_at].
  split; [exact Hsel|]. split; [exact Hid|].
  split; [intro Hn; rewrite Hid; apply to_number_safe; exact Hn|].
  split; [reflexivity|].
  split.
  { rewrite <- stored_text_well_formed.
    split; [now intros [= E] | now intros ->]. }
  split; [now rewrite Hslug, stored_text_slug|].
  split; [reflexivity|]. split; [reflexivity|].
  split.
  - unfold FS.readFileSync. rewrite (lookup_write_same _ _ _ Hw).
    rewrite Hslug. reflexivity.
  - intro Hy. unfold Db.current_timestamp. apply N.leb_le in Hy. rewrite Hy.
    split; intros [= E]; symmetry in E;
      exact (timestamp_formats_differ _ _ E).
Qed.

End BlogFacts.

(** ** Reading a post *)

Section ReadFacts.
Import Path Blog.
Context {R : Runtime}.

Lemma getPostById_pure id w : snd (getPostById id w) = w.
Proof.
  unfold getPostById, mbind, query, fs_read, read_text, parse, lift, ret.
  cbn [db fs].
  repeat match goal with
         | |- context [match ?x with _ => _ end] =>
             match x with
             | context [match _ with _ => _ end] => fail 1
             | _ => destruct x eqn:?
             end
         end; reflexivity.
Qed.


End ReadFacts.

(** ** Updating a post *)

Section UpdateFacts.
Import Path Blog.
Context {R : Runtime}.







End UpdateFacts.

(** ** Uploading an image *)

Section UploadFacts.
Import Path Blog Server.
Context {R : Runtime}.

(* creating folders leaves every file as it is *)
Lemma lookup_mkdir_file p n n' q d :
  FS.mkdirSync p n = Ok n' -> FS.lookup q n = Some (FS.File d) ->
  FS.lookup q n' = Some (FS.File d).
Proof.
  revert n n' q. induction p as [|s p IH]; intros n n' q H Hq.
  - destruct n; [discriminate|]. simpl in H. now injection H as <-.
  - destruct n as [d0|es]; [discriminate|]. cbn [FS.mkdirSync] in H.
    destruct (FS.mkdirSync p match FS.assoc s es with
                             | Some c => c
                             | None => FS.Dir []
                             end) as [c'|e] eqn:E;
      cbn [bind] in H; [|discriminate].
    injection H as <-. destruct q as [|t q]; [discriminate|].
    cbn [FS.lookup] in Hq |- *.
    destruct (jsstring_eq_dec s t) as [->|Hne].
    + rewrite assoc_set_same. destruct (FS.assoc t es) as [c|]; [|discriminate].
      now apply (IH _ _ _ E).
    + now rewrite assoc_set_other.
Qed.

Lemma uploadImageToPost_keeps_files postId buf filename now_ms rand w q d :
  FS.lookup q (fs w) = Some (FS.File d) ->
  exists d',
    FS.lookup q (fs (snd (uploadImageToPost postId buf filename now_ms rand w)))
    = Some (FS.File d').
Proof.
  intro Hq. unfold uploadImageToPost, mbind, fs_read, when, fs_, ret.
  cbn beta iota delta [db fs].
  destruct (FS.existsSync _ (fs w)); cbn [negb].
  - cbn beta iota delta [db fs].
    destruct (FS.writeFileSync _ buf (fs w)) as [n2|e] eqn:E2; cbn [snd fs].
    + eapply lookup_write_file; eauto.
    + eauto.
  - destruct (FS.mkdirSync _ (fs w)) as [n1|e] eqn:E1;
      cbn beta iota delta [db fs snd]; [|eauto].
    pose proof (lookup_mkdir_file _ _ _ E1 Hq) as Hq1.
    destruct (FS.writeFileSync _ buf n1) as [n2|e] eqn:E2; cbn [snd fs].
    + eapply lookup_write_file; eauto.
    + eauto.
Qed.

Lemma unlink_file p n d :
  p <> [] -> FS.lookup p n = Some (FS.File d) ->
  FS.unlinkSync p n = Ok (FS.remove_at p n) /\
  FS.lookup p (FS.remove_at p n) = None.
Proof.
  intros Hp H. unfold FS.unlinkSync. rewrite H. split; [reflexivity|].
  rewrite <- (app_nil_r p) at 1. now apply lookup_remove_at.
Qed.

(** C8. With the temporary copy staged by multer in place, the upload
    handler always answers and always leaves the temporary copy removed:
    after the size rejection, after a stored upload and after a failure
    inside the store. An upload of more than 10 MiB is answered with the
    size-limit error, and every file present afterwards was present before
    with the same bytes: nothing is written, in the asset folder or
    elsewhere. *)
Theorem upload_image_cleans_up
        (postId : jsstring) (f : upload_file) (now_ms : Z) (rand : jsstring)
        (w : world) (data : bytes) :
  file_path f <> [] ->
  FS.lookup (file_path f) (fs w) = Some (FS.File data) ->
  exists resp w',
    upload_image postId (Some f) now_ms rand w = (Ok resp, w') /\
    FS.lookup (file_path f) (fs w') = None /\
    ((file_size f > MAX_UPLOAD)%Z ->
     resp = {| status := 400; body := ErrorBody FileTooLarge |} /\
     db w' = db w /\
     forall q d, FS.lookup q (fs w') = Some (FS.File d) ->
                 FS.lookup q (fs w) = Some (FS.File d)).
Proof.
  intros Hp Hf. unfold upload_image, try_catch.
  destruct (file_size f >? MAX_UPLOAD)%Z eqn:Hsize.
  - destruct (unlink_file _ Hp Hf) as [Hu Hgone].
    unfold mbind, fs_, ret. rewrite Hu.
    eexists. eexists. split; [reflexivity|]. cbn [db fs].
    split; [exact Hgone|]. intros _. split; [reflexivity|].
    split; [reflexivity|]. intros q d. apply lookup_remove_at_file.
  - unfold mbind at 1. unfold read_buffer at 1. unfold FS.readFileSync.
    rewrite Hf.
    destruct (uploadImageToPost_keeps_files postId data (originalname f)
                now_ms rand w _ Hf) as [d' Hkeep].
    unfold mbind at 1.
    destruct (uploadImageToPost postId data (originalname f) now_ms rand w)
      as [[url|e] w1] eqn:Eup; cbn [snd] in Hkeep.
    + destruct (unlink_file _ Hp Hkeep) as [Hu Hgone].
      unfold mbind, fs_, ret. rewrite Hu.
      eexists. eexists. split; [reflexivity|]. cbn [db fs].
      split; [exact Hgone|]. intro Hbig. rewrite Z.gtb_ltb in Hsize.
      apply Z.ltb_ge in Hsize. lia.
    + destruct (unlink_file _ Hp Hkeep) as [Hu Hgone].
      unfold mbind, fs_read, when, fs_, ret, FS.existsSync.
      rewrite Hkeep, Hu.
      eexists. eexists. split; [reflexivity|]. cbn [db fs].
      split; [exact Hgone|]. intro Hbig. rewrite Z.gtb_ltb in Hsize.
      apply Z.ltb_ge in Hsize. lia.
Qed.

End UploadFacts.

(** ** Serving an asset *)

Section AssetFacts.
Import Path Blog Server.
Context {R : Runtime}.

Lemma ends_with_slash_app a name :
  name <> [] -> ends_with_slash (a ++ name) = ends_with_slash name.
Proof.
  intro H. unfold ends_with_slash. rewrite rev_app_distr.
  destruct (rev name) as [|c r] eqn:E; [|reflexivity].
  exfalso. apply H. rewrite <- (rev_involutive name), E. reflexivity.
Qed.

Lemma plain_no_trailing_slash name :
  plain name = true -> ends_with_slash name = false.
Proof.
  unfold plain, ends_with_slash. intro H.
  apply andb_true_iff in H. destruct H as [_ H].
  destruct (rev name) as [|c r] eqn:E; [reflexivity|].
  rewrite forallb_forall in H. apply negb_true_iff, H.
  apply (proj2 (in_rev name c)). rewrite E. now left.
Qed.

Lemma plain_nonempty name : plain name = true -> name <> [].
Proof. intros H ->. discriminate. Qed.

Lemma join_parent_escape postId name :
  plain postId = true -> plain name = true ->
  join ARTICLES_DIR [postId; str "assets"; str "../" ++ name]
  = ARTICLES_DIR ++ [postId; name].
Proof.
  intros Hp Hn. unfold join.
  assert (Es : split_slash (str "../" ++ name) = [[dot; dot]; name]).
  { change (str "../" ++ name) with (dot :: dot :: slash :: name).
    cbn [split_slash]. rewrite (plain_split _ Hn). reflexivity. }
  cbn [flat_map]. rewrite (plain_split _ Hp), Es.
  change (split_slash (str "assets")) with [str "assets"].
  cbn [app]. rewrite normalize_onto_plain by assumption.
  rewrite normalize_onto_plain by reflexivity.
  change (normalize_onto (str "assets" :: postId :: rev ARTICLES_DIR)
            ([dot; dot] :: [name]))
    with (normalize_onto (postId :: rev ARTICLES_DIR) [name]).
  rewrite normalize_onto_plain by assumption.
  cbn [normalize_onto rev]. rewrite rev_involutive, <- app_assoc. reflexivity.
Qed.

(** C10. [getArticleAsset] joins the file name it is given into the path as
    it is. For a name that starts with "../" the joined path leaves the
    post's assets folder: every file that lies directly in the post's folder
    (content.html, info.json) is returned by [getArticleAsset], and served
    with status 200 by the asset route, although it was never uploaded as an
    asset. *)
Theorem getArticleAsset_traversal
        (postId name : jsstring) (data : bytes) (w : world) :
  plain postId = true -> plain name = true -> name <> str "assets" ->
  FS.lookup (ARTICLES_DIR ++ [postId; name]) (fs w) = Some (FS.File data) ->
  let filename := str "../" ++ name in
  let filePath := join ARTICLES_DIR [postId; str "assets"; filename] in
  filePath = ARTICLES_DIR ++ [postId; name] /\
  is_prefix (join ARTICLES_DIR [postId; str "assets"]) filePath = false /\
  getArticleAsset postId filename w = (Ok (Some data), w) /\
  exists ctype,
    article_asset postId filename w =
    (Ok {| status := 200; body := FileBody ctype data |}, w).
Proof.
  intros Hp Hn Hne Hf filename filePath.
  assert (E : filePath = ARTICLES_DIR ++ [postId; name])
    by now apply join_parent_escape.
  assert (G : getArticleAsset postId filename w = (Ok (Some data), w)).
  { assert (Hs : ends_with_slash filename = false).
    { unfold filename.
      rewrite ends_with_slash_app by now apply plain_nonempty.
      now apply plain_no_trailing_slash. }
    unfold getArticleAsset, mbind, fs_read, resolve, ret.
    change (join ARTICLES_DIR [postId; str "assets"; filename]) with filePath.
    rewrite Hs, E, Hf. reflexivity. }
  split; [exact E|]. split; [|split; [exact G|]].
  - rewrite E, join_plain by (simpl; now rewrite Hp).
    change (ARTICLES_DIR ++ [postId; str "assets"])
      with (ARTICLES_DIR ++ [postId] ++ [str "assets"]).
    change (ARTICLES_DIR ++ [postId; name])
      with (ARTICLES_DIR ++ [postId] ++ [name]).
    rewrite !app_assoc. apply is_prefix_sibling. congruence.
  - unfold article_asset, try_catch, mbind. rewrite G.
    eexists. reflexivity.
Qed.

End AssetFacts.

(** ** Rebuilding the table from the folders *)

Section RebuildFacts.
Import Path Blog.
Context {R : Runtime}.

Lemma restore_row_spec info w :
  snd (restore_row info w) = {| db := after_restore info (db w); fs := fs w |}.
Proof.
  unfold restore_row, after_restore, restore, mbind, lift, sql_, sql.
  destruct (restore_params info) as [ps|e]; cbn [bind snd];
    [|now rewrite world_eta].
  destruct (restore_statement ps (db w)); cbn [bind snd];
    [reflexivity | now rewrite world_eta].
Qed.

Lemma restore_folder_spec folder w :
  restore_folder folder w =
  (Ok tt, {| db := match snapshot_of (fs w) folder with
                   | Some info => after_restore info (db w)
                   | None => db w
                   end;
             fs := fs w |}).
Proof.
  unfold restore_folder, snapshot_of, mbind, fs_read, when, try_catch,
    read_text, parse, lift, ret.
  destruct (FS.existsSync _ (fs w)); [|now rewrite world_eta].
  destruct (FS.readFileSync _ (fs w)) as [b|e]; [|now rewrite world_eta].
  destruct (JSON_parse (utf8_decode b)) as [info|]; [|now rewrite world_eta].
  pose proof (restore_row_spec info w) as H.
  destruct (restore_row info w) as [[u|e] w1]; cbn [snd] in H; rewrite H;
    [destruct u|]; reflexivity.
Qed.

Lemma for_each_restore folders w :
  for_each folders restore_folder w =
  (Ok tt,
   {| db := fold_left (fun d folder => match snapshot_of (fs w) folder with
                                       | Some info => after_restore info d
                                       | None => d
                                       end) folders (db w);
      fs := fs w |}).
Proof.
  revert w. induction folders as [|f folders IH]; intro w.
  - simpl. unfold ret. now rewrite world_eta.
  - cbn [for_each]. unfold mbind. rewrite restore_folder_spec, IH.
    reflexivity.
Qed.

Lemma fold_snapshots n folders d :
  fold_left (fun d folder => match snapshot_of n folder with
                             | Some info => after_restore info d
                             | None => d
                             end) folders d =
  fold_left (fun d info => after_restore info d)
            (flat_map (fun folder => match snapshot_of n folder with
                                     | Some info => [info]
                                     | None => []
                                     end) folders) d.
Proof.
  revert d. induction folders as [|f folders IH]; intro d; [reflexivity|].
  cbn [fold_left flat_map]. rewrite fold_left_app, IH.
  destruct (snapshot_of n f); reflexivity.
Qed.

(* the rebuild on a readable articles folder: the table is emptied and the
   snapshots that parse are restored one after the other *)
Lemma rebuild_spec w entries :
  FS.readdirSync ARTICLES_DIR (fs w) = Ok entries ->
  rebuildDatabaseFromFiles w =
  (Ok tt,
   {| db := fold_left (fun d info => after_restore info d) (snapshots (fs w))
                      (Db.delete_all (db w));
      fs := fs w |}).
Proof.
  intro H. unfold rebuildDatabaseFromFiles, mbind, sql_, sql. cbn [bind fs db].
  rewrite H. rewrite for_each_restore. cbn [fs db].
  rewrite fold_snapshots. unfold snapshots, article_folders. now rewrite H.
Qed.

(* when the articles folder cannot be read the rebuild throws, the table
   already emptied *)
Lemma rebuild_unreadable w e :
  FS.readdirSync ARTICLES_DIR (fs w) = Throw e ->
  rebuildDatabaseFromFiles w =
  (Throw e, {| db := Db.delete_all (db w); fs := fs w |}).
Proof.
  intro H. unfold rebuildDatabaseFromFiles, mbind, sql_, sql. cbn [bind fs db].
  now rewrite H.
Qed.

Lemma filter_all {A} (f : A -> bool) l :
  (forall x, In x l -> f x = true) -> filter f l = l.
Proof.
  induction l as [|a l IH]; intro H; simpl; [reflexivity|].
  rewrite (H a (or_introl eq_refl)), IH; [reflexivity|].
  intros x Hx. apply H. now right.
Qed.

(* an argument that binds one value *)
Lemma bind_from_one count i named v p rest :
  bind_param v = Ok p -> i < count ->
  bind_from count i named (v :: rest) =
  let* qs := bind_from count (S i) named rest in Ok (p :: qs).
Proof.
  intros H Hi. apply Nat.ltb_lt in Hi.
  destruct v as [|[| | | | |]]; cbn [bind_from]; unfold bind_value;
    try (rewrite H; cbn [bind]; rewrite Hi; reflexivity); discriminate.
Qed.

(* the values that a snapshot binds when each of its five fields stands for
   one value *)
Lemma restore_params_fields info pid pt ps pc pu :
  snapshot_field info "id" = Ok pid ->
  snapshot_field info "title" = Ok pt ->
  snapshot_field info "slug" = Ok ps ->
  snapshot_field info "created_at" = Ok pc ->
  snapshot_field info "updated_at" = Ok pu ->
  restore_params info = Ok [pid; pt; ps; pc; pu].
Proof.
  unfold snapshot_field, restore_params. intros H1 H2 H3 H4 H5.
  destruct (Json.get_prop info (str "id")) as [v1|]; [|discriminate].
  destruct (Json.get_prop info (str "title")) as [v2|]; [|discriminate].
  destruct (Json.get_prop info (str "slug")) as [v3|]; [|discriminate].
  destruct (Json.get_prop info (str "created_at")) as [v4|]; [|discriminate].
  destruct (Json.get_prop info (str "updated_at")) as [v5|]; [|discriminate].
  cbn [bind] in *. unfold bind_args.
  rewrite (@bind_from_one 5 0 false v1 pid _ H1), (@bind_from_one 5 1 false v2 pt _ H2),
    (@bind_from_one 5 2 false v3 ps _ H3), (@bind_from_one 5 3 false v4 pc _ H4),
    (@bind_from_one 5 4 false v5 pu _ H5) by lia.
  reflexivity.
Qed.

Lemma typed_row_fields info r :
  typed_row info = Some r ->
  restore_params info =
    Ok [SInt (Db.id r); Db.title r; Db.slug r; Db.created_at r;
        Db.updated_at r] /\
  ((Db.min_rowid <? Db.id r) && (Db.id r <? Db.max_rowid))%Z = true /\
  (exists t, Db.title r = SText t) /\ (exists s, Db.slug r = SText s) /\
  snapshot_mirrors_row info r.
Proof.
  unfold typed_row, snapshot_mirrors_row. intro H.
  destruct (snapshot_field info "id") as [[|n|]|] eqn:E1; try discriminate.
  destruct (snapshot_field info "title") as [[| |t]|] eqn:E2; try discriminate.
  destruct (snapshot_field info "slug") as [[| |s]|] eqn:E3; try discriminate.
  destruct (snapshot_field info "created_at") as [[| |c]|] eqn:E4;
    try discriminate.
  destruct (snapshot_field info "updated_at") as [[| |u]|] eqn:E5;
    try discriminate.
  destruct ((Db.min_rowid <? n) && (n <? Db.max_rowid))%Z eqn:Hrange;
    [|discriminate].
  injection H as <-. cbn [Db.id Db.title Db.slug Db.created_at Db.updated_at].
  split; [exact (@restore_params_fields info _ _ _ _ _ E1 E2 E3 E4 E5)|].
  split; [exact Hrange|]. split; [now exists t|]. split; [now exists s|].
  tauto.
Qed.

Lemma after_restore_typed info r d :
  typed_row info = Some r -> restorable r ->
  (forall r', In r' (Db.posts d) ->
              Db.id r' <> Db.id r /\ Db.slug r' <> Db.slug r) ->
  Db.posts (after_restore info d) = Db.posts d ++ [r].
Proof.
  intros H [Hc Hu] Hfresh.
  destruct (@typed_row_fields info r H) as [Hp [Hrange [[t Ht] [[s Hs] _]]]].
  unfold after_restore, restore. rewrite Hp. cbn [bind restore_statement].
  unfold Db.insert_or_replace, Db.rowid_of. rewrite Hrange, Ht, Hs.
  cbn [bind Db.text_affinity Db.posts]. rewrite Hc, Hu.
  rewrite filter_all.
  - destruct r as [i ti sl c u]. cbn in Ht, Hs. subst. reflexivity.
  - intros x Hx. destruct (Hfresh x Hx) as [Hid Hslug].
    apply negb_true_iff, orb_false_iff. split.
    + now apply Z.eqb_neq.
    + cbn [Db.unique_clash Db.sqlval_eqb].
      destruct (Db.slug x) as [| |s']; try reflexivity.
      apply jsstring_eqb_neq. congruence.
Qed.

Lemma fold_restore_typed snaps rows d :
  map typed_row snaps = map Some rows ->
  Forall restorable rows ->
  NoDup (map Db.id (Db.posts d ++ rows)) ->
  NoDup (map Db.slug (Db.posts d ++ rows)) ->
  Db.posts (fold_left (fun d info => after_restore info d) snaps d)
  = Db.posts d ++ rows.
Proof.
  revert rows d. induction snaps as [|info snaps IH]; intros rows d Hm Hr Hid Hsl.
  - destruct rows; [|discriminate]. simpl. now rewrite app_nil_r.
  - destruct rows as [|r rows]; [discriminate|].
    simpl in Hm. injection Hm as Hinfo Hm.
    inversion Hr as [|? ? Hr1 Hr2]; subst.
    assert (Hstep : Db.posts (after_restore info d) = Db.posts d ++ [r]).
    { apply after_restore_typed; try assumption.
      intros r' Hin. split.
      - intro E. rewrite map_app in Hid. simpl in Hid.
        apply NoDup_remove_2 in Hid. apply Hid. apply in_or_app. left.
        rewrite <- E. now apply in_map.
      - intro E. rewrite map_app in Hsl. simpl in Hsl.
        apply NoDup_remove_2 in Hsl. apply Hsl. apply in_or_app. left.
        rewrite <- E. now apply in_map. }
    cbn [fold_left]. rewrite (IH rows); try assumption.
    + rewrite Hstep, <- app_assoc. reflexivity.
    + rewrite Hstep, <- app_assoc. exact Hid.
    + rewrite Hstep, <- app_assoc. exact Hsl.
Qed.

Lemma typed_rows_mirror snaps rows :
  map typed_row snaps = map Some rows ->
  Forall2 snapshot_mirrors_row snaps rows.
Proof.
  revert rows. induction snaps as [|info snaps IH]; intros [|r rows] H;
    try discriminate; [constructor|].
  simpl in H. injection H as Hr H. constructor.
  - now apply (@typed_row_fields info r).
  - now apply IH.
Qed.

(* a snapshot for which the binding or the statement throws is passed
   over *)
Lemma fold_restore_skip l1 info l2 d e :
  restore info (fold_left (fun d info => after_restore info d) l1 d) = Throw e ->
  fold_left (fun d info => after_restore info d) (l1 ++ info :: l2) d =
  fold_left (fun d info => after_restore info d) (l1 ++ l2) d.
Proof.
  intro H. rewrite !fold_left_app. cbn [fold_left].
  unfold after_restore at 2. now rewrite H.
Qed.

(** C1, as the code has it. On a readable articles folder the rebuild
    always completes, whatever the snapshots hold, and leaves the folders
    as they are. The table afterwards is the emptied table to which the
    snapshots that parse have been applied one after the other, in the
    order of the folders: a snapshot whose values cannot be bound, or whose
    INSERT OR REPLACE fails, leaves the table as the snapshots before it
    left it and does not keep the later ones from being applied, so that
    the table is the one that the other snapshots give. With no snapshot
    that parses the table is empty afterwards, whatever it held. When the N
    snapshots that parse carry an integer id strictly between -2^63 and
    2^63 - 1 and strings for title, slug, created_at and updated_at, with
    ids and stored slugs that differ from one snapshot to the next and
    timestamps that the DATETIME columns keep as text, the table afterwards
    holds exactly N rows, one per snapshot, with the id of the snapshot and
    its four strings in their stored form. *)
Theorem rebuild_from_snapshots (w : world) (entries : list (jsstring * bool)) :
  FS.readdirSync ARTICLES_DIR (fs w) = Ok entries ->
  let apply_all l :=
    fold_left (fun d info => after_restore info d) l (Db.delete_all (db w)) in
  exists w',
    rebuildDatabaseFromFiles w = (Ok tt, w') /\
    fs w' = fs w /\
    db w' = apply_all (snapshots (fs w)) /\
    (forall l1 info l2 e,
        snapshots (fs w) = l1 ++ info :: l2 ->
        restore info (apply_all l1) = Throw e ->
        db w' = apply_all (l1 ++ l2)) /\
    (forall info d d', restore info d = Ok d' -> after_restore info d = d') /\
    (snapshots (fs w) = [] -> Db.posts (db w') = []) /\
    (forall rows,
        map typed_row (snapshots (fs w)) = map Some rows ->
        Forall restorable rows ->
        NoDup (map Db.id rows) -> NoDup (map Db.slug rows) ->
        Db.posts (db w') = rows /\
        List.length (Db.posts (db w')) = List.length (snapshots (fs w)) /\
        Forall2 snapshot_mirrors_row (snapshots (fs w)) (Db.posts (db w'))).
Proof.
  intros H apply_all. eexists. split; [exact (rebuild_spec w H)|]. cbn [db fs].
  split; [reflexivity|]. split; [reflexivity|]. split.
  { intros l1 info l2 e Hs Hthrow. rewrite Hs. unfold apply_all.
    exact (@fold_restore_skip l1 info l2 _ e Hthrow). }
  split.
  { intros info d d' Hr. unfold after_restore. now rewrite Hr. }
  split.
  - intros ->. reflexivity.
  - intros rows Hm Hr Hid Hsl.
    assert (E : Db.posts (apply_all (snapshots (fs w))) = rows).
    { unfold apply_all.
      rewrite (fold_restore_typed _ _ Hm Hr); cbn [Db.delete_all Db.posts app];
        assumption || reflexivity. }
    fold (apply_all (snapshots (fs w))).
    rewrite E. split; [reflexivity|]. split.
    + rewrite <- (length_map typed_row), Hm, length_map. reflexivity.
    + now apply typed_rows_mirror.
Qed.

Lemma after_restore_posts_only info d1 d2 :
  (forall ps, restore_params info <> Ok (SNull :: ps)) ->
  Db.posts d1 = Db.posts d2 ->
  Db.posts (after_restore info d1) = Db.posts (after_restore info d2).
Proof.
  intros Hid H. unfold after_restore, restore.
  destruct (restore_params info) as [ps|e] eqn:Ep; cbn [bind]; [|exact H].
  destruct ps as [|pid [|pt [|ps [|pc [|pu [|x l]]]]]];
    cbn [restore_statement]; try exact H.
  unfold Db.insert_or_replace.
  destruct (Db.rowid_of pid) as [[n|]|e] eqn:Er; cbn [bind].
  - destruct (Db.text_affinity pt); cbn [bind Db.posts]; try exact H;
      now rewrite H.
  - exfalso. destruct pid as [|n|s]; [now apply (Hid [pt; ps; pc; pu])| |];
      unfold Db.rowid_of in Er.
    + destruct ((Db.min_rowid <? n) && (n <? Db.max_rowid))%Z; discriminate.
    + destruct (rowid_of_text s); discriminate.
  - exact H.
Qed.

Lemma fold_restore_posts_only snaps d1 d2 :
  (forall info, In info snaps ->
                forall ps, restore_params info <> Ok (SNull :: ps)) ->
  Db.posts d1 = Db.posts d2 ->
  Db.posts (fold_left (fun d info => after_restore info d) snaps d1) =
  Db.posts (fold_left (fun d info => after_restore info d) snaps d2).
Proof.
  revert d1 d2. induction snaps as [|info snaps IH]; intros d1 d2 Hid H;
    [exact H|].
  cbn [fold_left]. apply IH.
  - intros i Hi. apply Hid. now right.
  - apply after_restore_posts_only; [|exact H]. apply Hid. now left.
Qed.

Lemma rebuild_world w :
  snd (rebuildDatabaseFromFiles w) =
  {| db := match FS.readdirSync ARTICLES_DIR (fs w) with
           | Ok _ => fold_left (fun d info => after_restore info d)
                               (snapshots (fs w)) (Db.delete_all (db w))
           | Throw _ => Db.delete_all (db w)
           end;
     fs := fs w |}.
Proof.
  destruct (FS.readdirSync ARTICLES_DIR (fs w)) as [entries|e] eqn:E.
  - now rewrite (rebuild_spec w E).
  - now rewrite (rebuild_unreadable w E).
Qed.

(* a snapshot whose id is a number or a string binds it first *)
Lemma restore_params_id info v :
  Json.get_prop info (str "id") = Ok (Json.Value v) ->
  (exists n, v = JNum n) \/ (exists s, v = JStr s) ->
  forall ps, restore_params info <> Ok (SNull :: ps).
Proof.
  intros Hv Hkind ps. unfold restore_params. rewrite Hv. cbn [bind].
  destruct (Json.get_prop info (str "title")); cbn [bind]; [|discriminate].
  destruct (Json.get_prop info (str "slug")); cbn [bind]; [|discriminate].
  destruct (Json.get_prop info (str "created_at")); cbn [bind];
    [|discriminate].
  destruct (Json.get_prop info (str "updated_at")); cbn [bind];
    [|discriminate].
  unfold bind_args.
  destruct Hkind as [[n ->]|[s ->]].
  - rewrite (@bind_from_one 5 0 false (Json.Value (JNum n)) (SInt n) _ eq_refl)
      by lia.
    destruct (bind_from 5 1 false _); cbn [bind]; [|discriminate].
    destruct (Nat.eqb _ _); discriminate.
  - rewrite (@bind_from_one 5 0 false (Json.Value (JStr s))
               (SText (Db.stored_text s)) _ eq_refl) by lia.
    destruct (bind_from 5 1 false _); cbn [bind]; [|discriminate].
    destruct (Nat.eqb _ _); discriminate.
Qed.

(** C4, as the code has it. When no snapshot that parses binds NULL as the
    first of its five values, which is so for every snapshot whose id is a
    number or a string, a second rebuild over the same folders leaves the
    posts table as the first one left it. *)
Theorem rebuild_twice (w : world) :
  (forall info, In info (snapshots (fs w)) ->
                forall ps, restore_params info <> Ok (SNull :: ps)) ->
  let w1 := snd (rebuildDatabaseFromFiles w) in
  let w2 := snd (rebuildDatabaseFromFiles w1) in
  (Db.posts (db w2) = Db.posts (db w1) /\ fs w2 = fs w1) /\
  (forall info v,
      Json.get_prop info (str "id") = Ok (Json.Value v) ->
      (exists n, v = JNum n) \/ (exists s, v = JStr s) ->
      forall ps, restore_params info <> Ok (SNull :: ps)).
Proof.
  intros Hid w1 w2. split; [|exact restore_params_id].
  unfold w2. rewrite (rebuild_world w1). cbn [db fs].
  split; [|reflexivity].
  unfold w1. rewrite (rebuild_world w). cbn [db fs].
  destruct (FS.readdirSync ARTICLES_DIR (fs w)); [|reflexivity].
  apply fold_restore_posts_only; [exact Hid | reflexivity].
Qed.

End RebuildFacts.

(** ** Examples on the concrete platform *)

Section Examples.
Import Path Blog Demo.

Example createSlug_hello :
  Slug.createSlug (str "Hello World") = str "hello-world".
Proof. reflexivity. Qed.

Example createPost_hello :
  createPost (str "Hello World") (str "<p>hi</p>") t0 t0 t0 empty_world
  = (Ok hello_ref, hello_world).
Proof. vm_compute. reflexivity. Qed.

Lemma createPost_insert_failure_witness :
  createPost (str "hello, world!") (str "<p>again</p>") t0 t0 t0 hello_world
  = (Throw SqliteConstraint, hello_world).
Proof.
  apply (proj2 (createPost_insert_failure (str "hello, world!")
                  (str "<p>again</p>") t0 t0 t0 hello_world)).
  exists {| Db.id := 1; Db.title := SText (str "Hello World");
            Db.slug := SText (str "hello-world");
            Db.created_at := SText (str "2024-01-02 03:04:05");
            Db.updated_at := SText (str "2024-01-02 03:04:05") |}.
  split; [left; vm_compute; reflexivity | vm_compute; reflexivity].
Defined.

Lemma createPost_snapshot_witness :
  exists r,
    Db.select_by_id (Db.id r) (db hello_world) = Some r /\
    ref_id hello_ref = Num.to_number (Db.id r) /\
    ((Z.abs (Db.id r) < Num.safe)%Z -> ref_id hello_ref = Db.id r) /\
    Db.title r = SText (Db.stored_text (str "Hello World")) /\
    (Db.title r = SText (str "Hello World") <->
     Db.well_formed (str "Hello World") = true) /\
    Db.slug r = SText (ref_slug hello_ref) /\
    Db.created_at r = SText (Db.current_timestamp t0) /\
    Db.updated_at r = SText (Db.current_timestamp t0) /\
    FS.readFileSync (join (ref_path hello_ref) [str "info.json"]) (fs hello_world) =
    Ok (utf8_encode (JSON_stringify (JObj
          [ (str "id", JNum (ref_id hello_ref));
            (str "title", JStr (str "Hello World"));
            (str "slug", JStr (ref_slug hello_ref));
            (str "created_at", JStr (Clock.toISOString t0));
            (str "updated_at", JStr (Clock.toISOString t0)) ]))) /\
    ((Clock.year t0 <= 9999)%N ->
     Db.created_at r <> SText (Clock.toISOString t0) /\
     Db.updated_at r <> SText (Clock.toISOString t0)).
Proof.
  apply (createPost_snapshot (str "Hello World") (str "<p>hi</p>") t0 t0 t0
           empty_world (w' := hello_world) (ref := hello_ref)).
  vm_compute. reflexivity.
Defined.

(** C3 as stated fails: after createPost("Hello World", "<p>hi</p>") at
    2024-01-02 03:04:05.006 UTC the row holds created_at
    "2024-01-02 03:04:05" and info.json holds "2024-01-02T03:04:05.006Z". *)
Lemma createPost_snapshot_not_mirror :
  exists ref w' r text info,
    createPost (str "Hello World") (str "<p>hi</p>") t0 t0 t0 empty_world
      = (Ok ref, w') /\
    Db.select_by_id (ref_id ref) (db w') = Some r /\
    read_text (join (ref_path ref) [str "info.json"]) w' = (Ok text, w') /\
    JSON_parse text = Some info /\
    Db.created_at r = SText (str "2024-01-02 03:04:05") /\
    snapshot_field info "created_at" = Ok (SText (str "2024-01-02T03:04:05.006Z")) /\
    ~ snapshot_mirrors_row info r.
Proof.
  eexists; eexists; eexists; eexists; eexists.
  split; [vm_compute; reflexivity|].
  split; [vm_compute; reflexivity|].
  split; [vm_compute; reflexivity|].
  split; [vm_compute; reflexivity|].
  split; [vm_compute; reflexivity|].
  split; [vm_compute; reflexivity|].
  intros [_ [_ [_ [H _]]]]. vm_compute in H. discriminate.
Qed.





Lemma upload_image_cleans_up_witness :
  exists resp w',
    Server.upload_image (str "1") (Some big_upload) 1700000000000
                        (str "k3j9x0q1z") staged_world = (Ok resp, w') /\
    FS.lookup staged_path (fs w') = None /\
    ((Server.file_size big_upload > Server.MAX_UPLOAD)%Z ->
     resp = {| Server.status := 400;
               Server.body := Server.ErrorBody Server.FileTooLarge |} /\
     db w' = db staged_world /\
     forall q d, FS.lookup q (fs w') = Some (FS.File d) ->
                 FS.lookup q (fs staged_world) = Some (FS.File d)).
Proof.
  apply (@upload_image_cleans_up runtime (str "1") big_upload 1700000000000
           (str "k3j9x0q1z") staged_world [137; 80; 78; 71]%N).
  - discriminate.
  - vm_compute. reflexivity.
Defined.

Example upload_small_image :
  fst (Server.upload_image (str "1")
         (Some {| Server.file_path := staged_path; Server.file_size := 4;
                  Server.originalname := str "dot.PNG" |})
         1700000000000 (str "k3j9x0q1z") staged_world)
  = Ok {| Server.status := 200;
          Server.body := Server.UrlBody
            (str "/api/article-asset/1/1700000000000-k3j9x0q1z.PNG") |}.
Proof. vm_compute. reflexivity. Qed.

Lemma getArticleAsset_traversal_witness :
  let filename := str "../info.json" in
  let filePath := join ARTICLES_DIR [str "1"; str "assets"; filename] in
  filePath = ARTICLES_DIR ++ [str "1"; str "info.json"] /\
  is_prefix (join ARTICLES_DIR [str "1"; str "assets"]) filePath = false /\
  getArticleAsset (str "1") filename hello_world
  = (Ok (Some (JSON_stringify (JObj hello_fields))), hello_world) /\
  exists ctype,
    Server.article_asset (str "1") filename hello_world =
    (Ok {| Server.status := 200;
           Server.body := Server.FileBody ctype
                            (JSON_stringify (JObj hello_fields)) |},
     hello_world).
Proof.
  apply (@getArticleAsset_traversal runtime (str "1") (str "info.json")
           (JSON_stringify (JObj hello_fields)) hello_world).
  - reflexivity.
  - reflexivity.
  - discriminate.
  - vm_compute. reflexivity.
Defined.

Example rebuild_mixed :
  snapshots (fs mixed_world) =
  [ JObj hello_fields;
    JObj [ (str "id", JNum 2); (str "title", JStr (str "Other"));
           (str "slug", JStr (str "other"));
           (str "created_at", JStr (str "2024-01-03T10:00:00.000Z"));
           (str "updated_at", JStr (str "2024-01-04T11:30:00.000Z")) ] ].
Proof. vm_compute. reflexivity. Qed.

Lemma rebuild_from_snapshots_witness :
  exists w',
    rebuildDatabaseFromFiles mixed_world = (Ok tt, w') /\
    fs w' = fs mixed_world /\
    Db.posts (db w') = mixed_rows /\
    List.length (Db.posts (db w')) = List.length (snapshots (fs mixed_world)) /\
    Forall2 snapshot_mirrors_row (snapshots (fs mixed_world)) (Db.posts (db w')).
Proof.
  destruct (@rebuild_from_snapshots runtime mixed_world
              [ (str "1", true); (str "2", true); (str "3", true);
                (str "4", true); (str "notes", true); (str "5", false) ])
    as [w' [Hrun [Hfs [_ [_ [_ [_ Hrows]]]]]]].
  - vm_compute. reflexivity.
  - exists w'. split; [exact Hrun|]. split; [exact Hfs|].
    apply (Hrows mixed_rows).
    + vm_compute. reflexivity.
    + repeat constructor.
    + repeat constructor; simpl; intuition discriminate.
    + repeat constructor; simpl; intuition discriminate.
Defined.

(** C1 as stated fails: folders 1 and 2 both hold a snapshot that parses
    (N = 2, M = 0), both snapshots carry the id 1, and the rebuilt table
    has one row. *)
Lemma rebuild_copied_folder :
  article_folders (fs copied_world) = [str "1"; str "2"] /\
  List.length (snapshots (fs copied_world)) = 2 /\
  exists w',
    rebuildDatabaseFromFiles copied_world = (Ok tt, w') /\
    List.length (Db.posts (db w')) = 1.
Proof.
  split; [vm_compute; reflexivity|].
  split; [vm_compute; reflexivity|].
  eexists. split; [vm_compute; reflexivity | vm_compute; reflexivity].
Qed.

Lemma rebuild_twice_witness :
  let w1 := snd (rebuildDatabaseFromFiles mixed_world) in
  let w2 := snd (rebuildDatabaseFromFiles w1) in
  Db.posts (db w2) = Db.posts (db w1) /\ fs w2 = fs w1.
Proof.
  apply (@rebuild_twice runtime mixed_world).
  intros info Hin ps. rewrite rebuild_mixed in Hin.
  destruct Hin as [<-|[<-|[]]]; vm_compute; discriminate.
Defined.

(** C4 as stated fails: the snapshot of folder 7 has a null id, so SQLite
    numbers the row itself; AUTOINCREMENT never gives a rowid twice, and the
    row that the first rebuild numbers 1 is numbered 2 by the second. *)
Lemma rebuild_twice_null_id :
  let w1 := snd (rebuildDatabaseFromFiles draft_world) in
  let w2 := snd (rebuildDatabaseFromFiles w1) in
  fs w1 = fs draft_world /\ fs w2 = fs draft_world /\
  map Db.id (Db.posts (db w1)) = [1%Z] /\
  map Db.id (Db.posts (db w2)) = [2%Z] /\
  Db.posts (db w2) <> Db.posts (db w1).
Proof.
  cbn zeta.
  split; [vm_compute; reflexivity|].
  split; [vm_compute; reflexivity|].
  split; [vm_compute; reflexivity|].
  split; [vm_compute; reflexivity|].
  vm_compute. discriminate.
Qed.

End Examples.

(** * Further properties of the code *)

(** ** Shape of a slug *)

Section SlugShape.
Import Slug.
Context {R : Runtime}.

Lemma dash_not_permitted : permitted dash = false.
Proof. reflexivity. Qed.

Lemma permitted_not_dash c : permitted c = true -> is_dash c = false.
Proof.
  intro H. unfold is_dash. apply N.eqb_neq. intros ->.
  rewrite dash_not_permitted in H. discriminate.
Qed.

Lemma is_dash_eq c : is_dash c = true <-> c = dash.
Proof. unfold is_dash. apply N.eqb_eq. Qed.

(* inside a run the output does not start with a dash; nowhere two dashes
   follow each other *)
Lemma collapse_runs_shape b s :
  (b = true -> forall r, collapse_runs b s <> dash :: r) /\
  (forall x y, collapse_runs b s <> x ++ dash :: dash :: y).
Proof.
  revert b. induction s as [|c s IH]; intro b.
  - split; [discriminate|]. intros x y H. now destruct x.
  - cbn [collapse_runs]. destruct (permitted c) eqn:Hc.
    + destruct (IH false) as [_ IH2]. split.
      * intros _ r [= -> _]. rewrite dash_not_permitted in Hc. discriminate.
      * intros [|a x] y H.
        -- injection H as -> _. rewrite dash_not_permitted in Hc. discriminate.
        -- injection H as _ H. now apply (IH2 x y).
    + destruct (IH true) as [IH1 IH2]. destruct b.
      * split; [intros _; now apply IH1 | exact IH2].
      * split; [discriminate|]. intros [|a x] y H.
        -- injection H as H. now apply (IH1 eq_refl y).
        -- injection H as _ H. now apply (IH2 x y).
Qed.

Lemma drop_dashes_suffix s : exists x, s = x ++ drop_dashes s.
Proof.
  induction s as [|c s [x IH]]; [now exists []|]. simpl.
  destruct (is_dash c); [|now exists []].
  exists (c :: x). simpl. now f_equal.
Qed.

Lemma drop_dashes_head s r : drop_dashes s <> dash :: r.
Proof.
  induction s as [|c s IH]; simpl; [discriminate|].
  destruct (is_dash c) eqn:E; [exact IH|].
  intros [= -> _]. discriminate.
Qed.

Lemma drop_trailing_prefix s : exists y, s = drop_trailing s ++ y.
Proof.
  unfold drop_trailing. destruct (drop_dashes_suffix (rev s)) as [x H].
  exists (rev x). rewrite <- rev_app_distr, <- H. now rewrite rev_involutive.
Qed.

Lemma drop_trailing_last s x : drop_trailing s <> x ++ [dash].
Proof.
  unfold drop_trailing. intro H.
  apply (f_equal (@rev _)) in H. rewrite rev_involutive, rev_app_distr in H.
  simpl in H. now apply drop_dashes_head in H.
Qed.

Lemma firstn_prefix {A} n (s : list A) : exists y, s = firstn n s ++ y.
Proof. exists (skipn n s). now rewrite firstn_skipn. Qed.

Lemma createSlug_pipeline title :
  createSlug title = slug_spec toLowerCase title.
Proof.
  unfold createSlug, slug_spec, substring, replace_global at 2.
  rewrite (proj1 (replace_outside_collapse _)), replace_edge_trim.
  reflexivity.
Qed.

(* the slug is a piece of the collapsed title *)
Lemma createSlug_infix title :
  exists x y,
    collapse_runs false (toLowerCase title) = x ++ createSlug title ++ y /\
    drop_dashes (collapse_runs false (toLowerCase title))
    = createSlug title ++ y.
Proof.
  rewrite (createSlug_pipeline title). unfold slug_spec, trim_dashes.
  set (c := collapse_runs false (toLowerCase title)).
  destruct (drop_dashes_suffix c) as [x Hx].
  destruct (drop_trailing_prefix (drop_dashes c)) as [y Hy].
  destruct (firstn_prefix 100 (drop_trailing (drop_dashes c))) as [z Hz].
  exists x, (z ++ y). split.
  - rewrite Hx at 1. f_equal. rewrite Hy at 1. rewrite Hz at 1.
    now rewrite <- app_assoc.
  - rewrite Hy at 1. rewrite Hz at 1. now rewrite <- app_assoc.
Qed.

(** X1. A slug never starts with a dash and never holds two dashes in a
    row; a slug shorter than 100 code units does not end with a dash
    either (the cut at 100 is made after the trimming, so a slug of exactly
    100 code units may end with one). *)
Theorem createSlug_shape (title : jsstring) :
  (forall r, createSlug title <> dash :: r) /\
  (forall x y, createSlug title <> x ++ dash :: dash :: y) /\
  (List.length (createSlug title) < 100 ->
   forall x, createSlug title <> x ++ [dash]).
Proof.
  destruct (createSlug_infix title) as [x [y [Hc Hd]]].
  split; [|split].
  - intros r H. rewrite H in Hd. simpl in Hd.
    now apply drop_dashes_head in Hd.
  - intros a b H. rewrite H in Hc.
    destruct (collapse_runs_shape false (toLowerCase title)) as [_ Hs].
    apply (Hs (x ++ a) (b ++ y)). rewrite Hc.
    rewrite <- !app_assoc. reflexivity.
  - rewrite (createSlug_pipeline title). unfold slug_spec, trim_dashes.
    intros Hlen a H.
    set (t := drop_trailing (drop_dashes (collapse_runs false (toLowerCase title)))) in *.
    assert (Ht : firstn 100 t = t).
    { apply firstn_all2. rewrite length_firstn in Hlen. lia. }
    rewrite Ht in H. now apply drop_trailing_last in H.
Qed.

Lemma collapse_runs_none b s :
  forallb (fun c => negb (permitted c)) s = true ->
  forallb is_dash (collapse_runs b s) = true.
Proof.
  revert b. induction s as [|c s IH]; intros b H; [reflexivity|].
  simpl in H. apply andb_true_iff in H. destruct H as [Hc Hs].
  apply negb_true_iff in Hc. cbn [collapse_runs]. rewrite Hc.
  destruct b; [now apply IH|]. simpl. now apply IH.
Qed.

Lemma collapse_runs_some b s :
  forallb (fun c => negb (permitted c)) s = false ->
  forallb is_dash (collapse_runs b s) = false.
Proof.
  revert b. induction s as [|c s IH]; intros b H; [discriminate|].
  simpl in H. cbn [collapse_runs]. destruct (permitted c) eqn:Hc.
  - simpl. now rewrite (permitted_not_dash _ Hc).
  - simpl in H. destruct b; [now apply IH|].
    simpl. now apply IH.
Qed.

Lemma drop_dashes_nil s : drop_dashes s = [] <-> forallb is_dash s = true.
Proof.
  induction s as [|c s IH]; simpl; [tauto|].
  destruct (is_dash c); simpl; [exact IH|]. split; discriminate.
Qed.

Lemma forallb_drop_dashes s :
  forallb is_dash (drop_dashes s) = forallb is_dash s.
Proof.
  induction s as [|c s IH]; simpl; [reflexivity|].
  destruct (is_dash c) eqn:E; simpl; [exact IH | now rewrite E].
Qed.

(** X2. The slug is empty exactly when the lower-cased title has no
    character of the permitted alphabet (an empty title, or punctuation and
    spaces only). *)
Theorem createSlug_empty (title : jsstring) :
  createSlug title = [] <->
  forallb (fun c => negb (permitted c)) (toLowerCase title) = true.
Proof.
  rewrite (createSlug_pipeline title). unfold slug_spec, trim_dashes.
  set (c := collapse_runs false (toLowerCase title)).
  assert (E : firstn 100 (drop_trailing (drop_dashes c)) = [] <->
              forallb is_dash c = true).
  { unfold drop_trailing. split.
    - intro H. destruct (rev (drop_dashes (rev (drop_dashes c)))) eqn:Er;
        [|discriminate].
      apply (f_equal (@rev _)) in Er. rewrite rev_involutive in Er. simpl in Er.
      apply drop_dashes_nil in Er.
      rewrite forallb_rev, forallb_drop_dashes in Er. exact Er.
    - intro H. rewrite (proj2 (drop_dashes_nil c) H). reflexivity. }
  rewrite E. unfold c. split; intro H.
  - destruct (forallb (fun c0 => negb (permitted c0)) (toLowerCase title)) eqn:F;
      [reflexivity|].
    rewrite (collapse_runs_some false _ F) in H. discriminate.
  - now apply collapse_runs_none.
Qed.

End SlugShape.

(** ** What the table keeps through every call *)

Section TableInvariant.
Import Path Blog Calls.
Context {R : Runtime}.

Lemma NoDup_snoc {A} (l : list A) a : NoDup l -> ~ In a l -> NoDup (l ++ [a]).
Proof.
  intros Hl Ha. induction l as [|b l IH]; simpl.
  - constructor; [tauto | constructor].
  - inversion Hl as [|? ? Hb Hl']; subst. constructor.
    + intro H. apply in_app_or in H. destruct H as [H|[H|[]]]; [tauto|].
      subst. apply Ha. now left.
    + apply IH; [assumption|]. intro H. apply Ha. now right.
Qed.

Lemma in_slugs v rows :
  In v (slugs rows) <-> exists r, In r rows /\ Db.slug r = v /\ v <> SNull.
Proof.
  unfold slugs. rewrite in_flat_map. split.
  - intros [r [Hr Hv]]. exists r. split; [exact Hr|].
    destruct (Db.slug r); simpl in Hv; try tauto;
      destruct Hv as [<-|[]]; split; congruence.
  - intros [r [Hr [Hs Hn]]]. exists r. split; [exact Hr|].
    rewrite Hs. destruct v; [congruence | now left | now left].
Qed.

Lemma slugs_app a b : slugs (a ++ b) = slugs a ++ slugs b.
Proof. unfold slugs. apply flat_map_app. Qed.

Lemma unique_clash_false v r :
  v <> SNull -> Db.unique_clash v (Db.slug r) = false -> Db.slug r <> v.
Proof.
  intros Hn H E. rewrite E in H. destruct v as [|n|s]; simpl in H.
  - congruence.
  - rewrite Z.eqb_refl in H. discriminate.
  - rewrite jsstring_eqb_refl in H. discriminate.
Qed.

Lemma NoDup_filter {A} (f : A -> bool) l : NoDup l -> NoDup (filter f l).
Proof.
  induction 1 as [|a l Ha Hl IH]; simpl; [constructor|].
  destruct (f a); [|exact IH]. constructor; [|exact IH].
  intro H. apply filter_In in H. tauto.
Qed.

Lemma ids_filter (f : Db.row -> bool) rows :
  NoDup (map Db.id rows) -> NoDup (map Db.id (filter f rows)).
Proof.
  induction rows as [|a l IH]; simpl; intro H; [constructor|].
  inversion H as [|? ? Ha Hl]; subst.
  destruct (f a); [|now apply IH]. simpl. constructor; [|now apply IH].
  intro Hin. apply Ha. apply in_map_iff in Hin. destruct Hin as [x [Hx Hin]].
  apply filter_In in Hin. apply in_map_iff. exists x. tauto.
Qed.

Lemma slugs_cons a l :
  slugs (a :: l) = match Db.slug a with
                   | SNull => slugs l
                   | v => v :: slugs l
                   end.
Proof. unfold slugs. simpl. now destruct (Db.slug a). Qed.

Lemma slugs_filter (f : Db.row -> bool) rows :
  NoDup (slugs rows) -> NoDup (slugs (filter f rows)).
Proof.
  induction rows as [|a l IH]; intro H; [constructor|].
  rewrite slugs_cons in H. cbn [filter].
  assert (Hl : NoDup (slugs l)).
  { destruct (Db.slug a); [exact H | |]; now inversion H. }
  destruct (f a); [|now apply IH]. rewrite slugs_cons.
  destruct (Db.slug a) eqn:Ea; [now apply IH | |];
    (inversion H as [|? ? Hn _]; subst; constructor; [|now apply IH];
     intro Hin; apply Hn; apply in_slugs in Hin; apply in_slugs;
     destruct Hin as [r [Hr Hs]]; apply filter_In in Hr; exists r; tauto).
Qed.

Lemma consistent_insert_post t s now d n d' :
  Db.insert_post t s now d = Ok (n, d') -> consistent d -> consistent d'.
Proof.
  unfold Db.insert_post. intros H [Hid [Hsl Hseq]].
  destruct (Db.next_rowid d) as [m|e] eqn:E; cbn [bind] in H; [|discriminate].
  destruct (existsb _ _) eqn:Ex; [discriminate|].
  injection H as <- <-. destruct (next_rowid_fresh _ E) as [Hs Hr].
  unfold consistent. cbn [Db.posts Db.seq]. split; [|split].
  - rewrite map_app. apply NoDup_snoc; [exact Hid|]. simpl.
    intro Hin. apply in_map_iff in Hin. destruct Hin as [r [Hr1 Hr2]].
    specialize (Hr r Hr2). lia.
  - rewrite slugs_app. apply NoDup_snoc; [exact Hsl|].
    intro Hin. apply in_slugs in Hin. destruct Hin as [r [Hr1 [Hr2 _]]].
    revert Hr2. apply unique_clash_false; [discriminate|].
    rewrite <- not_true_iff_false in Ex. apply not_true_is_false.
    intro Hc. apply Ex. apply existsb_exists. now exists r.
  - apply Forall_app. split.
    + apply Forall_forall. intros r Hin. specialize (Hr r Hin). lia.
    + constructor; [simpl; lia | constructor].
Qed.

Lemma consistent_delete_post n d : consistent d -> consistent (Db.delete_post n d).
Proof.
  intros [Hid [Hsl Hseq]]. unfold consistent, Db.delete_post.
  cbn [Db.posts Db.seq]. split; [|split].
  - now apply ids_filter.
  - now apply slugs_filter.
  - apply Forall_forall. intros r Hin. apply filter_In in Hin.
    rewrite Forall_forall in Hseq. now apply Hseq.
Qed.

Lemma consistent_delete_all d : consistent (Db.delete_all d).
Proof. repeat split; constructor. Qed.

Lemma map_update_absent (g : Db.row -> Db.row) n rows :
  (forall r, Db.id r <> n -> g r = r) ->
  (forall r, In r rows -> Db.id r <> n) -> map g rows = rows.
Proof.
  intros Hg H. induction rows as [|a l IH]; [reflexivity|]. simpl.
  rewrite Hg by (apply H; now left). f_equal. apply IH.
  intros r Hr. apply H. now right.
Qed.

Section UpdateSlugs.
Variables (t s : jsstring) (n : Z) (stamp : jsstring).

Let g (r : Db.row) : Db.row :=
  if (Db.id r =? n)%Z
  then {| Db.id := Db.id r; Db.title := SText t; Db.slug := SText s;
          Db.created_at := Db.created_at r;
          Db.updated_at := SText stamp |}
  else r.

Lemma update_keeps_ids rows : map Db.id (map g rows) = map Db.id rows.
Proof.
  rewrite map_map. apply map_ext. intro r. unfold g.
  now destruct (Db.id r =? n)%Z.
Qed.

Lemma in_slugs_update v rows :
  In v (slugs (map g rows)) ->
  In v (slugs rows) \/ (v = SText s /\ exists r, In r rows /\ Db.id r = n).
Proof.
  intro H. apply in_slugs in H. destruct H as [r' [Hr' [Hs Hn]]].
  apply in_map_iff in Hr'. destruct Hr' as [r [<- Hr]]. unfold g in Hs.
  destruct (Db.id r =? n)%Z eqn:E.
  - right. simpl in Hs. split; [congruence|]. exists r. split; [exact Hr|].
    now apply Z.eqb_eq.
  - left. apply in_slugs. now exists r.
Qed.

Lemma slugs_update rows :
  NoDup (map Db.id rows) -> NoDup (slugs rows) ->
  ((exists r, In r rows /\ Db.id r = n) ->
   forall r, In r rows -> Db.id r <> n -> Db.slug r <> SText s) ->
  NoDup (slugs (map g rows)).
Proof.
  induction rows as [|a l IH]; intros Hid Hsl Hfree; [constructor|].
  inversion Hid as [|? ? Ha Hid']; subst.
  assert (Hl : NoDup (slugs l)).
  { rewrite slugs_cons in Hsl. destruct (Db.slug a); [exact Hsl | |];
      now inversion Hsl. }
  cbn [map]. rewrite slugs_cons. unfold g at 1.
  destruct (Db.id a =? n)%Z eqn:E.
  - apply Z.eqb_eq in E. cbn [Db.slug].
    assert (Habs : forall r, In r l -> Db.id r <> n).
    { intros r Hr Er. apply Ha. rewrite E, <- Er. now apply in_map. }
    rewrite (@map_update_absent g n l).
    + constructor; [|exact Hl]. intro Hin. apply in_slugs in Hin.
      destruct Hin as [r [Hr [Hs _]]]. revert Hs. apply Hfree.
      * exists a. split; [now left | exact E].
      * now right.
      * now apply Habs.
    + intros r Hr. unfold g. apply Z.eqb_neq in Hr. now rewrite Hr.
    + exact Habs.
  - apply Z.eqb_neq in E.
    assert (IHl : NoDup (slugs (map g l))).
    { apply IH; try assumption. intros [r [Hr Er]] r' Hr' Hne.
      apply Hfree; [exists r; split; [now right | exact Er] | now right | exact Hne]. }
    destruct (Db.slug a) eqn:Ea; [exact IHl | |];
      (constructor; [|exact IHl]; intro Hin;
       apply in_slugs_update in Hin; destruct Hin as [Hin|[Hv [r [Hr Er]]]];
       [ rewrite slugs_cons, Ea in Hsl; inversion Hsl; tauto
       | apply (Hfree (ex_intro _ r (conj (or_intror Hr) Er)) a (or_introl eq_refl) E);
         congruence ]).
Qed.

End UpdateSlugs.

Lemma consistent_update_post t s n now d d' :
  Db.update_post t s n now d = Ok d' -> consistent d -> consistent d'.
Proof.
  unfold Db.update_post. intros H [Hid [Hsl Hseq]].
  destruct (existsb _ _ && existsb _ _) eqn:Ex; [discriminate|].
  injection H as <-. unfold consistent. cbn [Db.posts Db.seq].
  split; [|split].
  - now rewrite update_keeps_ids.
  - apply slugs_update; try assumption.
    intros [r [Hr Er]] r' Hr' Hne.
    apply andb_false_iff in Ex. destruct Ex as [Ex|Ex].
    + exfalso. rewrite <- not_true_iff_false in Ex. apply Ex.
      apply existsb_exists. exists r. split; [exact Hr | now apply Z.eqb_eq].
    + apply unique_clash_false; [discriminate|].
      apply not_true_is_false. intro Hc.
      rewrite <- not_true_iff_false in Ex. apply Ex.
      apply existsb_exists. exists r'. split; [exact Hr'|].
      apply Z.eqb_neq in Hne. now rewrite Hne, Hc.
  - rewrite Forall_forall in *. intros r' Hr'.
    apply in_map_iff in Hr'. destruct Hr' as [r [<- Hr]].
    specialize (Hseq r Hr). now destruct (Db.id r =? n)%Z.
Qed.

Lemma consistent_insert_or_replace vid vt vs vc vu d d' :
  Db.insert_or_replace vid vt vs vc vu d = Ok d' ->
  consistent d -> consistent d'.
Proof.
  unfold Db.insert_or_replace. intros H [Hid [Hsl Hseq]].
  destruct (Db.rowid_of vid) as [given|e]; cbn [bind] in H; [|discriminate].
  set (sl := Db.text_affinity vs) in *.
  assert (G : exists n t,
             t <> SNull /\
             (given = None -> Db.next_rowid d = Ok n) /\
             d' = {| Db.posts :=
                       filter (fun r => negb ((Db.id r =? n)%Z ||
                                              Db.unique_clash sl (Db.slug r)))
                              (Db.posts d) ++
                       [{| Db.id := n; Db.title := t; Db.slug := sl;
                           Db.created_at := Db.numeric_affinity vc;
                           Db.updated_at := Db.numeric_affinity vu |}];
                     Db.seq := Z.max (Db.seq d) n |}).
  { destruct given as [m|];
      [ cbn [bind] in H
      | destruct (Db.next_rowid d) as [m|e] eqn:En; cbn [bind] in H;
        [|discriminate] ];
      (destruct (Db.text_affinity vt) as [|x|x] eqn:Et; [discriminate | |];
       injection H as <-; eexists; eexists;
       (split; [|split; [try discriminate; reflexivity | reflexivity]]);
       discriminate). }
  clear H. destruct G as [n [t [Ht [Hn ->]]]].
  unfold consistent. cbn [Db.posts Db.seq]. split; [|split].
  - rewrite map_app. apply NoDup_snoc; [now apply ids_filter|]. simpl.
    intro Hin. apply in_map_iff in Hin. destruct Hin as [r [Hr1 Hr2]].
    apply filter_In in Hr2. destruct Hr2 as [_ Hr2].
    apply negb_true_iff, orb_false_iff in Hr2. destruct Hr2 as [Hr2 _].
    apply Z.eqb_neq in Hr2. congruence.
  - rewrite slugs_app. unfold slugs at 2. cbn [flat_map Db.slug].
    rewrite app_nil_r.
    assert (Hk : NoDup (slugs (filter
                  (fun r => negb ((Db.id r =? n)%Z ||
                                  Db.unique_clash sl (Db.slug r)))
                  (Db.posts d)))) by now apply slugs_filter.
    assert (Hfresh : sl <> SNull ->
               ~ In sl (slugs (filter
                  (fun r => negb ((Db.id r =? n)%Z ||
                                  Db.unique_clash sl (Db.slug r)))
                  (Db.posts d)))).
    { intros Hnn Hin. apply in_slugs in Hin. destruct Hin as [r [Hr [Hs _]]].
      apply filter_In in Hr. destruct Hr as [_ Hr].
      apply negb_true_iff, orb_false_iff in Hr. destruct Hr as [_ Hr].
      revert Hs. now apply unique_clash_false. }
    destruct sl; [now rewrite app_nil_r | |];
      (apply NoDup_snoc; [exact Hk | apply Hfresh; discriminate]).
  - apply Forall_app. split.
    + apply Forall_forall. intros r Hr. apply filter_In in Hr.
      rewrite Forall_forall in Hseq. specialize (Hseq r (proj1 Hr)). lia.
    + constructor; [simpl; lia | constructor].
Qed.

(* what a call leaves in the database *)
Lemma createPost_db title content sql_now now1 now2 w :
  db (snd (createPost title content sql_now now1 now2 w)) = db w \/
  exists ref w' n,
    createPost title content sql_now now1 now2 w = (Ok ref, w') /\
    Db.insert_post title (Slug.createSlug title) sql_now (db w)
    = Ok (n, db w') /\
    ref_id ref = Num.to_number n.
Proof.
  destruct (createPost title content sql_now now1 now2 w) as [[ref|e] w'] eqn:E.
  - right. exists ref, w'.
    destruct (createPost_inv _ _ _ _ _ _ E) as [n [d1 [Hins [Hdb [Hid _]]]]].
    exists n. split; [reflexivity|]. split; [now rewrite Hdb | exact Hid].
  - left. unfold createPost, transaction in E.
    match type of E with (match ?m w with _ => _ end) = _ =>
      destruct (m w) as [[a|e'] w1]; [discriminate|] end.
    injection E as _ <-. reflexivity.
Qed.

Lemma updatePost_db id title content sql_now now w :
  db (snd (updatePost id title content sql_now now w)) = db w \/
  Db.update_post title (Slug.createSlug title) id sql_now (db w)
  = Ok (db (snd (updatePost id title content sql_now now w))).
Proof.
  unfold updatePost, mbind, sql_, sql, fs_, fs_read, read_text, parse, lift, ret.
  destruct (Db.update_post title (Slug.createSlug title) id sql_now (db w))
    as [d1|e]; cbn [bind]; [|now left].
  right. f_equal.
  repeat match goal with
         | |- context [match ?x with _ => _ end] =>
             match x with
             | context [match _ with _ => _ end] => fail 1
             | _ => destruct x eqn:?
             end
         end; reflexivity.
Qed.

Lemma deletePost_db id w :
  db (snd (deletePost id w)) = Db.delete_post id (db w).
Proof.
  unfold deletePost, mbind, sql_, sql, fs_read, when, fs_, ret.
  cbn [bind db fs]. now destruct (FS.existsSync _ (fs w)).
Qed.

Lemma consistent_after_restore info d :
  consistent d -> consistent (after_restore info d).
Proof.
  intro H. unfold after_restore, restore.
  destruct (restore_params info) as [ps|e]; cbn [bind]; [|exact H].
  destruct ps as [|pid [|pt [|ps [|pc [|pu [|x l]]]]]];
    cbn [restore_statement]; try exact H.
  destruct (Db.insert_or_replace _ _ _ _ _ d) eqn:E; [|exact H].
  eapply consistent_insert_or_replace; eauto.
Qed.

Lemma consistent_fold_restore snaps d :
  consistent d ->
  consistent (fold_left (fun d info => after_restore info d) snaps d).
Proof.
  revert d. induction snaps as [|i snaps IH]; intros d H; [exact H|].
  cbn [fold_left]. apply IH. now apply consistent_after_restore.
Qed.

Lemma consistent_perform w c :
  consistent (db w) -> consistent (db (perform w c)).
Proof.
  intro H. destruct c as [t c s n1 n2|i t c s n| i |]; cbn [perform].
  - destruct (createPost_db t c s n1 n2 w) as [->|[ref [w' [n [E [Hins _]]]]]];
      [exact H|].
    rewrite E. cbn [snd]. eapply consistent_insert_post; eauto.
  - destruct (updatePost_db i t c s n w) as [->|E]; [exact H|].
    eapply consistent_update_post; eauto.
  - rewrite deletePost_db. now apply consistent_delete_post.
  - rewrite rebuild_world. cbn [db].
    destruct (FS.readdirSync ARTICLES_DIR (fs w)).
    + apply consistent_fold_restore, consistent_delete_all.
    + apply consistent_delete_all.
Qed.

(** X3. Whatever calls of createPost, updatePost, deletePost and
    rebuildDatabaseFromFiles are made, with whatever arguments and whether
    they return or throw, a posts table in which the ids are distinct, the
    slugs that are not NULL are distinct and no id exceeds the AUTOINCREMENT
    counter stays so. *)
Theorem table_stays_consistent (calls : list call) (w : world) :
  consistent (db w) -> consistent (db (perform_all calls w)).
Proof.
  unfold perform_all. revert w.
  induction calls as [|c calls IH]; intros w H; [exact H|].
  cbn [fold_left]. apply IH. now apply consistent_perform.
Qed.

Lemma seq_after_restore info d : (Db.seq d <= Db.seq (after_restore info d))%Z.
Proof.
  unfold after_restore, restore.
  destruct (restore_params info) as [ps|e]; cbn [bind]; [|lia].
  destruct ps as [|pid [|pt [|ps [|pc [|pu [|x l]]]]]];
    cbn [restore_statement]; try lia.
  unfold Db.insert_or_replace.
  destruct (Db.rowid_of _) as [given|]; cbn [bind]; [|lia].
  destruct (Db.text_affinity _); try lia;
    (destruct given; cbn [bind];
     [cbn [Db.seq]; lia
     | destruct (Db.next_rowid d); cbn [bind Db.seq]; lia]).
Qed.

Lemma seq_fold_restore snaps d :
  (Db.seq d <= Db.seq (fold_left (fun d info => after_restore info d) snaps d))%Z.
Proof.
  revert d. induction snaps as [|i snaps IH]; intro d; [simpl; lia|].
  cbn [fold_left]. specialize (IH (after_restore i d)).
  pose proof (seq_after_restore i d). lia.
Qed.

Lemma insert_post_seq t s now d n d' :
  Db.insert_post t s now d = Ok (n, d') -> (Db.seq d < n)%Z /\ Db.seq d' = n.
Proof.
  unfold Db.insert_post. intro H.
  destruct (Db.next_rowid d) as [m|e] eqn:E; cbn [bind] in H; [|discriminate].
  destruct (existsb _ _); [discriminate|].
  injection H as <- <-. split; [|reflexivity].
  now destruct (next_rowid_fresh _ E).
Qed.

Lemma seq_perform w c : (Db.seq (db w) <= Db.seq (db (perform w c)))%Z.
Proof.
  destruct c as [t c s n1 n2|i t c s n| i |]; cbn [perform].
  - destruct (createPost_db t c s n1 n2 w) as [->|[ref [w' [n [E [Hins _]]]]]];
      [lia|].
    rewrite E. cbn [snd]. apply insert_post_seq in Hins. lia.
  - destruct (updatePost_db i t c s n w) as [->|E]; [lia|].
    unfold Db.update_post in E. destruct (_ && _); [discriminate|].
    injection E as E. rewrite <- E. cbn [Db.seq]. lia.
  - rewrite deletePost_db. cbn. lia.
  - rewrite rebuild_world. cbn [db].
    destruct (FS.readdirSync ARTICLES_DIR (fs w)).
    + apply (seq_fold_restore _ (Db.delete_all (db w))).
    + cbn. lia.
Qed.

Lemma seq_perform_all calls w :
  (Db.seq (db w) <= Db.seq (db (perform_all calls w)))%Z.
Proof.
  unfold perform_all. revert w.
  induction calls as [|c calls IH]; intro w; [simpl; lia|].
  cbn [fold_left]. specialize (IH (perform w c)).
  pose proof (seq_perform w c). lia.
Qed.

(** X4. A rowid is handed out once: after a createPost that returned, a
    later createPost gets a strictly larger rowid, whatever posts were
    deleted, updated or rebuilt in between. The ids that the two calls
    return are these rowids as JavaScript numbers, so the later id is
    strictly larger as long as it is below 2^53; beyond, where
    lastInsertRowid is rounded, this is not so. *)
Theorem post_id_never_reused
        (title content title' content' : jsstring)
        (sql_now now1 now2 sql_now' now1' now2' : Clock.datetime)
        (calls : list call) (w w1 w2 : world) (ref ref' : post_ref) :
  (0 <= Db.seq (db w))%Z ->
  createPost title content sql_now now1 now2 w = (Ok ref, w1) ->
  createPost title' content' sql_now' now1' now2' (perform_all calls w1)
    = (Ok ref', w2) ->
  exists n n',
    (0 < n < n')%Z /\
    ref_id ref = Num.to_number n /\ ref_id ref' = Num.to_number n' /\
    Db.seq (db w1) = n /\ Db.seq (db w2) = n' /\
    ((ref_id ref' < Num.safe)%Z -> (ref_id ref < ref_id ref')%Z).
Proof.
  intros Hseq H1 H2.
  destruct (createPost_inv _ _ _ _ _ _ H1) as [n [d1 [Hins1 [Hdb1 [Hid1 _]]]]].
  destruct (createPost_inv _ _ _ _ _ _ H2) as [n' [d2 [Hins2 [Hdb2 [Hid2 _]]]]].
  apply insert_post_seq in Hins1, Hins2.
  pose proof (seq_perform_all calls w1) as Hcalls. rewrite Hdb1 in Hcalls.
  exists n, n'. split; [lia|]. split; [exact Hid1|]. split; [exact Hid2|].
  split; [rewrite Hdb1; tauto|]. split; [rewrite Hdb2; tauto|].
  intro Hsafe. rewrite Hid2 in Hsafe.
  assert (Hn' : (n' < Num.safe)%Z).
  { destruct (Z.lt_ge_cases n' Num.safe) as [Hlt|Hge]; [exact Hlt|].
    pose proof (to_number_ge_safe Hge). lia. }
  rewrite Hid1, Hid2.
  rewrite (to_number_safe n), (to_number_safe n'); lia.
Qed.

End TableInvariant.

(** ** Calls below a folder *)

Section TreeFacts.
Import Path FS Tree.

Lemma set_entry_twice {A} k (v1 v2 : A) l :
  set_entry k v2 (set_entry k v1 l) = set_entry k v2 l.
Proof.
  induction l as [|[k' v'] l IH]; simpl.
  - now rewrite jsstring_eqb_refl.
  - destruct (jsstring_eqb k k') eqn:E; simpl.
    + now rewrite jsstring_eqb_refl.
    + now rewrite E, IH.
Qed.

Lemma set_entry_absent {A} k (v : A) l :
  assoc k l = None -> set_entry k v l = l ++ [(k, v)].
Proof.
  induction l as [|[k' v'] l IH]; simpl; [reflexivity|].
  destruct (jsstring_eqb k k'); [discriminate|]. intro H. now rewrite IH.
Qed.

Lemma set_entry_last {A} k (v1 v2 : A) l :
  assoc k l = None -> set_entry k v2 (l ++ [(k, v1)]) = l ++ [(k, v2)].
Proof.
  intro H. rewrite <- (set_entry_absent k v1 l H), set_entry_twice.
  now apply set_entry_absent.
Qed.

Lemma assoc_last {A} k (v : A) l :
  assoc k l = None -> assoc k (l ++ [(k, v)]) = Some v.
Proof.
  intro H. rewrite <- (set_entry_absent k v l H). apply assoc_set_same.
Qed.

Lemma lookup_graft p c n x :
  lookup p n = Some x -> lookup p (graft p c n) = Some c.
Proof.
  revert n. induction p as [|s p IH]; intros n H; [reflexivity|].
  destruct n as [d|es]; [discriminate|]. simpl in H |- *.
  destruct (assoc s es) as [y|] eqn:E; [|discriminate].
  simpl. rewrite assoc_set_same. now apply IH.
Qed.


Lemma lookup_graft_apart p q c n :
  is_prefix p q = false -> is_prefix q p = false ->
  lookup q (graft p c n) = lookup q n.
Proof.
  revert q n. induction p as [|s p IH]; intros q n Hpq Hqp; [discriminate|].
  destruct q as [|t q]; [discriminate|].
  destruct n as [d|es]; [reflexivity|]. cbn [graft].
  destruct (assoc s es) as [y|] eqn:E; [|reflexivity].
  cbn [lookup]. simpl in Hpq, Hqp.
  destruct (jsstring_eq_dec s t) as [->|Hne].
  - rewrite !jsstring_eqb_refl in *. simpl in *.
    rewrite assoc_set_same, E. now apply IH.
  - now rewrite assoc_set_other.
Qed.

Lemma graft_graft p c1 c2 n x :
  lookup p n = Some x -> graft p c2 (graft p c1 n) = graft p c2 n.
Proof.
  revert n. induction p as [|s p IH]; intros n H; [reflexivity|].
  destruct n as [d|es]; [reflexivity|]. simpl in H |- *.
  destruct (assoc s es) as [y|] eqn:E; [|discriminate].
  simpl. rewrite assoc_set_same, set_entry_twice. f_equal. f_equal.
  now apply IH.
Qed.

Lemma graft_same p n x : lookup p n = Some x -> graft p x n = n.
Proof.
  revert n. induction p as [|s p IH]; intros n H.
  - simpl in H. now injection H as ->.
  - destruct n as [d|es]; [reflexivity|]. simpl in H |- *.
    destruct (assoc s es) as [y|] eqn:E; [|discriminate].
    rewrite (IH _ H). f_equal. clear -E.
    induction es as [|[k v] es IHes]; simpl in *; [discriminate|].
    destruct (jsstring_eqb s k) eqn:Ek.
    + apply jsstring_eqb_eq in Ek. subst. now injection E as ->.
    + now rewrite IHes.
Qed.

(* a call on a path below a folder is the call on the folder's subtree *)
Lemma mkdirSync_below p q n es :
  lookup p n = Some (Dir es) ->
  mkdirSync (p ++ q) n =
  match mkdirSync q (Dir es) with
  | Ok c => Ok (graft p c n)
  | Throw e => Throw e
  end.
Proof.
  revert n. induction p as [|s p IH]; intros n H.
  - simpl in H. injection H as ->. simpl. now destruct (mkdirSync q (Dir es)).
  - destruct n as [d|es0]; [discriminate|]. simpl in H.
    destruct (assoc s es0) as [y|] eqn:E; [|discriminate].
    cbn [app mkdirSync graft]. rewrite E, (IH _ H).
    now destruct (mkdirSync q (Dir es)).
Qed.

Lemma writeFileSync_below p q data n es :
  q <> [] -> lookup p n = Some (Dir es) ->
  writeFileSync (p ++ q) data n =
  match writeFileSync q data (Dir es) with
  | Ok c => Ok (graft p c n)
  | Throw e => Throw e
  end.
Proof.
  intro Hq. revert n. induction p as [|s p IH]; intros n H.
  - simpl in H. injection H as ->. simpl.
    now destruct (writeFileSync q data (Dir es)).
  - destruct n as [d|es0]; [discriminate|]. simpl in H.
    destruct (assoc s es0) as [y|] eqn:E; [|discriminate].
    cbn [app graft]. rewrite E.
    destruct (p ++ q) as [|a r] eqn:Epq.
    { apply app_eq_nil in Epq. tauto. }
    rewrite writeFileSync_deep, E, (IH _ H).
    now destruct (writeFileSync q data (Dir es)).
Qed.

End TreeFacts.

(** ** Creating a post and reading it back *)

Section CreateFacts.
Import Path Blog Tree Life.
Context {R : Runtime}.

Lemma mkdir_in_last es s X q c :
  FS.assoc s es = None -> FS.mkdirSync q X = Ok c ->
  FS.mkdirSync (s :: q) (FS.Dir (es ++ [(s, X)])) = Ok (FS.Dir (es ++ [(s, c)])).
Proof.
  intros Hs Hq. cbn [FS.mkdirSync]. rewrite (assoc_last _ X _ Hs), Hq.
  cbn [bind]. now rewrite set_entry_last.
Qed.

Lemma write_in_last es s X q data c :
  q <> [] -> FS.assoc s es = None -> FS.writeFileSync q data X = Ok c ->
  FS.writeFileSync (s :: q) data (FS.Dir (es ++ [(s, X)]))
  = Ok (FS.Dir (es ++ [(s, c)])).
Proof.
  intros Hne Hs Hq. destruct q as [|a q]; [congruence|].
  rewrite writeFileSync_deep, (assoc_last _ X _ Hs), Hq.
  cbn [bind]. now rewrite set_entry_last.
Qed.

Lemma insert_post_ok t s now d n :
  (forall r, In r (Db.posts d) -> Db.slug r <> SText (Db.stored_text s)) ->
  Db.next_rowid d = Ok n ->
  Db.insert_post t s now d =
  Ok (n, {| Db.posts := Db.posts d ++
              [{| Db.id := n; Db.title := SText (Db.stored_text t);
                  Db.slug := SText (Db.stored_text s);
                  Db.created_at := SText (Db.current_timestamp now);
                  Db.updated_at := SText (Db.current_timestamp now) |}];
            Db.seq := n |}).
Proof.
  intros Hfree Hn. unfold Db.insert_post.
  assert (E : existsb (fun r => Db.unique_clash (SText (Db.stored_text s))
                                                (Db.slug r))
                      (Db.posts d) = false).
  { apply not_true_is_false. intro H. apply existsb_exists in H.
    destruct H as [r [Hr Hc]]. apply (Hfree r Hr). simpl in Hc.
    destruct (Db.slug r); try discriminate.
    apply jsstring_eqb_eq in Hc. now subst. }
  rewrite E, Hn. reflexivity.
Qed.

Lemma insert_slug_ok title now d n :
  (forall r, In r (Db.posts d) -> Db.slug r <> SText (Slug.createSlug title)) ->
  Db.next_rowid d = Ok n ->
  Db.insert_post title (Slug.createSlug title) now d =
  Ok (n, {| Db.posts := Db.posts d ++ [created_row n title now];
            Db.seq := n |}).
Proof.
  intros Hfree Hn. rewrite (@insert_post_ok title (Slug.createSlug title) now d n).
  - unfold created_row. now rewrite stored_text_slug.
  - now rewrite stored_text_slug.
  - exact Hn.
Qed.

Lemma number_path n :
  join ARTICLES_DIR [number_toString n] = ARTICLES_DIR ++ [number_toString n].
Proof. unfold number_toString. apply article_path. Qed.

(* createPost on a disk where the folder of the new id is not there yet *)
Lemma createPost_fresh
        (title content : jsstring) (sql_now now1 now2 : Clock.datetime)
        (w : world) (n : Z) (es : list (jsstring * FS.node)) :
  let postId := Num.to_number n in
  (forall r, In r (Db.posts (db w)) ->
             Db.slug r <> SText (Slug.createSlug title)) ->
  Db.next_rowid (db w) = Ok n ->
  FS.lookup ARTICLES_DIR (fs w) = Some (FS.Dir es) ->
  FS.assoc (number_toString postId) es = None ->
  createPost title content sql_now now1 now2 w =
  (Ok {| ref_id := postId; ref_slug := Slug.createSlug title;
         ref_path := ARTICLES_DIR ++ [number_toString postId] |},
   {| db := {| Db.posts := Db.posts (db w) ++ [created_row n title sql_now];
               Db.seq := n |};
      fs := graft ARTICLES_DIR
              (FS.Dir (es ++ [(number_toString postId,
                               created_folder content
                                 (createPost_info postId title
                                    (Slug.createSlug title) now1 now2))]))
              (fs w) |}).
Proof.
  intros postId Hfree Hn Hdir Hnew.
  unfold createPost, transaction, mbind at 1, sql.
  rewrite (insert_slug_ok title sql_now _ Hfree Hn).
  fold postId.
  unfold createArticleFolder. rewrite number_path.
  set (s := number_toString postId) in *. set (A := ARTICLES_DIR) in *.
  assert (Ea : join (A ++ [s]) [str "assets"] = A ++ [s; str "assets"]).
  { rewrite join_plain by reflexivity. now rewrite <- app_assoc. }
  assert (Ec : join (A ++ [s]) [str "content.html"] = A ++ [s; str "content.html"]).
  { rewrite join_plain by reflexivity. now rewrite <- app_assoc. }
  assert (Ei : join (A ++ [s]) [str "info.json"] = A ++ [s; str "info.json"]).
  { rewrite join_plain by reflexivity. now rewrite <- app_assoc. }
  rewrite Ea.
  unfold mbind, fs_read, when, fs_, ret. cbn beta iota delta [db fs].
  assert (Ex : FS.existsSync (A ++ [s]) (fs w) = false).
  { unfold FS.existsSync. rewrite lookup_app, Hdir. simpl. now rewrite Hnew. }
  rewrite Ex. cbn beta iota delta [negb db fs].
  (* the folder *)
  rewrite (mkdirSync_below A [s] (fs w) Hdir).
  assert (M1 : FS.mkdirSync [s] (FS.Dir es) = Ok (FS.Dir (es ++ [(s, FS.Dir [])]))).
  { cbn [FS.mkdirSync]. rewrite Hnew. cbn [bind].
    now rewrite set_entry_absent. }
  rewrite M1. cbn beta iota delta [db fs].
  (* its assets folder *)
  rewrite (mkdirSync_below A [s; str "assets"] _ (lookup_graft _ _ _ Hdir)).
  rewrite (@mkdir_in_last es s (FS.Dir []) [str "assets"]
             (FS.Dir [(str "assets", FS.Dir [])]) Hnew eq_refl).
  rewrite (graft_graft _ _ _ _ Hdir). cbn beta iota delta [db fs].
  (* content.html *)
  rewrite Ec, Ei.
  rewrite (@writeFileSync_below A [s; str "content.html"] _ _ _
             ltac:(discriminate) (lookup_graft _ _ _ Hdir)).
  rewrite (@write_in_last es s (FS.Dir [(str "assets", FS.Dir [])])
             [str "content.html"] (utf8_encode content)
             (FS.Dir [(str "assets", FS.Dir []);
                      (str "content.html", FS.File (utf8_encode content))])
             ltac:(discriminate) Hnew eq_refl).
  rewrite (graft_graft _ _ _ _ Hdir). cbn beta iota delta [db fs].
  (* info.json *)
  rewrite (@writeFileSync_below A [s; str "info.json"] _ _ _
             ltac:(discriminate) (lookup_graft _ _ _ Hdir)).
  rewrite (@write_in_last es s
             (FS.Dir [(str "assets", FS.Dir []);
                      (str "content.html", FS.File (utf8_encode content))])
             [str "info.json"] _
             (created_folder content
                (createPost_info postId title (Slug.createSlug title) now1 now2))
             ltac:(discriminate) Hnew eq_refl).
  rewrite (graft_graft _ _ _ _ Hdir). reflexivity.
Qed.

(** X5. When no post holds the slug of the title, a rowid is left, the
    articles folder exists and has no entry named after the new id,
    createPost returns the new id, which is the rowid as a JavaScript
    number and so the rowid itself below 2^53, and the slug; afterwards the
    table is the old one with the new row at its end, which holds the
    title in its stored form, and the articles folder is the old one with
    one more entry, the folder of the post, named by the digits of the id,
    which holds an empty assets folder, content.html with the content and
    info.json with the record. Nothing else on the disk changes. *)
Theorem createPost_succeeds
        (title content : jsstring) (sql_now now1 now2 : Clock.datetime)
        (w : world) (n : Z) (es : list (jsstring * FS.node)) :
  let postId := Num.to_number n in
  (forall r, In r (Db.posts (db w)) ->
             Db.slug r <> SText (Slug.createSlug title)) ->
  Db.next_rowid (db w) = Ok n ->
  FS.lookup ARTICLES_DIR (fs w) = Some (FS.Dir es) ->
  FS.assoc (number_toString postId) es = None ->
  createPost title content sql_now now1 now2 w =
  (Ok {| ref_id := postId; ref_slug := Slug.createSlug title;
         ref_path := ARTICLES_DIR ++ [number_toString postId] |},
   {| db := {| Db.posts := Db.posts (db w) ++ [created_row n title sql_now];
               Db.seq := n |};
      fs := graft ARTICLES_DIR
              (FS.Dir (es ++ [(number_toString postId,
                               created_folder content
                                 (createPost_info postId title
                                    (Slug.createSlug title) now1 now2))]))
              (fs w) |}) /\
  ((Z.abs n < Num.safe)%Z ->
   postId = n /\ number_toString postId = toString n).
Proof.
  intros postId Hfree Hn Hdir Hnew. split.
  - now apply createPost_fresh.
  - intro Hs. unfold postId, number_toString.
    rewrite (to_number_safe n Hs), (shortest_safe n Hs). now split.
Qed.

(* the two files that a createPost that returned has written *)
Lemma createPost_writes title content sql_now now1 now2 w ref w' :
  createPost title content sql_now now1 now2 w = (Ok ref, w') ->
  exists n0 n1,
    FS.writeFileSync (join (ref_path ref) [str "content.html"])
      (utf8_encode content) n0 = Ok n1 /\
    FS.writeFileSync (join (ref_path ref) [str "info.json"])
      (utf8_encode (JSON_stringify (createPost_info (ref_id ref) title
                                      (Slug.createSlug title) now1 now2)))
      n1 = Ok (fs w').
Proof.
  unfold createPost, transaction. intro H.
  match type of H with (match ?m w with _ => _ end) = _ =>
    destruct (m w) as [[a|e] w1] eqn:E; [|discriminate] end.
  injection H as -> ->.
  unfold mbind, sql in E.
  destruct (Db.insert_post title (Slug.createSlug title) sql_now (db w))
    as [[n d1]|e] eqn:Hins; [|discriminate].
  unfold createArticleFolder, mbind, fs_read, when, fs_, ret in E.
  cbn [fs db] in E.
  run_steps E; injection E as <- <-; cbn; eexists; eexists; split; eassumption.
Qed.

Lemma insert_post_by_slug t s now d n d' :
  Db.insert_post t s now d = Ok (n, d') ->
  Db.select_by_slug s d' =
  Some {| Db.id := n; Db.title := SText (Db.stored_text t);
          Db.slug := SText (Db.stored_text s);
          Db.created_at := SText (Db.current_timestamp now);
          Db.updated_at := SText (Db.current_timestamp now) |}.
Proof.
  unfold Db.insert_post. intro H.
  destruct (Db.next_rowid d) as [m|e] eqn:E; cbn [bind] in H; [|discriminate].
  destruct (existsb _ _) eqn:Ex; [discriminate|].
  injection H as <- <-. unfold Db.select_by_slug. cbn [Db.posts].
  apply find_app_fresh.
  - intros x Hx. apply not_true_is_false. intro Hc.
    rewrite <- not_true_iff_false in Ex. apply Ex.
    apply existsb_exists. now exists x.
  - cbn. apply jsstring_eqb_refl.
Qed.

(** X6. A post that createPost has just created reads back while its id
    is below 2^53: when the text encoding reproduces the content and
    JSON.parse reads the serialised record, getPostById of the returned id
    gives the new row, which holds the title in its stored form, the
    content as supplied and the parsed record, and getPostBySlug of the
    returned slug gives the same row and content. *)
Theorem createPost_read_back
        (title content : jsstring) (sql_now now1 now2 : Clock.datetime)
        (w w' : world) (ref : post_ref) (v : json) :
  createPost title content sql_now now1 now2 w = (Ok ref, w') ->
  (Z.abs (ref_id ref) < Num.safe)%Z ->
  utf8_decode (utf8_encode content) = content ->
  JSON_parse (utf8_decode (utf8_encode (JSON_stringify
     (createPost_info (ref_id ref) title (Slug.createSlug title) now1 now2))))
  = Some v ->
  getPostById (ref_id ref) w' =
    (Ok (Some {| post_row := created_row (ref_id ref) title sql_now;
                 post_content := content; post_info := Some v |}), w') /\
  getPostBySlug (ref_slug ref) w' =
    (Ok (Some {| post_row := created_row (ref_id ref) title sql_now;
                 post_content := content; post_info := None |}), w') /\
  Db.title (created_row (ref_id ref) title sql_now)
    = SText (Db.stored_text title).
Proof.
  intros H Hsafe Hc Hv.
  destruct (createPost_writes _ _ _ _ _ _ H) as [n0 [n1 [Hw1 Hw2]]].
  destruct (createPost_inv _ _ _ _ _ _ H)
    as [n [d1 [Hins [Hdb [Hid [Hslug [Hpath _]]]]]]].
  assert (Hn : ref_id ref = n).
  { rewrite Hid. apply to_number_small. now rewrite <- Hid. }
  rewrite <- Hn in Hins.
  pose proof (insert_post_row _ _ _ _ Hins) as Hrow. cbn zeta in Hrow.
  destruct Hrow as [_ Hsel].
  pose proof (insert_post_by_slug _ _ _ _ Hins) as Hsl.
  rewrite stored_text_slug in Hsel, Hsl.
  rewrite <- Hdb in Hsel, Hsl.
  unfold number_toString in Hpath. rewrite (shortest_safe _ Hsafe) in Hpath.
  rewrite Hpath, article_path in Hw1, Hw2.
  set (f := ARTICLES_DIR ++ [toString (ref_id ref)]) in *.
  assert (Pc : join f [str "content.html"] = f ++ [str "content.html"])
    by (apply join_plain; reflexivity).
  assert (Pi : join f [str "info.json"] = f ++ [str "info.json"])
    by (apply join_plain; reflexivity).
  rewrite Pc in Hw1. rewrite Pi in Hw2.
  assert (Lc : FS.lookup (f ++ [str "content.html"]) (fs w')
               = Some (FS.File (utf8_encode content))).
  { rewrite (lookup_write_other _ _ _ _ Hw2).
    - now apply (lookup_write_same _ _ _ Hw1).
    - apply is_prefix_sibling. discriminate. }
  assert (Li : FS.lookup (f ++ [str "info.json"]) (fs w')
               = Some (FS.File (utf8_encode (JSON_stringify
                    (createPost_info (ref_id ref) title
                       (Slug.createSlug title) now1 now2)))))
    by now apply (lookup_write_same _ _ _ Hw2).
  assert (Jc : join ARTICLES_DIR [toString (ref_id ref); str "content.html"]
               = f ++ [str "content.html"]).
  { rewrite join_plain by (simpl; now rewrite toString_plain).
    unfold f. now rewrite <- app_assoc. }
  assert (Ji : join ARTICLES_DIR [toString (ref_id ref); str "info.json"]
               = f ++ [str "info.json"]).
  { rewrite join_plain by (simpl; now rewrite toString_plain).
    unfold f. now rewrite <- app_assoc. }
  split; [|split].
  - unfold getPostById, mbind, query, fs_read, read_text, parse, lift, ret,
      FS.existsSync, FS.readFileSync.
    repeat (progress (cbn beta iota delta [db fs];
                      rewrite ?Hsel, ?Jc, ?Ji, ?Lc, ?Li, ?Hc, ?Hv)).
    reflexivity.
  - unfold getPostBySlug, mbind, query, fs_read, read_text, ret,
      FS.existsSync, FS.readFileSync.
    rewrite Hslug.
    repeat (progress (cbn beta iota delta [db fs Db.id created_row];
                      rewrite ?Hsl, ?Jc, ?Lc, ?Hc)).
    reflexivity.
  - reflexivity.
Qed.

End CreateFacts.

(** ** Deleting and updating among other posts *)

Section FrameFacts.
Import Path Blog.
Context {R : Runtime}.




Lemma lookup_remove_at_apart p q n :
  is_prefix p q = false -> is_prefix q p = false ->
  FS.lookup q (FS.remove_at p n) = FS.lookup q n.
Proof.
  revert q n. induction p as [|s p IH]; intros q n Hpq Hqp; [discriminate|].
  destruct q as [|t q]; [discriminate|].
  destruct n as [d|es]; [reflexivity|]. simpl in Hpq, Hqp.
  destruct (jsstring_eq_dec s t) as [->|Hne].
  - rewrite jsstring_eqb_refl in Hpq, Hqp. simpl in Hpq, Hqp.
    destruct p as [|s' p']; [discriminate|].
    rewrite remove_at_deep. destruct (FS.assoc t es) as [c|] eqn:E;
      [|reflexivity].
    cbn [FS.lookup]. rewrite assoc_set_same, E. now apply IH.
  - destruct p as [|s' p'].
    + simpl. now rewrite assoc_remove_other.
    + rewrite remove_at_deep. destruct (FS.assoc s es) as [c|] eqn:E;
        [|reflexivity].
      cbn [FS.lookup]. now rewrite assoc_set_other.
Qed.



Lemma write_below_file p s q data n d :
  FS.lookup p n = Some (FS.File d) ->
  FS.writeFileSync (p ++ s :: q) data n = Throw FsError.
Proof.
  revert n. induction p as [|t p IH]; intros n H.
  - simpl in H. injection H as ->. now destruct q.
  - destruct n as [d0|es]; [discriminate|]. simpl in H.
    destruct (FS.assoc t es) as [c|] eqn:E; [|discriminate].
    cbn [app]. destruct (p ++ s :: q) as [|a r] eqn:Epq.
    { now destruct p. }
    rewrite writeFileSync_deep, E, (IH _ H). reflexivity.
Qed.

(** X8. A file that lies where the folder of the next post would go blocks
    the creation: createPost throws, the row it had inserted is rolled back
    and the disk is untouched, so the next createPost meets the same id and
    the same file. *)
Theorem createPost_blocked_by_file
        (title content : jsstring) (sql_now now1 now2 : Clock.datetime)
        (w : world) (n : Z) (data : bytes) :
  (forall r, In r (Db.posts (db w)) ->
             Db.slug r <> SText (Slug.createSlug title)) ->
  Db.next_rowid (db w) = Ok n ->
  FS.lookup (join ARTICLES_DIR [number_toString (Num.to_number n)]) (fs w)
    = Some (FS.File data) ->
  createPost title content sql_now now1 now2 w = (Throw FsError, w).
Proof.
  intros Hfree Hn Hfile.
  unfold createPost, transaction, mbind at 1, sql.
  rewrite (insert_slug_ok title sql_now _ Hfree Hn).
  unfold createArticleFolder, mbind, fs_read, when, fs_, ret.
  cbn beta iota delta [db fs]. unfold FS.existsSync. rewrite Hfile.
  cbn beta iota delta [negb db fs].
  rewrite (join_plain (join ARTICLES_DIR [number_toString (Num.to_number n)])
                      [str "content.html"])
    by reflexivity.
  rewrite (write_below_file _ (str "content.html") [] _ _ Hfile).
  cbn beta iota delta [db fs]. now rewrite world_eta.
Qed.






End FrameFacts.

(** ** Storing an asset and fetching it *)

Section AssetRoundTrip.
Import Path Blog Server.
Context {R : Runtime}.

Lemma normalize_onto_app acc l1 l2 :
  normalize_onto acc (l1 ++ l2)
  = normalize_onto (rev (normalize_onto acc l1)) l2.
Proof.
  revert acc. induction l1 as [|s l1 IH]; intro acc.
  - simpl. now rewrite rev_involutive.
  - cbn [app normalize_onto].
    destruct (jsstring_eqb s []); [apply IH|].
    destruct (jsstring_eqb s [dot]); [apply IH|].
    destruct (jsstring_eqb s [dot; dot]); apply IH.
Qed.

(* path.join(path.join(base, a...), b...) is path.join(base, a..., b...) *)
Lemma join_join base parts1 parts2 :
  join (join base parts1) parts2 = join base (parts1 ++ parts2).
Proof.
  unfold join. now rewrite flat_map_app, normalize_onto_app.
Qed.

Lemma no_slash_app a b : no_slash (a ++ b) = no_slash a && no_slash b.
Proof. apply forallb_app. Qed.

Lemma no_slash_end s : no_slash s = true -> ends_with_slash s = false.
Proof.
  unfold no_slash, ends_with_slash. intro H.
  destruct (rev s) as [|c r] eqn:E; [reflexivity|].
  rewrite forallb_forall in H. apply negb_true_iff, H.
  apply (proj2 (in_rev s c)). rewrite E. now left.
Qed.

Lemma toString_no_slash n : no_slash (toString n) = true.
Proof.
  pose proof (toString_plain n) as H. unfold plain in H.
  apply andb_true_iff in H. tauto.
Qed.

(* a call of uploadImageToPost that returned has written the buffer *)
Lemma uploadImageToPost_inv postId buf filename now_ms rand w url w' :
  uploadImageToPost postId buf filename now_ms rand w = (Ok url, w') ->
  let name := toString now_ms ++ str "-" ++ rand ++ path_extname filename in
  url = str "/api/article-asset/" ++ postId ++ str "/" ++ name /\
  db w' = db w /\
  exists n1,
    FS.writeFileSync
      (join (join ARTICLES_DIR [postId; str "assets"]) [name]) buf n1
    = Ok (fs w').
Proof.
  unfold uploadImageToPost, mbind, fs_read, when, fs_, ret. intro E.
  cbn beta iota delta [db fs] in E.
  run_steps E; cbn beta iota delta [db fs] in *; injection E as <- <-;
    cbn beta iota delta [db fs]; (split; [reflexivity|]);
    (split; [reflexivity|]); eexists; eassumption.
Qed.

(** X11. An image that uploadImageToPost has stored is served back: when
    the random part and the extension hold no slash, the returned address
    ends in the generated file name, and getArticleAsset of the post and
    that name returns the very bytes that were uploaded, as does the asset
    route with status 200. The database is not touched. *)
Theorem upload_then_fetch
        (postId : jsstring) (buf : bytes) (filename : jsstring) (now_ms : Z)
        (rand url : jsstring) (w w' : world) :
  uploadImageToPost postId buf filename now_ms rand w = (Ok url, w') ->
  no_slash rand = true -> no_slash (path_extname filename) = true ->
  let name := toString now_ms ++ str "-" ++ rand ++ path_extname filename in
  url = str "/api/article-asset/" ++ postId ++ str "/" ++ name /\
  db w' = db w /\
  getArticleAsset postId name w' = (Ok (Some buf), w') /\
  exists ctype,
    article_asset postId name w' =
    (Ok {| status := 200; body := FileBody ctype buf |}, w').
Proof.
  intros H Hr He name.
  destruct (uploadImageToPost_inv _ _ _ _ _ _ H) as [Hu [Hdb [n1 Hw]]].
  fold name in Hu, Hw.
  assert (Hn : no_slash name = true).
  { unfold name. rewrite !no_slash_app, toString_no_slash, Hr, He.
    reflexivity. }
  assert (G : getArticleAsset postId name w' = (Ok (Some buf), w')).
  { unfold getArticleAsset, mbind, fs_read, resolve, ret.
    rewrite (no_slash_end _ Hn).
    change [postId; str "assets"; name] with ([postId; str "assets"] ++ [name]).
    rewrite <- join_join. rewrite (lookup_write_same _ _ _ Hw). reflexivity. }
  split; [exact Hu|]. split; [exact Hdb|]. split; [exact G|].
  unfold article_asset, try_catch, mbind. rewrite G. eexists. reflexivity.
Qed.

(** X12. A file name without a slash that is neither "." nor ".." stays
    inside the post's assets folder: getArticleAsset looks at the entry of
    that name in the folder and nowhere else; it returns the bytes of a
    file, throws on a directory, and answers null when there is no entry,
    which the asset route turns into status 404. *)
Theorem getArticleAsset_plain_name (postId filename : jsstring) (w : world) :
  plain filename = true ->
  let assets := join ARTICLES_DIR [postId; str "assets"] in
  join ARTICLES_DIR [postId; str "assets"; filename] = assets ++ [filename] /\
  getArticleAsset postId filename w =
    match FS.lookup (assets ++ [filename]) (fs w) with
    | Some (FS.File data) => (Ok (Some data), w)
    | Some (FS.Dir _) => (Throw FsError, w)
    | None => (Ok None, w)
    end /\
  (FS.lookup (assets ++ [filename]) (fs w) = None ->
   article_asset postId filename w =
   (Ok {| status := 404; body := ErrorBody FileNotFound |}, w)).
Proof.
  intros Hp assets.
  assert (E : join ARTICLES_DIR [postId; str "assets"; filename]
              = assets ++ [filename]).
  { change [postId; str "assets"; filename]
      with ([postId; str "assets"] ++ [filename]).
    rewrite <- join_join. apply join_plain. simpl. now rewrite Hp. }
  assert (G : getArticleAsset postId filename w =
              match FS.lookup (assets ++ [filename]) (fs w) with
              | Some (FS.File data) => (Ok (Some data), w)
              | Some (FS.Dir _) => (Throw FsError, w)
              | None => (Ok None, w)
              end).
  { unfold getArticleAsset, mbind, fs_read, resolve, ret, throw.
    rewrite E, (plain_no_trailing_slash _ Hp).
    destruct (FS.lookup (assets ++ [filename]) (fs w)) as [[d|es]|] eqn:L;
      rewrite ?L; reflexivity. }
  split; [exact E|]. split; [exact G|].
  intro Hnone. unfold article_asset, try_catch, mbind. rewrite G, Hnone.
  reflexivity.
Qed.

End AssetRoundTrip.

(** ** Rebuilding after a creation *)

Section RecoveryFacts.
Import Path Blog Tree Life.
Context {R : Runtime}.




Lemma length_after_restore info d :
  List.length (Db.posts (after_restore info d))
  <= S (List.length (Db.posts d)).
Proof.
  unfold after_restore, restore.
  destruct (restore_params info) as [ps|e]; cbn [bind]; [|lia].
  destruct ps as [|pid [|pt [|ps [|pc [|pu [|x l]]]]]];
    cbn [restore_statement]; try lia.
  destruct (Db.insert_or_replace _ _ _ _ _ d) as [d'|e] eqn:E; [|lia].
  unfold Db.insert_or_replace in E.
  destruct (Db.rowid_of _) as [given|]; cbn [bind] in E; [|discriminate].
  destruct (match given with Some n => Ok n | None => Db.next_rowid d end);
    cbn [bind] in E; [|discriminate].
  destruct (Db.text_affinity _); try discriminate;
    (injection E as <-; cbn [Db.posts];
     rewrite length_app; cbn [List.length];
     match goal with
     | |- context [filter ?f ?l] => pose proof (filter_length_le f l)
     end; lia).
Qed.

Lemma length_fold_restore snaps d :
  List.length (Db.posts (fold_left (fun d info => after_restore info d) snaps d))
  <= List.length snaps + List.length (Db.posts d).
Proof.
  revert d. induction snaps as [|i snaps IH]; intro d; [simpl; lia|].
  cbn [fold_left List.length]. specialize (IH (after_restore i d)).
  pose proof (length_after_restore i d). lia.
Qed.

(** X13. The rebuild never leaves more rows than there are snapshots that
    parse: whatever the snapshots hold, the table afterwards has at most N
    rows. *)
Theorem rebuild_at_most_snapshots (w : world) :
  List.length (Db.posts (db (snd (rebuildDatabaseFromFiles w))))
  <= List.length (snapshots (fs w)).
Proof.
  rewrite rebuild_world. cbn [db].
  destruct (FS.readdirSync ARTICLES_DIR (fs w)); [|simpl; lia].
  pose proof (length_fold_restore (snapshots (fs w)) (Db.delete_all (db w))) as H.
  cbn [Db.delete_all Db.posts List.length] in H. lia.
Qed.

Lemma next_rowid_range d n :
  Db.next_rowid d = Ok n -> (n <= Db.max_rowid)%Z.
Proof.
  unfold Db.next_rowid. intro H.
  destruct (_ >=? Db.max_rowid)%Z eqn:E; [discriminate|].
  injection H as <-. rewrite Z.geb_leb in E. apply Z.leb_gt in E. lia.
Qed.


End RecoveryFacts.

(** ** The administrator and the session *)

Section AuthFacts.
Import Json Auth.
Context {R : Runtime} {C : Crypto}.

Lemma getUserCount_pos u : (getUserCount u >? 0)%Z = true <-> users u <> [].
Proof.
  unfold getUserCount. destruct (users u); simpl; split; try congruence.
  - discriminate.
  - reflexivity.
Qed.

Lemma getUserCount_zero u : users u = [] -> (getUserCount u >? 0)%Z = false.
Proof. unfold getUserCount. now intros ->. Qed.

Lemma setup_admin_refused a b s u :
  users u <> [] ->
  setup_admin a b s u =
  (Ok {| status := 403; body := Failure AdminAlreadyExists |}, u).
Proof.
  intro H. unfold setup_admin.
  now rewrite (proj2 (getUserCount_pos u) H).
Qed.

Lemma hex_digit_below d :
  (d < 16)%N -> Db.below_surrogates (hex_digit d) = true.
Proof.
  intro H. unfold hex_digit, Db.below_surrogates. apply N.ltb_lt.
  destruct (d <? 10)%N; lia.
Qed.

(* a hexadecimal text is stored as it is *)
Lemma stored_text_hex b : Db.stored_text (hex b) = hex b.
Proof.
  apply stored_text_plain. unfold hex.
  induction b as [|x b IH]; [reflexivity|].
  cbn [flat_map app forallb].
  rewrite !hex_digit_below by (apply N.mod_lt; discriminate).
  exact IH.
Qed.

Lemma text_param_string name :
  text_param (Value (JStr name)) = Ok (SText (Db.stored_text name)).
Proof. reflexivity. Qed.

(* createUser adds one row or none *)
Lemma createUser_adds_one a h s u n u' :
  createUser a h s u = Ok (n, u') ->
  List.length (users u') = S (List.length (users u)).
Proof.
  unfold createUser. intro E.
  destruct (Blog.bind_args 3 _) as [ps|]; cbn [bind] in E; [|discriminate].
  destruct (map Db.text_affinity ps) as [|pn [|ph [|pt [|x l]]]];
    try discriminate.
  destruct (next_uid u); cbn [bind] in E; [|discriminate].
  destruct pn as [| |x]; try discriminate.
  destruct ph as [| |y]; try discriminate.
  destruct pt as [| |z]; try discriminate.
  destruct (existsb _ _); [discriminate|].
  injection E as _ <-. cbn [users]. rewrite length_app. simpl. lia.
Qed.

Lemma setup_admin_adds_one a b s u :
  users u = [] -> List.length (users (snd (setup_admin a b s u))) <= 1.
Proof.
  intro H. unfold setup_admin. rewrite (getUserCount_zero _ H).
  destruct (negb (truthy a) || negb (truthy b)); cbn [snd]; [rewrite H; simpl; lia|].
  cbv zeta.
  destruct (hashPassword b (generateSalt s)) as [h|e]; cbn [snd];
    [|rewrite H; simpl; lia].
  destruct (createUser a h (generateSalt s) u) as [[n u']|e] eqn:E; cbn [snd];
    [|rewrite H; simpl; lia].
  rewrite (createUser_adds_one _ _ _ _ E), H. simpl. lia.
Qed.

(** X15. There is one administrator at most: once the users table holds a
    user every request to /api/setup-admin is answered 403 and changes
    nothing, so a table that starts empty never holds more than one user,
    whatever requests are made. *)
Theorem setup_admin_single (attempts : list (jsval * jsval * jsstring))
        (u : users_db) :
  List.length (users u) <= 1 ->
  List.length (users (setup_all attempts u)) <= 1 /\
  (users u <> [] -> setup_all attempts u = u).
Proof.
  unfold setup_all. revert u.
  induction attempts as [|[[a b] s] attempts IH]; intros u H.
  - simpl. tauto.
  - cbn [fold_left fst snd]. destruct (users u) as [|x l] eqn:Eu.
    + split; [|congruence]. apply IH. apply setup_admin_adds_one. exact Eu.
    + assert (Hne : users u <> []) by congruence.
      rewrite (@setup_admin_refused a b s u Hne). cbn [snd].
      split; [apply IH; now rewrite Eu|].
      intros _. apply IH; [now rewrite Eu | exact Hne].
Qed.

Lemma length_nonzero (s : jsstring) :
  s <> [] -> negb (Nat.eqb (List.length s) 0) = true.
Proof. now destruct s. Qed.

(** X16. The administrator who was set up can log in: on an empty users
    table, a setup with a non-empty user name and password creates the one
    user, with the scrypt digest of the password under the fresh salt; a
    login with that name and password is answered 200 and puts the user's
    id into the session, which then passes requireAuth; a login with a
    password whose digest under the salt differs is answered 401 and leaves
    the session as it was. *)
Theorem setup_then_login (name pw : jsstring) (random : bytes) (u : users_db) :
  users u = [] -> name <> [] -> pw <> [] ->
  (0 <= users_seq u < Db.max_rowid)%Z ->
  let id := (users_seq u + 1)%Z in
  let new_salt := generateSalt random in
  let u' := {| users := [{| uid := id; username := Db.stored_text name;
                            password_hash := scrypt_hex pw new_salt;
                            salt := new_salt |}];
               users_seq := id |} in
  setup_admin (Value (JStr name)) (Value (JStr pw)) random u
    = (Ok {| status := 200; body := Success |}, u') /\
  (forall s, login (Value (JStr name)) (Value (JStr pw)) s u'
             = (Ok {| status := 200; body := Success |}, Some id)) /\
  authenticated (Some id) = true /\
  (forall s pw', scrypt_hex pw' new_salt <> scrypt_hex pw new_salt ->
                 login (Value (JStr name)) (Value (JStr pw')) s u'
                 = (Ok {| status := 401; body := Failure WrongCredentials |}, s)).
Proof.
  intros Hu Hname Hpw Hseq id new_salt u'. split; [|split; [|split]].
  - unfold setup_admin. rewrite (getUserCount_zero _ Hu).
    cbn [truthy]. rewrite (length_nonzero Hname), (length_nonzero Hpw).
    cbn [negb orb hashPassword]. cbv zeta. fold new_salt.
    unfold createUser.
    change (Blog.bind_args 3 [Value (JStr name);
                              Value (JStr (scrypt_hex pw new_salt));
                              Value (JStr new_salt)])
      with (Ok [SText (Db.stored_text name);
                SText (Db.stored_text (scrypt_hex pw new_salt));
                SText (Db.stored_text new_salt)]).
    cbn [bind map Db.text_affinity].
    unfold scrypt_hex at 1, new_salt at 2, generateSalt at 1.
    rewrite !stored_text_hex.
    rewrite Hu. cbn [existsb]. unfold next_uid. rewrite Hu. cbn [fold_right].
    assert (E : (users_seq u >=? Db.max_rowid)%Z = false).
    { rewrite Z.geb_leb. apply Z.leb_gt. lia. }
    rewrite E. reflexivity.
  - intro s. unfold login, getUserByUsername. rewrite text_param_string.
    cbn [bind users u' find username].
    rewrite jsstring_eqb_refl. cbn [hashPassword salt password_hash uid].
    now rewrite jsstring_eqb_refl.
  - unfold authenticated, id. apply negb_true_iff, Z.eqb_neq. lia.
  - intros s pw' Hne. unfold login, getUserByUsername. rewrite text_param_string.
    cbn [bind users u' find username].
    rewrite jsstring_eqb_refl. cbn [hashPassword salt password_hash uid].
    apply jsstring_eqb_neq in Hne. now rewrite Hne.
Qed.

(** X17. What a login request is answered otherwise: a user name that no
    row holds is answered 401 and the session stays as it was, and so is a
    request without a user name or with null for it, which the statement
    takes for NULL; a user name that is a boolean makes the statement throw
    a TypeError that the route does not catch, and so does a password that
    is not a string when the user exists. *)
Theorem login_failures (s : session) (u : users_db) :
  (forall name pw,
      (forall r, In r (users u) -> username r <> Db.stored_text name) ->
      login (Value (JStr name)) pw s u
      = (Ok {| status := 401; body := Failure WrongCredentials |}, s)) /\
  (forall pw,
      login Undefined pw s u
      = (Ok {| status := 401; body := Failure WrongCredentials |}, s) /\
      login (Value JNull) pw s u
      = (Ok {| status := 401; body := Failure WrongCredentials |}, s)) /\
  (forall b pw, login (Value (JBool b)) pw s u = (Throw TypeError, s)) /\
  (forall name pw r,
      find (fun r => jsstring_eqb (username r) (Db.stored_text name)) (users u)
      = Some r ->
      (forall p, pw <> Value (JStr p)) ->
      login (Value (JStr name)) pw s u = (Throw TypeError, s)).
Proof.
  split; [|split; [|split]].
  - intros name pw Hnone. unfold login, getUserByUsername.
    rewrite text_param_string. cbn [bind].
    assert (E : find (fun r => jsstring_eqb (username r) (Db.stored_text name))
                     (users u) = None).
    { destruct (find _ (users u)) as [r|] eqn:F; [|reflexivity].
      apply find_some in F. destruct F as [Hin Heq].
      apply jsstring_eqb_eq in Heq. exfalso. now apply (Hnone r). }
    now rewrite E.
  - intro pw. split; reflexivity.
  - intros b pw. reflexivity.
  - intros name pw r Hf Hpw. unfold login, getUserByUsername.
    rewrite text_param_string. cbn [bind]. rewrite Hf.
    unfold hashPassword. destruct pw as [|[| | |p| |]]; try reflexivity.
    exfalso. now apply (Hpw p).
Qed.

End AuthFacts.

(** ** The upload route, end to end *)

Section UploadRoundTrip.
Import Path Blog Server.
Context {R : Runtime}.

Lemma is_prefix_split p q :
  is_prefix p q = true -> exists r, q = p ++ r.
Proof.
  revert q. induction p as [|a p IH]; intros q H; [now exists q|].
  destruct q as [|b q]; [discriminate|]. simpl in H.
  apply andb_true_iff in H. destruct H as [Hab Hp].
  apply jsstring_eqb_eq in Hab. subst b.
  destruct (IH q Hp) as [r ->]. now exists r.
Qed.

Lemma write_on_dir p data n es :
  FS.lookup p n = Some (FS.Dir es) -> FS.writeFileSync p data n = Throw FsError.
Proof.
  revert n. induction p as [|s p IH]; intros n H.
  - now destruct n.
  - destruct n as [d|es0]; [reflexivity|]. simpl in H.
    destruct (FS.assoc s es0) as [c|] eqn:E; [|discriminate].
    destruct p as [|s' p'].
    + simpl in H. injection H as ->. simpl. now rewrite E.
    + rewrite writeFileSync_deep, E, (IH _ H). reflexivity.
Qed.

(* a file elsewhere and the path of a write that went through lie apart *)
Lemma written_path_apart p data n n' t x :
  FS.writeFileSync p data n = Ok n' ->
  FS.lookup t n = Some (FS.File x) -> t <> p ->
  is_prefix t p = false /\ is_prefix p t = false.
Proof.
  intros Hw Ht Hne. split.
  - destruct (is_prefix t p) eqn:E; [|reflexivity].
    apply is_prefix_split in E. destruct E as [[|s q] ->].
    + rewrite app_nil_r in Hne. congruence.
    + rewrite (write_below_file _ _ _ _ _ Ht) in Hw. discriminate.
  - destruct (is_prefix p t) eqn:E; [|reflexivity].
    apply is_prefix_split in E. destruct E as [[|s q] ->].
    + rewrite app_nil_r in Hne. congruence.
    + rewrite lookup_app in Ht.
      destruct (FS.lookup p n) as [[d|es]|] eqn:L; try discriminate.
      rewrite (write_on_dir _ _ _ L) in Hw. discriminate.
Qed.

(* the steps of uploadImageToPost on a disk that holds a file elsewhere *)
Lemma uploadImageToPost_keeps postId buf filename now_ms rand w url w' t x :
  uploadImageToPost postId buf filename now_ms rand w = (Ok url, w') ->
  FS.lookup t (fs w) = Some (FS.File x) ->
  let name := toString now_ms ++ str "-" ++ rand ++ path_extname filename in
  let target := join (join ARTICLES_DIR [postId; str "assets"]) [name] in
  t <> target ->
  FS.lookup t (fs w') = Some (FS.File x) /\
  FS.lookup target (fs w') = Some (FS.File buf) /\
  is_prefix t target = false /\ is_prefix target t = false.
Proof.
  intros E Ht name target Hne.
  unfold uploadImageToPost, mbind, fs_read, when, fs_, ret in E.
  cbn beta iota delta [db fs] in E.
  fold name in E. fold target in E.
  assert (G : forall n1, FS.lookup t n1 = Some (FS.File x) ->
                         FS.writeFileSync target buf n1 = Ok (fs w') ->
              FS.lookup t (fs w') = Some (FS.File x) /\
              FS.lookup target (fs w') = Some (FS.File buf) /\
              is_prefix t target = false /\ is_prefix target t = false).
  { intros n1 Ht1 Hw.
    destruct (@written_path_apart target buf n1 (fs w') t x Hw Ht1 Hne)
      as [A1 A2].
    split; [|split; [|split]]; try assumption.
    - now rewrite (lookup_write_other _ _ _ _ Hw A1).
    - now apply (lookup_write_same _ _ _ Hw). }
  destruct (FS.existsSync _ (fs w)); cbn beta iota delta [negb db fs] in E.
  - destruct (FS.writeFileSync target buf (fs w)) as [n2|e] eqn:W;
      [|discriminate].
    injection E as _ <-. cbn [fs]. apply (G (fs w)); [exact Ht|].
    now rewrite W.
  - destruct (FS.mkdirSync _ (fs w)) as [n1|e] eqn:M;
      cbn beta iota delta [db fs] in E; [|discriminate].
    destruct (FS.writeFileSync target buf n1) as [n2|e] eqn:W; [|discriminate].
    injection E as _ <-. cbn [fs]. apply (G n1).
    + now apply (lookup_mkdir_file _ _ _ M).
    + now rewrite W.
Qed.

(** X18. What the upload route has stored is what the asset route serves:
    when the staged copy is within the size limit and uploadImageToPost
    returns an address for its bytes, the upload route answers 200 with
    that address, the staged copy is gone, and the asset route answers 200
    with the bytes of the staged copy for the generated file name. The
    staged copy must not lie at the very path of the new asset, and the
    random part and the extension must hold no slash. *)
Theorem upload_route_round_trip
        (postId : jsstring) (f : upload_file) (now_ms : Z) (rand : jsstring)
        (w w1 : world) (data : bytes) (url : jsstring) :
  let name :=
    toString now_ms ++ str "-" ++ rand ++ path_extname (originalname f) in
  file_path f <> [] ->
  FS.lookup (file_path f) (fs w) = Some (FS.File data) ->
  (file_size f <= MAX_UPLOAD)%Z ->
  uploadImageToPost postId data (originalname f) now_ms rand w = (Ok url, w1) ->
  file_path f <> join (join ARTICLES_DIR [postId; str "assets"]) [name] ->
  no_slash rand = true -> no_slash (path_extname (originalname f)) = true ->
  exists w',
    upload_image postId (Some f) now_ms rand w
      = (Ok {| status := 200; body := UrlBody url |}, w') /\
    FS.lookup (file_path f) (fs w') = None /\
    getArticleAsset postId name w' = (Ok (Some data), w') /\
    exists ctype,
      article_asset postId name w' =
      (Ok {| status := 200; body := FileBody ctype data |}, w').
Proof.
  intros name Hp Hf Hsize Hup Hne Hr He.
  destruct (@uploadImageToPost_keeps postId data (originalname f) now_ms rand
              w url w1 (file_path f) data Hup Hf Hne)
    as [Ht [Ha [A1 A2]]].
  fold name in Ha, A1, A2.
  destruct (unlink_file _ Hp Ht) as [Hu Hgone].
  exists {| db := db w1; fs := FS.remove_at (file_path f) (fs w1) |}.
  assert (Hn : no_slash name = true).
  { unfold name. rewrite !no_slash_app, toString_no_slash, Hr, He.
    reflexivity. }
  assert (G : getArticleAsset postId name
                {| db := db w1; fs := FS.remove_at (file_path f) (fs w1) |}
              = (Ok (Some data),
                 {| db := db w1; fs := FS.remove_at (file_path f) (fs w1) |})).
  { unfold getArticleAsset, mbind, fs_read, resolve, ret.
    rewrite (no_slash_end _ Hn).
    change [postId; str "assets"; name] with ([postId; str "assets"] ++ [name]).
    rewrite <- join_join. cbn [fs].
    rewrite (lookup_remove_at_apart _ _ _ A1 A2), Ha. reflexivity. }
  split; [|split; [exact Hgone|split; [exact G|]]].
  - unfold upload_image, try_catch.
    assert (E : (file_size f >? MAX_UPLOAD)%Z = false).
    { rewrite Z.gtb_ltb. apply Z.ltb_ge. lia. }
    rewrite E. unfold mbind at 1. unfold read_buffer at 1.
    unfold FS.readFileSync. rewrite Hf.
    unfold mbind at 1. rewrite Hup.
    unfold mbind, fs_, ret. rewrite Hu. reflexivity.
  - unfold article_asset, try_catch, mbind. rewrite G. eexists. reflexivity.
Qed.

End UploadRoundTrip.

(** ** Reading a post after an update, and the folders after a deletion *)

Section UpdateReadBack.
Import Path Blog Calls.
Context {R : Runtime}.


Section Renaming.
Variables (t s : jsstring) (n : Z) (stamp : jsstring).

Let g (r : Db.row) : Db.row :=
  if (Db.id r =? n)%Z
  then {| Db.id := Db.id r; Db.title := SText t; Db.slug := SText s;
          Db.created_at := Db.created_at r;
          Db.updated_at := SText stamp |}
  else r.



End Renaming.







End UpdateReadBack.

(** ** The session, from login to logout *)

Section SessionFacts.
Import Json Auth.
Context {R : Runtime} {C : Crypto}.

Lemma find_by_uid (l : list user) (r : user) :
  NoDup (map uid l) -> In r l ->
  find (fun x => (uid x =? uid r)%Z) l = Some r.
Proof.
  induction l as [|a l IH]; intros Hnd Hin; [destruct Hin|].
  simpl in Hnd. inversion Hnd as [|? ? Hna Hnd']; subst.
  destruct Hin as [->|Hin].
  - simpl. now rewrite Z.eqb_refl.
  - simpl. destruct (uid a =? uid r)%Z eqn:E.
    + apply Z.eqb_eq in E. exfalso. apply Hna. rewrite E.
      now apply in_map.
    + now apply IH.
Qed.

(** X21. A login is answered 200 only for a stored user: the user name, as
    it is compared with the TEXT column, is the name of a row of the users
    table, the password is a string, and its scrypt digest under the salt
    of that row is the stored digest. The session then holds the id of that
    row; when the ids of the table are distinct and not 0 the session
    passes requireAuth and /api/me answers with the id and the name of that
    user, and after /api/logout requireAuth refuses and /api/me answers
    with no user. *)
Theorem login_sound (name pw : jsval) (s s' : session) (u : users_db) :
  login name pw s u = (Ok {| status := 200; body := Success |}, s') ->
  exists r p,
    In r (users u) /\
    text_param name = Ok (SText (username r)) /\
    pw = Value (JStr p) /\
    password_hash r = scrypt_hex p (salt r) /\
    s' = Some (uid r) /\
    (NoDup (map uid (users u)) -> uid r <> 0%Z ->
     (forall A (no yes : A), requireAuth s' no yes = yes) /\
     me s' u = {| status := 200;
                  body := CurrentUser (Some (uid r, username r)) |} /\
     (forall A (no yes : A), requireAuth (snd (logout s')) no yes = no) /\
     me (snd (logout s')) u = {| status := 200; body := NoUser |}).
Proof.
  unfold login, getUserByUsername. intro H.
  destruct (text_param name) as [p|e] eqn:Ep; cbn [bind] in H;
    [|discriminate].
  destruct p as [|n|t]; try discriminate.
  destruct (find (fun r => jsstring_eqb (username r) t) (users u))
    as [r|] eqn:Ef; [|discriminate].
  destruct pw as [|[| | |q| |]]; cbn [hashPassword] in H; try discriminate.
  destruct (jsstring_eqb (scrypt_hex q (salt r)) (password_hash r)) eqn:Eh;
    [|discriminate].
  apply jsstring_eqb_eq in Eh.
  destruct (find_some _ _ Ef) as [Hin Hname].
  apply jsstring_eqb_eq in Hname.
  injection H as Hs. exists r, q.
  split; [exact Hin|]. split; [now rewrite Hname|].
  split; [reflexivity|]. split; [now symmetry|].
  split; [now symmetry|].
  intros Hnd Hz. subst s'.
  assert (Hb : negb (uid r =? 0)%Z = true).
  { apply negb_true_iff. now apply Z.eqb_neq. }
  split; [|split; [|split]].
  - intros A no yes. unfold requireAuth, authenticated. now rewrite Hb.
  - unfold me. rewrite Hb. unfold getUserById.
    now rewrite (@find_by_uid (users u) r Hnd Hin).
  - reflexivity.
  - reflexivity.
Qed.

End SessionFacts.

(** ** The rebuild route *)

Section RebuildRoute.
Import Path Blog Auth Admin.
Context {R : Runtime}.

(** X22. The rebuild route never throws and never changes the disk.
    Without a session it answers 401 and leaves the table as it is. With a
    session it answers 200 exactly when the articles folder can be listed;
    otherwise it answers 500, and the posts table, which is emptied before
    the folder is listed, is left empty. *)
Theorem rebuild_database_answers (s : session) (w : world) :
  exists resp w',
    rebuild_database s w = (Ok resp, w') /\
    fs w' = fs w /\
    (authenticated s = false ->
     resp = {| status := 401; body := Unauthorized |} /\ w' = w) /\
    (authenticated s = true ->
     (forall entries, FS.readdirSync ARTICLES_DIR (fs w) = Ok entries ->
        resp = {| status := 200; body := Rebuilt |}) /\
     (forall e, FS.readdirSync ARTICLES_DIR (fs w) = Throw e ->
        resp = {| status := 500; body := RebuildFailed |} /\
        Db.posts (db w') = [])).
Proof.
  unfold rebuild_database, requireAuth.
  destruct (authenticated s) eqn:Ea.
  - unfold try_catch, mbind, ret.
    destruct (FS.readdirSync ARTICLES_DIR (fs w)) as [entries|e] eqn:E.
    + rewrite (rebuild_spec w E). eexists. eexists.
      split; [reflexivity|]. split; [reflexivity|].
      split; [discriminate|]. intros _. split.
      * reflexivity.
      * intros e H. discriminate.
    + rewrite (rebuild_unreadable w E). eexists. eexists.
      split; [reflexivity|]. split; [reflexivity|].
      split; [discriminate|]. intros _. split.
      * intros entries H. discriminate.
      * intros e' _. split; reflexivity.
  - unfold ret. exists {| status := 401; body := Unauthorized |}, w.
    split; [reflexivity|]. split; [reflexivity|].
    split; [intros _; split; reflexivity | discriminate].
Qed.

End RebuildRoute.

(** ** The further properties on the concrete platform *)

Section Cases.
Import Path Blog Server Demo Calls Tree Life Cases.

Lemma createSlug_shape_witness :
  List.length (Slug.createSlug (str "  Hello,  World! ")) < 100 /\
  forall x, Slug.createSlug (str "  Hello,  World! ") <> x ++ [Slug.dash].
Proof.
  assert (H : List.length (Slug.createSlug (str "  Hello,  World! ")) < 100)
    by (vm_compute; lia).
  split; [exact H|].
  exact (proj2 (proj2 (@createSlug_shape runtime (str "  Hello,  World! "))) H).
Defined.

Lemma table_stays_consistent_witness :
  consistent
    (db (perform_all
           [ Create (str "Hello World") (str "<p>hi</p>") t0 t0 t0;
             Create (str "hello, world!") (str "<p>again</p>") t0 t0 t0;
             Update 1 (str "Other") (str "<p>x</p>") t0 t0;
             Delete 1;
             Rebuild ] empty_world)).
Proof.
  apply (@table_stays_consistent runtime).
  repeat split; constructor.
Defined.

Lemma post_id_never_reused_witness :
  createPost (str "Again") (str "<p>x</p>") t0 t0 t0 deleted_world
  = (Ok again_ref, again_world) /\
  exists n n',
    (0 < n < n')%Z /\
    ref_id hello_ref = Num.to_number n /\
    ref_id again_ref = Num.to_number n' /\
    Db.seq (db hello_world) = n /\ Db.seq (db again_world) = n' /\
    ((ref_id again_ref < Num.safe)%Z ->
     (ref_id hello_ref < ref_id again_ref)%Z).
Proof.
  split; [vm_compute; reflexivity|].
  apply (@post_id_never_reused runtime (str "Hello World") (str "<p>hi</p>")
           (str "Again") (str "<p>x</p>") t0 t0 t0 t0 t0 t0 [Delete 1]
           empty_world hello_world again_world hello_ref again_ref).
  - vm_compute. discriminate.
  - vm_compute. reflexivity.
  - vm_compute. reflexivity.
Defined.

Lemma createPost_succeeds_witness :
  createPost (str "Hello World") (str "<p>hi</p>") t0 t0 t0 empty_world =
  (Ok {| ref_id := Num.to_number 1;
         ref_slug := Slug.createSlug (str "Hello World");
         ref_path := ARTICLES_DIR ++ [number_toString (Num.to_number 1)] |},
   {| db := {| Db.posts := [created_row 1 (str "Hello World") t0];
               Db.seq := 1 |};
      fs := graft ARTICLES_DIR
              (FS.Dir [(number_toString (Num.to_number 1),
                        created_folder (str "<p>hi</p>")
                          (createPost_info (Num.to_number 1) (str "Hello World")
                             (Slug.createSlug (str "Hello World")) t0 t0))])
              (fs empty_world) |}) /\
  ((Z.abs 1 < Num.safe)%Z ->
   Num.to_number 1 = 1%Z /\ number_toString (Num.to_number 1) = toString 1).
Proof.
  apply (@createPost_succeeds runtime (str "Hello World") (str "<p>hi</p>")
           t0 t0 t0 empty_world 1 []).
  - intros r [].
  - reflexivity.
  - reflexivity.
  - reflexivity.
Defined.

Lemma createPost_read_back_witness :
  getPostById 1 hello_world =
    (Ok (Some {| post_row := hello_row; post_content := str "<p>hi</p>";
                 post_info := Some (JObj hello_fields) |}), hello_world) /\
  getPostBySlug (str "hello-world") hello_world =
    (Ok (Some {| post_row := hello_row; post_content := str "<p>hi</p>";
                 post_info := None |}), hello_world) /\
  Db.title hello_row = SText (Db.stored_text (str "Hello World")).
Proof.
  apply (@createPost_read_back runtime (str "Hello World") (str "<p>hi</p>")
           t0 t0 t0 empty_world hello_world hello_ref (JObj hello_fields)).
  - vm_compute. reflexivity.
  - vm_compute. reflexivity.
  - vm_compute. reflexivity.
  - vm_compute. reflexivity.
Defined.


Lemma createPost_blocked_by_file_witness :
  createPost (str "Hello World") (str "<p>hi</p>") t0 t0 t0 blocked_world
  = (Throw FsError, blocked_world).
Proof.
  apply (@createPost_blocked_by_file runtime (str "Hello World")
           (str "<p>hi</p>") t0 t0 t0 blocked_world 1 (str "stray")).
  - intros r [].
  - reflexivity.
  - vm_compute. reflexivity.
Defined.



Lemma upload_then_fetch_witness :
  asset_url = str "/api/article-asset/" ++ str "1" ++ str "/" ++ asset_name /\
  db stored_world = db staged_world /\
  getArticleAsset (str "1") asset_name stored_world
  = (Ok (Some [137; 80; 78; 71]%N), stored_world) /\
  exists ctype,
    article_asset (str "1") asset_name stored_world =
    (Ok {| status := 200; body := FileBody ctype [137; 80; 78; 71]%N |},
     stored_world).
Proof.
  apply (@upload_then_fetch runtime (str "1") [137; 80; 78; 71]%N
           (str "dot.PNG") 1700000000000 (str "k3j9x0q1z") asset_url
           staged_world stored_world).
  - vm_compute. reflexivity.
  - reflexivity.
  - reflexivity.
Defined.

Lemma getArticleAsset_plain_name_witness :
  join ARTICLES_DIR [str "1"; str "assets"; str "missing.png"]
  = join ARTICLES_DIR [str "1"; str "assets"] ++ [str "missing.png"] /\
  getArticleAsset (str "1") (str "missing.png") hello_world
  = (Ok None, hello_world) /\
  (FS.lookup (join ARTICLES_DIR [str "1"; str "assets"] ++ [str "missing.png"])
             (fs hello_world) = None ->
   article_asset (str "1") (str "missing.png") hello_world =
   (Ok {| status := 404; body := ErrorBody FileNotFound |}, hello_world)).
Proof.
  apply (@getArticleAsset_plain_name runtime (str "1") (str "missing.png")
           hello_world).
  reflexivity.
Defined.


Lemma setup_admin_single_witness :
  List.length (Auth.users (Auth.setup_all attempts no_users)) <= 1 /\
  (Auth.users no_users <> [] -> Auth.setup_all attempts no_users = no_users).
Proof.
  apply (@setup_admin_single runtime crypto attempts no_users).
  simpl. lia.
Defined.

Lemma setup_then_login_witness :
  Auth.setup_admin (Json.Value (JStr (str "admin")))
                   (Json.Value (JStr (str "secret"))) [171; 18]%N no_users
    = (Ok {| Auth.status := 200; Auth.body := Auth.Success |}, one_admin) /\
  (forall s, Auth.login (Json.Value (JStr (str "admin")))
                        (Json.Value (JStr (str "secret"))) s one_admin
             = (Ok {| Auth.status := 200; Auth.body := Auth.Success |},
                Some 1%Z)) /\
  Auth.authenticated (Some 1%Z) = true /\
  (forall s pw',
      Auth.scrypt_hex pw' (str "ab12")
      <> Auth.scrypt_hex (str "secret") (str "ab12") ->
      Auth.login (Json.Value (JStr (str "admin"))) (Json.Value (JStr pw')) s
                 one_admin
      = (Ok {| Auth.status := 401;
               Auth.body := Auth.Failure Auth.WrongCredentials |}, s)).
Proof.
  apply (@setup_then_login runtime crypto (str "admin") (str "secret")
           [171; 18]%N no_users).
  - reflexivity.
  - discriminate.
  - discriminate.
  - unfold Db.max_rowid. simpl. lia.
Defined.

Lemma login_failures_witness :
  Auth.login (Json.Value (JStr (str "nobody")))
             (Json.Value (JStr (str "secret"))) None one_admin
  = (Ok {| Auth.status := 401;
           Auth.body := Auth.Failure Auth.WrongCredentials |}, None).
Proof.
  apply (proj1 (@login_failures runtime crypto None one_admin)).
  intros r [<-|[]] H. vm_compute in H. discriminate.
Defined.

Lemma upload_route_round_trip_witness :
  exists w',
    upload_image (str "1") (Some small_upload) 1700000000000 (str "k3j9x0q1z")
                 staged_world
      = (Ok {| status := 200; body := UrlBody asset_url |}, w') /\
    FS.lookup (file_path small_upload) (fs w') = None /\
    getArticleAsset (str "1") asset_name w'
      = (Ok (Some [137; 80; 78; 71]%N), w') /\
    exists ctype,
      article_asset (str "1") asset_name w' =
      (Ok {| status := 200; body := FileBody ctype [137; 80; 78; 71]%N |}, w').
Proof.
  apply (@upload_route_round_trip runtime (str "1") small_upload 1700000000000
           (str "k3j9x0q1z") staged_world stored_world [137; 80; 78; 71]%N
           asset_url).
  - discriminate.
  - vm_compute. reflexivity.
  - vm_compute. discriminate.
  - vm_compute. reflexivity.
  - intro H. vm_compute in H. discriminate.
  - reflexivity.
  - reflexivity.
Defined.


Lemma login_sound_witness :
  exists r p,
    In r (Auth.users one_admin) /\
    Auth.text_param (Json.Value (JStr (str "admin")))
    = Ok (SText (Auth.username r)) /\
    Json.Value (JStr (str "secret")) = Json.Value (JStr p) /\
    Auth.password_hash r = Auth.scrypt_hex p (Auth.salt r) /\
    Some 1%Z = Some (Auth.uid r) /\
    (NoDup (map Auth.uid (Auth.users one_admin)) -> Auth.uid r <> 0%Z ->
     (forall A (no yes : A), Auth.requireAuth (Some 1%Z) no yes = yes) /\
     Auth.me (Some 1%Z) one_admin
     = {| Auth.status := 200;
          Auth.body := Auth.CurrentUser (Some (Auth.uid r, Auth.username r)) |} /\
     (forall A (no yes : A),
         Auth.requireAuth (snd (Auth.logout (Some 1%Z))) no yes = no) /\
     Auth.me (snd (Auth.logout (Some 1%Z))) one_admin
     = {| Auth.status := 200; Auth.body := Auth.NoUser |}).
Proof.
  apply (@login_sound runtime crypto (Json.Value (JStr (str "admin")))
           (Json.Value (JStr (str "secret"))) None (Some 1%Z) one_admin).
  vm_compute. reflexivity.
Defined.

Lemma rebuild_database_answers_witness :
  exists resp w',
    Admin.rebuild_database (Some 1%Z) lost_world = (Ok resp, w') /\
    resp = {| Admin.status := 500; Admin.body := Admin.RebuildFailed |} /\
    Db.posts (db w') = [].
Proof.
  destruct (@rebuild_database_answers runtime (Some 1%Z) lost_world)
    as [resp [w' [H [_ [_ H2]]]]].
  exists resp, w'. split; [exact H|].
  apply (proj2 (H2 eq_refl) FsError). reflexivity.
Defined.

End Cases.
